(** * Stock dashboard: the rolling-window calculators of [stock_dashboard.py]

    The development embeds the two analysis functions of the dashboard,
    [calculate_moving_averages] and [calculate_bollinger_bands], the data
    loader [load_data] and the top-level branch that consumes its result.

    Numbers.  The program computes in binary64.  Two readings of its
    arithmetic are kept apart.  The modules [Rolling], [Ops] and [Dashboard]
    keep a float64 column as a list of cells, a cell being a real number or
    NaN ([None]), and carry arithmetic out in the reals: NaN propagation is
    modelled there, rounding and overflow are not, and the running sums
    pandas keeps for a window are written as the sums they stand for.  The
    module [Kernel] has the kernels of pandas themselves, [roll_mean] with
    its compensated running sum and its count of repeated values and
    [roll_var] with Welford's update, over an arithmetic given as a record.
    It has two instances: [binary64], on primitive floats, is the arithmetic
    of the program; [exact] is the reals without rounding.  The kernels run
    in [exact] are proved to be the aggregates of [Rolling].  The theorems
    on [Kernel] name the arithmetic they are about.  What is proved of
    [binary64] for all inputs rests on the IEEE specification of the
    primitive operations ([SpecFloat]); the modules [Shift] and [Sign]
    put its rounding in a form in which two rounded results compare.

    Objects.  A DataFrame is a mutable object; the program holds references
    to frames, and [data[col] = ...] updates the frame a reference points
    to.  The interpreter state keeps the frames by reference, so that a
    caller sees what a callee wrote.

    pandas.  [Series.rolling(window=w)] on an integer window is the fixed,
    right-closed trailing window with [min_periods = w]: the window of
    position [i] holds the positions [max 0 (i-w+1) .. i]; an aggregate is
    NaN unless the window has at least [min_periods] non-NaN observations.
    [mean] also needs one observation, [std] (ddof = 1) more than one. *)

From Stdlib Require Import Reals Lra Lia ZArith.
From Stdlib Require Floats Uint63.
From stdpp Require Import gmap strings list pretty.
Import (notations) PrimFloat.

(** Decimal float literals stand for the nearest binary64 number. *)
Set Warnings "-inexact-float".

(** ** Float columns and rolling aggregates *)

Module Rolling.

Abbreviation cell := (option R).

Definition sum_R (xs : list R) : R := foldr Rplus 0%R xs.

(** The cells a trailing window of size [w] sees at position [i]. *)
Definition window_at (w i : nat) (xs : list cell) : list cell :=
  drop (i + 1 - w) (take (i + 1) xs).

(** The non-NaN observations of a window. *)
Definition observations (win : list cell) : list R := omap (λ c, c) win.

Definition mean_of (obs : list R) : R := (sum_R obs / INR (length obs))%R.

(** Sum of squared deviations from the mean. *)
Definition ssqdm (obs : list R) : R :=
  sum_R ((λ x, (x - mean_of obs) * (x - mean_of obs))%R <$> obs).

Definition var_of (ddof : nat) (obs : list R) : R :=
  (ssqdm obs / (INR (length obs) - INR ddof))%R.

(** [calc_mean]: NaN unless [nobs >= minp] and [nobs > 0]. *)
Definition calc_mean (minp : nat) (obs : list R) : cell :=
  if (minp <=? length obs) && (0 <? length obs)
  then Some (mean_of obs) else None.

(** [calc_var] followed by the square root: NaN unless [nobs >= minp] and
    [nobs > ddof]. *)
Definition calc_std (minp ddof : nat) (obs : list R) : cell :=
  if (minp <=? length obs) && (ddof <? length obs)
  then Some (sqrt (var_of ddof obs)) else None.

(** [xs.rolling(window=w).mean()] *)
Definition roll_mean (w : nat) (xs : list cell) : list cell :=
  (λ i, calc_mean w (observations (window_at w i xs))) <$> seq 0 (length xs).

(** [xs.rolling(window=w).std()] *)
Definition roll_std (w : nat) (xs : list cell) : list cell :=
  (λ i, calc_std w 1 (observations (window_at w i xs))) <$> seq 0 (length xs).

(** Element-wise float arithmetic; NaN is absorbing. *)
Definition cell_add (a b : cell) : cell :=
  match a, b with Some x, Some y => Some (x + y)%R | _, _ => None end.

Definition cell_sub (a b : cell) : cell :=
  match a, b with Some x, Some y => Some (x - y)%R | _, _ => None end.

Definition cell_scale (k : R) (a : cell) : cell :=
  match a with Some x => Some (x * k)%R | None => None end.

End Rolling.

(** ** The textbook definitions the calculators are compared with *)

Module Textbook.

(** Closing prices at the positions [lo .. lo + len - 1]. *)
Definition closes (ps : list R) (lo len : nat) : list R :=
  (λ j, nth j ps 0%R) <$> seq lo len.

(** The sum of a list of numbers. *)
Fixpoint total (xs : list R) : R :=
  match xs with
  | [] => 0%R
  | x :: rest => (x + total rest)%R
  end.

(** Arithmetic mean of the prices at positions [i - w + 1 .. i]. *)
Definition trailing_mean (w : nat) (ps : list R) (i : nat) : R :=
  (total (closes ps (i + 1 - w) w) / INR w)%R.

(** Sample standard deviation (divide by [w - 1]) over the same positions. *)
Definition trailing_sample_std (w : nat) (ps : list R) (i : nat) : R :=
  sqrt (total
          ((λ x, (x - trailing_mean w ps i) * (x - trailing_mean w ps i))%R
             <$> closes ps (i + 1 - w) w)
        / (INR w - 1))%R.

(** Trailing simple moving average: undefined on the first [w - 1]
    positions. *)
Definition sma (w : nat) (ps : list R) (i : nat) : option R :=
  if i <? w - 1 then None else Some (trailing_mean w ps i).

End Textbook.


(** ** pandas objects, the screen and the interpreter state *)

Module Runtime.

(** A column with its dtype: float64 (NaN is [None]), int64, datetime64. *)
Inductive Series :=
  | FloatSeries (xs : list (option R))
  | IntSeries (ns : list Z)
  | DatetimeSeries (ts : list Z).

Definition series_len (s : Series) : nat :=
  match s with
  | FloatSeries xs => length xs
  | IntSeries ns => length ns
  | DatetimeSeries ts => length ts
  end.

Definition series_tail (n : nat) (s : Series) : Series :=
  match s with
  | FloatSeries xs => FloatSeries (drop (length xs - n) xs)
  | IntSeries ns => IntSeries (drop (length ns - n) ns)
  | DatetimeSeries ts => DatetimeSeries (drop (length ts - n) ts)
  end.

Inductive Index :=
  | RangeIndex (n : nat)
  | LabelIndex (name : option string) (labels : Series).

Definition index_len (ix : Index) : nat :=
  match ix with RangeIndex n => n | LabelIndex _ s => series_len s end.

Definition index_values (ix : Index) : Series :=
  match ix with
  | RangeIndex n => IntSeries (Z.of_nat <$> seq 0 n)
  | LabelIndex _ s => s
  end.

(** A DataFrame: a row index and named columns (column order is not kept). *)
Record DataFrame := mkDataFrame {
  df_index : Index;
  df_columns : gmap string Series
}.

(** [df.empty]: some axis has length 0. *)
Definition df_empty (df : DataFrame) : bool :=
  (index_len (df_index df) =? 0) || bool_decide (df_columns df = ∅).

Definition df_tail (n : nat) (df : DataFrame) : DataFrame :=
  {| df_index :=
       match df_index df with
       | RangeIndex m => LabelIndex None (series_tail n (index_values (RangeIndex m)))
       | LabelIndex nm s => LabelIndex nm (series_tail n s)
       end;
     df_columns := series_tail n <$> df_columns df |}.

(** The exceptions of class [Exception] the program can meet.  Exceptions
    that derive from [BaseException] alone ([KeyboardInterrupt],
    [SystemExit]) are not modelled; [except Exception] does not catch
    them. *)
Inductive Exn :=
  | KeyError (key : string)
  | ValueError (msg : string)
  | DataError (msg : string)
  | ProviderError (msg : string).

(** [str(e)] *)
Definition exn_str (e : Exn) : string :=
  match e with
  | KeyError key => "'" +:+ key +:+ "'"
  | ValueError msg | DataError msg | ProviderError msg => msg
  end.

Inductive Outcome (A : Type) :=
  | Ok (a : A)
  | Raise (e : Exn).
Arguments Ok {A} a.
Arguments Raise {A} e.

(** Plotly figures, as far as the data they are given goes. *)
Record Scatter := mkScatter {
  sc_x : Series;
  sc_y : Series;
  sc_name : string
}.

Inductive Widget :=
  | StError (msg : string)
  | StWarning (msg : string)
  | StHeader (text : string)
  | StSubheader (text : string)
  | StPlotlyChart (fig : list Scatter)
  | StDataframe (df : DataFrame).

Abbreviation ref := positive.

(** The interpreter state: the DataFrame objects by identity, what has been
    written to the page, and the analysis functions entered so far (a ghost
    log the program itself does not read). *)
Record World := mkWorld {
  frames : gmap ref DataFrame;
  screen : list Widget;
  entered : list string
}.

(** A computation reads and updates the world and returns or raises; what it
    wrote before raising stays written. *)
Definition Py (A : Type) : Type := World → Outcome A * World.

Definition ret {A} (a : A) : Py A := λ W, (Ok a, W).

Definition raise {A} (e : Exn) : Py A := λ W, (Raise e, W).

Definition bind {A B} (c : Py A) (k : A → Py B) : Py B := λ W,
  match c W with
  | (Ok a, W') => k a W'
  | (Raise e, W') => (Raise e, W')
  end.

(** [try: body / except Exception as e: handler e] *)
Definition try_except {A} (body : Py A) (handler : Exn → Py A) : Py A := λ W,
  match body W with
  | (Ok a, W') => (Ok a, W')
  | (Raise e, W') => handler e W'
  end.

Definition lift {A} (o : Outcome A) : Py A := λ W, (o, W).

End Runtime.

Import Runtime.

Notation "'let!' x ':=' c 'in' k" := (bind c (λ x, k))
  (at level 10, x name, c at level 100, k at level 200).
Notation "c ';;' k" := (bind c (λ _, k))
  (at level 100, k at level 200, right associativity).

(** ** The operations the program performs on these objects *)

Module Ops.
Import Rolling.

(** [data[col]].  (A reference always points to a frame in a running
    program; the last branch is there to make the function total.) *)
Definition getitem (data : ref) (col : string) : Py Series := λ W,
  match frames W !! data with
  | Some df =>
      match df_columns df !! col with
      | Some s => (Ok s, W)
      | None => (Raise (KeyError col), W)
      end
  | None => (Raise (KeyError col), W)
  end.

(** [data[col] = s]: the object [data] refers to is updated in place; the
    column is replaced when it exists and added when it does not. *)
Definition setitem (data : ref) (col : string) (s : Series) : Py unit := λ W,
  match frames W !! data with
  | Some df =>
      (Ok (),
       {| frames := <[data := {| df_index := df_index df;
                                 df_columns := <[col := s]> (df_columns df) |}]>
                      (frames W);
          screen := screen W;
          entered := entered W |})
  | None => (Raise (KeyError col), W)
  end.

(** A new object, as a library call returns one. *)
Definition alloc (df : DataFrame) : Py ref := λ W,
  let r := fresh (dom (frames W)) in
  (Ok r, {| frames := <[r := df]> (frames W);
            screen := screen W;
            entered := entered W |}).

(** A Streamlit call that writes to the page. *)
Definition show (w : Widget) : Py unit := λ W,
  (Ok (), {| frames := frames W;
             screen := screen W ++ [w];
             entered := entered W |}).

(** Entering an analysis function (ghost). *)
Definition enter (fn : string) : Py unit := λ W,
  (Ok (), {| frames := frames W;
             screen := screen W;
             entered := entered W ++ [fn] |}).

(** [s.rolling(window=w)]: the window is validated when the object is
    built. *)
Record RollingObj := mkRolling {
  roll_values : Series;
  roll_window : nat
}.

Definition rolling (s : Series) (window : Z) : Py RollingObj :=
  if (window <? 0)%Z
  then raise (ValueError "window must be an integer 0 or greater")
  else ret {| roll_values := s; roll_window := Z.to_nat window |}.

(** Rolling aggregates work on float64 values: integers are converted,
    datetimes are refused. *)
Definition as_float (s : Series) : option (list cell) :=
  match s with
  | FloatSeries xs => Some xs
  | IntSeries ns => Some ((λ n, Some (IZR n)) <$> ns)
  | DatetimeSeries _ => None
  end.

Definition float_values (s : Series) : Py (list cell) :=
  match as_float s with
  | Some xs => ret xs
  | None => raise (DataError "No numeric types to aggregate")
  end.

(** [r.mean()] *)
Definition rolling_mean (r : RollingObj) : Py (list cell) :=
  let! xs := float_values (roll_values r) in
  ret (roll_mean (roll_window r) xs).

(** [r.std()] *)
Definition rolling_std (r : RollingObj) : Py (list cell) :=
  let! xs := float_values (roll_values r) in
  ret (roll_std (roll_window r) xs).

(** Arithmetic of two float columns over the same index, and of a float
    column and a number. *)
Definition series_add (a b : list cell) : list cell := zip_with cell_add a b.
Definition series_sub (a b : list cell) : list cell := zip_with cell_sub a b.
Definition series_scale (a : list cell) (k : R) : list cell := cell_scale k <$> a.

(** [data.reset_index(inplace=True)]: the index becomes a column, named
    after the index, and the rows are renumbered. *)
Definition reset_name (df : DataFrame) : string :=
  match df_index df with
  | LabelIndex (Some nm) _ => nm
  | _ => if decide (is_Some (df_columns df !! "index")) then "level_0" else "index"
  end.

Definition reset_index (data : ref) : Py unit := λ W,
  match frames W !! data with
  | Some df =>
      let nm := reset_name df in
      match df_columns df !! nm with
      | Some _ => (Raise (ValueError ("cannot insert " +:+ nm +:+ ", already exists")), W)
      | None =>
          (Ok (),
           {| frames := <[data := {| df_index := RangeIndex (index_len (df_index df));
                                     df_columns := <[nm := index_values (df_index df)]>
                                                     (df_columns df) |}]>
                          (frames W);
              screen := screen W;
              entered := entered W |})
      end
  | None => (Raise (KeyError "index"), W)
  end.

(** [data.empty] *)
Definition is_empty (data : ref) : Py bool := λ W,
  match frames W !! data with
  | Some df => (Ok (df_empty df), W)
  | None => (Raise (KeyError "empty"), W)
  end.

(** [data.tail(n)] builds a new object. *)
Definition tail (data : ref) (n : nat) : Py DataFrame := λ W,
  match frames W !! data with
  | Some df => (Ok (df_tail n df), W)
  | None => (Raise (KeyError "tail"), W)
  end.

End Ops.

(** ** The program *)

Module Dashboard.
Import Rolling Ops.

(** [f'SMA_{window}'] *)
Definition sma_name (window : Z) : string := "SMA_" +:+ pretty window.

(** [calculate_moving_averages(data, short_window=20, long_window=50)].
    The defaults are passed by the caller below. *)
Definition calculate_moving_averages (data : ref) (short_window long_window : Z)
  : Py ref :=
  enter "calculate_moving_averages" ;;
  let! close := getitem data "Close" in
  let! r := rolling close short_window in
  let! m := rolling_mean r in
  setitem data (sma_name short_window) (FloatSeries m) ;;
  let! close := getitem data "Close" in
  let! r := rolling close long_window in
  let! m := rolling_mean r in
  setitem data (sma_name long_window) (FloatSeries m) ;;
  ret data.

(** [calculate_bollinger_bands(data, window=20, num_std_dev=2)] *)
Definition calculate_bollinger_bands (data : ref) (window : Z) (num_std_dev : R)
  : Py ref :=
  enter "calculate_bollinger_bands" ;;
  let! close := getitem data "Close" in
  let! r := rolling close window in
  let! rolling_mean := rolling_mean r in
  let! close := getitem data "Close" in
  let! r := rolling close window in
  let! rolling_std := rolling_std r in
  setitem data "Bollinger_High"
    (FloatSeries (series_add rolling_mean (series_scale rolling_std num_std_dev))) ;;
  setitem data "Bollinger_Low"
    (FloatSeries (series_sub rolling_mean (series_scale rolling_std num_std_dev))) ;;
  ret data.

(** What the program takes from outside: the market data provider, the
    datetime parser and the state of the raw-data checkbox. *)
Section Host.

(** [yf.download(ticker, start=start, end=end)]: a frame or an error. *)
Variable yf_download : string → Z → Z → Outcome DataFrame.
(** [pd.to_datetime(column)] *)
Variable to_datetime : Series → Outcome Series.
(** [st.checkbox("Show Raw Data Table")] *)
Variable show_raw_data : bool.

(** [load_data(ticker, start, end)], one evaluation of the body (the
    memoising decorator of the host framework is left out). *)
Definition load_data (ticker : string) (start end_ : Z) : Py (option ref) :=
  try_except
    (let! df := lift (yf_download ticker start end_) in
     let! data := alloc df in
     let! empty := is_empty data in
     if empty then ret None
     else reset_index data ;; ret (Some data))
    (λ e,
       show (StError ("Error loading data for " +:+ ticker +:+ ": " +:+ exn_str e)) ;;
       ret None).

Definition scatter (data : ref) (x y name : string) : Py Scatter :=
  let! xs := getitem data x in
  let! ys := getitem data y in
  ret {| sc_x := xs; sc_y := ys; sc_name := name |}.

Definition no_data_warning : Widget :=
  StWarning "Could not load data. Please check the ticker symbol and date range.".

(** The main application logic, from the call of [load_data] on. *)
Definition main (ticker_symbol : string) (start_date end_date : Z) : Py unit :=
  let! data := load_data ticker_symbol start_date end_date in
  match data with
  | Some data =>
      let! date := getitem data "Date" in
      let! date := lift (to_datetime date) in
      setitem data "Date" date ;;
      let! data := calculate_moving_averages data 20 50 in
      let! data := calculate_bollinger_bands data 20 2 in
      show (StHeader ("Analysis for " +:+ ticker_symbol)) ;;
      show (StSubheader "Closing Price & Moving Averages") ;;
      let! t1 := scatter data "Date" "Close" "Close Price" in
      let! t2 := scatter data "Date" "SMA_20" "SMA 20" in
      let! t3 := scatter data "Date" "SMA_50" "SMA 50" in
      show (StPlotlyChart [t1; t2; t3]) ;;
      show (StSubheader "Bollinger Bands") ;;
      let! b1 := scatter data "Date" "Close" "Close Price" in
      let! b2 := scatter data "Date" "Bollinger_High" "Upper Band" in
      let! b3 := scatter data "Date" "Bollinger_Low" "Lower Band" in
      show (StPlotlyChart [b1; b2; b3]) ;;
      if show_raw_data then
        show (StSubheader "Historical Data") ;;
        let! last := tail data 100 in
        show (StDataframe last)
      else ret ()
  | None => show no_data_warning
  end.

End Host.

End Dashboard.

(** ** What a finished call leaves behind *)

Module Effects.
Import Rolling Ops Dashboard.

(** The frame [df] with its columns replaced. *)
Definition with_columns (df : DataFrame) (cols : gmap string Series) : DataFrame :=
  {| df_index := df_index df; df_columns := cols |}.

(** The world after a call that stored [df'] at [data] and logged [fn]. *)
Definition after_call (W : World) (data : ref) (df' : DataFrame) (fn : string)
  : World :=
  {| frames := <[data := df']> (frames W);
     screen := screen W;
     entered := entered W ++ [fn] |}.

Definition sma_columns (short long : Z) (xs : list (option R))
    (cols : gmap string Series) : gmap string Series :=
  <[sma_name long := FloatSeries (roll_mean (Z.to_nat long) xs)]>
    (<[sma_name short := FloatSeries (roll_mean (Z.to_nat short) xs)]> cols).

Definition bollinger_high (w : nat) (k : R) (xs : list (option R)) : list (option R) :=
  series_add (roll_mean w xs) (series_scale (roll_std w xs) k).

Definition bollinger_low (w : nat) (k : R) (xs : list (option R)) : list (option R) :=
  series_sub (roll_mean w xs) (series_scale (roll_std w xs) k).

Definition bollinger_columns (window : Z) (k : R) (xs : list (option R))
    (cols : gmap string Series) : gmap string Series :=
  <["Bollinger_Low" := FloatSeries (bollinger_low (Z.to_nat window) k xs)]>
    (<["Bollinger_High" := FloatSeries (bollinger_high (Z.to_nat window) k xs)]> cols).

(** Where the rolling standard deviation is a number: the window is full and
    has more than one observation. *)
Definition std_defined (w i : nat) : bool := (w - 1 <=? i) && (2 <=? w).

End Effects.

(** ** Reading a column back, and small frames to run the calculators on *)

Module Observe.
Import Rolling.



(** The column [col] of the frame a finished call returned. *)
Definition result_column (run : Outcome ref * World) (col : string)
  : option Series :=
  match run with
  | (Ok r, W') =>
      match frames W' !! r with
      | Some df => df_columns df !! col
      | None => None
      end
  | (Raise _, _) => None
  end.

(** The rows of [s'] are the last rows of [s], in the same order: [s] is some
    rows followed by the rows of [s'], of the same dtype. *)
Definition series_ends_with (s s' : Series) : Prop :=
  match s, s' with
  | FloatSeries xs, FloatSeries xs' => ∃ front, xs = front ++ xs'
  | IntSeries ns, IntSeries ns' => ∃ front, ns = front ++ ns'
  | DatetimeSeries ts, DatetimeSeries ts' => ∃ front, ts = front ++ ts'
  | _, _ => False
  end.

(** A frame holding only the closing prices [ps], and a world holding only
    that frame, at reference 1. *)
Definition frame_of_closes (ps : list R) : DataFrame :=
  {| df_index := RangeIndex (length ps);
     df_columns := {["Close" := FloatSeries (Some <$> ps)]} |}.

Definition world_of (df : DataFrame) : World :=
  {| frames := {[1%positive := df]}; screen := []; entered := [] |}.

(** The prices 4, 2, 6 in a frame that already carries other values under
    two of the names the calculators write to. *)
Definition frame_with_stale_prices : DataFrame :=
  {| df_index := RangeIndex 3;
     df_columns :=
       <["Bollinger_Low" := FloatSeries [Some 0%R; Some 0%R; Some 0%R]]>
         (<["SMA_2" := FloatSeries [Some 8%R; None; Some 8%R]]>
            {["Close" := FloatSeries (Some <$> [4; 2; 6]%R)]}) |}.

(** A one-row frame that already carries columns under the names the
    calculators write to. *)
Definition frame_with_stale_columns : DataFrame :=
  {| df_index := RangeIndex 1;
     df_columns :=
       <["Bollinger_High" := FloatSeries [Some 9%R]]>
         (<["SMA_20" := FloatSeries [Some 7%R]]>
            {["Close" := FloatSeries [Some 1%R]]}) |}.

End Observe.

(** ** Worlds the loader and a failed call leave behind *)

Module Outcomes.
Import Rolling Ops Dashboard Effects.

(** What [reset_index] makes of a frame: the rows are renumbered and the
    old index is kept as a column. *)
Definition loaded_frame (df : DataFrame) : DataFrame :=
  {| df_index := RangeIndex (index_len (df_index df));
     df_columns := <[reset_name df := index_values (df_index df)]> (df_columns df) |}.

(** The world after a library call stored the new frame [df]. *)
Definition with_new_frame (W : World) (df : DataFrame) : World :=
  {| frames := <[fresh (dom (frames W)) := df]> (frames W);
     screen := screen W;
     entered := entered W |}.

(** The world after the widgets [ws] were written to the page. *)
Definition with_shown (W : World) (ws : list Widget) : World :=
  {| frames := frames W; screen := screen W ++ ws; entered := entered W |}.

(** The world after [fn] was entered. *)
Definition with_entered (W : World) (fn : string) : World :=
  {| frames := frames W; screen := screen W; entered := entered W ++ [fn] |}.

(** The message [load_data] shows for the exception [e]. *)
Definition load_error (ticker : string) (e : Exn) : Widget :=
  StError ("Error loading data for " +:+ ticker +:+ ": " +:+ exn_str e).

(** The exception [reset_index] raises when the column [nm] is taken. *)
Definition cannot_insert (nm : string) : Exn :=
  ValueError ("cannot insert " +:+ nm +:+ ", already exists").

(** The exception [rolling] raises for a negative window. *)
Definition bad_window : Exn :=
  ValueError "window must be an integer 0 or greater".

(** The exception a rolling aggregate raises for a column that is not
    numeric. *)
Definition not_numeric : Exn := DataError "No numeric types to aggregate".

(** The frame the main logic has built when it starts drawing: the
    provider's columns, the parsed dates, the two default averages and the
    default bands. *)
Definition analysed_frame (df : DataFrame) (date : Series) (xs : list (option R))
  : DataFrame :=
  {| df_index := RangeIndex (index_len (df_index df));
     df_columns :=
       bollinger_columns 20 2 xs
         (sma_columns 20 50 xs (<["Date" := date]> (df_columns df))) |}.

(** What the main logic draws from it. *)
Definition analysis_page (ticker : string) (date close : Series)
    (xs : list (option R)) : list Widget :=
  [ StHeader ("Analysis for " +:+ ticker);
    StSubheader "Closing Price & Moving Averages";
    StPlotlyChart
      [ {| sc_x := date; sc_y := close; sc_name := "Close Price" |};
        {| sc_x := date; sc_y := FloatSeries (roll_mean 20 xs); sc_name := "SMA 20" |};
        {| sc_x := date; sc_y := FloatSeries (roll_mean 50 xs); sc_name := "SMA 50" |} ];
    StSubheader "Bollinger Bands";
    StPlotlyChart
      [ {| sc_x := date; sc_y := close; sc_name := "Close Price" |};
        {| sc_x := date; sc_y := FloatSeries (bollinger_high 20 2 xs);
           sc_name := "Upper Band" |};
        {| sc_x := date; sc_y := FloatSeries (bollinger_low 20 2 xs);
           sc_name := "Lower Band" |} ] ].

(** The raw-data table, when the box is ticked. *)
Definition raw_data_table (shown : bool) (df : DataFrame) : list Widget :=
  if shown then [StSubheader "Historical Data"; StDataframe (df_tail 100 df)]
  else [].

(** A frame as the provider returns it: rows labelled by date, one column
    of closing prices. *)
Definition quotes (dates : list Z) (closes : list R) : DataFrame :=
  {| df_index := LabelIndex (Some "Date") (DatetimeSeries dates);
     df_columns := {["Close" := FloatSeries (Some <$> closes)]} |}.

(** The same with the dates also present as a column. *)
Definition quotes_with_date_column (dates : list Z) (closes : list R) : DataFrame :=
  {| df_index := LabelIndex (Some "Date") (DatetimeSeries dates);
     df_columns := <["Date" := DatetimeSeries dates]>
                     {["Close" := FloatSeries (Some <$> closes)]} |}.

(** The same with an index that has no name. *)
Definition unnamed_quotes (dates : list Z) (closes : list R) : DataFrame :=
  {| df_index := LabelIndex None (DatetimeSeries dates);
     df_columns := {["Close" := FloatSeries (Some <$> closes)]} |}.

(** Rows labelled by date and one column that is not [Close]. *)
Definition quotes_without_close (dates : list Z) (opens : list R) : DataFrame :=
  {| df_index := LabelIndex (Some "Date") (DatetimeSeries dates);
     df_columns := {["Open" := FloatSeries (Some <$> opens)]} |}.

(** A frame holding only a [Close] column, with NaN where there is no
    price. *)
Definition frame_of_cells (xs : list (option R)) : DataFrame :=
  {| df_index := RangeIndex (length xs);
     df_columns := {["Close" := FloatSeries xs]} |}.

(** A frame whose rows are numbered and that has the dates as a column, as
    [load_data] returns it, with one more column [extra]. *)
Definition loaded_quotes (dates : list Z) (extra : string) (col : Series) : DataFrame :=
  {| df_index := RangeIndex (length dates);
     df_columns := <[extra := col]> {["Date" := DatetimeSeries dates]} |}.

End Outcomes.

(** ** The rolling kernels of pandas, over any arithmetic *)

Module Kernel.

(** The operations a kernel uses on its numbers. *)
Record Arith (T : Type) := mkArith {
  num_zero : T;
  num_nan : T;
  num_add : T → T → T;
  num_sub : T → T → T;
  num_mul : T → T → T;
  num_div : T → T → T;
  num_opp : T → T;
  num_sqrt : T → T;
  num_eqb : T → T → bool;
  num_ltb : T → T → bool;
  num_signbit : T → bool;
  num_is_inf : T → bool;
  num_of_count : Z → T
}.
Arguments num_zero {T}. Arguments num_nan {T}. Arguments num_add {T}.
Arguments num_sub {T}. Arguments num_mul {T}. Arguments num_div {T}.
Arguments num_opp {T}. Arguments num_sqrt {T}. Arguments num_eqb {T}.
Arguments num_ltb {T}. Arguments num_signbit {T}. Arguments num_is_inf {T}.
Arguments num_of_count {T}.

(** [values[a:b]] *)
Definition slice {X} (a b : nat) (l : list X) : list X := take (b - a) (drop a l).

(** The fixed window ending at row [i]: rows [start_of w i .. i]. *)
Definition start_of (w i : nat) : nat := i + 1 - w.

(** The cells of the window ending at row [i]. *)
Definition window_cells {X} (w : nat) (values : list X) (i : nat) : list X :=
  slice (start_of w i) (i + 1) values.

Section Sliding.
Context {T St : Type} (A : Arith T).
Variable setup : T → St.
Variable add remove : T → St → St.
Variable calc : St → T.

(** One row of the loop both kernels share: the first row, and any row
    whose window starts at or after the end of the one before, builds its
    state anew; every other row removes the values that left the window
    from the running state and adds the ones that entered. *)
Definition row (w : nat) (values : list T) (i : nat) (st : St) : St :=
  let s := start_of w i in
  if (i =? 0) || (i <=? s)
  then foldl (λ st v, add v st) (setup (nth s values (num_nan A))) (slice s (i + 1) values)
  else foldl (λ st v, add v st)
         (foldl (λ st v, remove v st) st (slice (start_of w (i - 1)) s values))
         (slice i (i + 1) values).

Fixpoint loop (w : nat) (values : list T) (rows : list nat) (st : St) : list T :=
  match rows with
  | [] => []
  | i :: rest =>
      let st' := row w values i st in
      calc st' :: loop w values rest st'
  end.

Definition sliding (w : nat) (values : list T) : list T :=
  loop w values (seq 0 (length values)) (setup (num_nan A)).

End Sliding.

Section Kernels.
Context {T : Type} (A : Arith T).

(** [_prep_values]: infinities are turned into NaN before the kernels see
    the column. *)
Definition prep_values (values : list T) : list T :=
  (λ v, if num_is_inf A v then num_nan A else v) <$> values.

(** State of [roll_mean]. *)
Record MeanState := mkMean {
  m_nobs : Z;
  m_neg_ct : Z;
  m_sum_x : T;
  m_compensation_add : T;
  m_compensation_remove : T;
  m_num_consecutive_same_value : Z;
  m_prev_value : T
}.

Definition mean_setup (prev_value : T) : MeanState :=
  {| m_nobs := 0; m_neg_ct := 0; m_sum_x := num_zero A;
     m_compensation_add := num_zero A; m_compensation_remove := num_zero A;
     m_num_consecutive_same_value := 0; m_prev_value := prev_value |}.

(** [add_mean]: Kahan summation; NaN is skipped. *)
Definition add_mean (val : T) (st : MeanState) : MeanState :=
  if num_eqb A val val then
    let y := num_sub A val (m_compensation_add st) in
    let t := num_add A (m_sum_x st) y in
    {| m_nobs := m_nobs st + 1;
       m_neg_ct := if num_signbit A val then m_neg_ct st + 1 else m_neg_ct st;
       m_sum_x := t;
       m_compensation_add := num_sub A (num_sub A t (m_sum_x st)) y;
       m_compensation_remove := m_compensation_remove st;
       m_num_consecutive_same_value :=
         if num_eqb A val (m_prev_value st)
         then m_num_consecutive_same_value st + 1 else 1;
       m_prev_value := val |}
  else st.

(** [remove_mean] *)
Definition remove_mean (val : T) (st : MeanState) : MeanState :=
  if num_eqb A val val then
    let y := num_sub A (num_opp A val) (m_compensation_remove st) in
    let t := num_add A (m_sum_x st) y in
    {| m_nobs := m_nobs st - 1;
       m_neg_ct := if num_signbit A val then m_neg_ct st - 1 else m_neg_ct st;
       m_sum_x := t;
       m_compensation_add := m_compensation_add st;
       m_compensation_remove := num_sub A (num_sub A t (m_sum_x st)) y;
       m_num_consecutive_same_value := m_num_consecutive_same_value st;
       m_prev_value := m_prev_value st |}
  else st.

(** [calc_mean] *)
Definition calc_mean (minp : Z) (st : MeanState) : T :=
  if (minp <=? m_nobs st)%Z && (0 <? m_nobs st)%Z then
    let result := num_div A (m_sum_x st) (num_of_count A (m_nobs st)) in
    if (m_nobs st <=? m_num_consecutive_same_value st)%Z then m_prev_value st
    else if (m_neg_ct st =? 0)%Z && num_ltb A result (num_zero A) then num_zero A
    else if (m_neg_ct st =? m_nobs st)%Z && num_ltb A (num_zero A) result then num_zero A
    else result
  else num_nan A.

(** [roll_mean(values, start, end, minp)] for the fixed window [w]. *)
Definition roll_mean (minp : Z) (w : nat) (values : list T) : list T :=
  sliding A mean_setup add_mean remove_mean (calc_mean minp) w values.

(** State of [roll_var]. *)
Record VarState := mkVar {
  v_nobs : Z;
  v_mean_x : T;
  v_ssqdm_x : T;
  v_compensation_add : T;
  v_compensation_remove : T
}.

Definition var_setup (_ : T) : VarState :=
  {| v_nobs := 0; v_mean_x := num_zero A; v_ssqdm_x := num_zero A;
     v_compensation_add := num_zero A; v_compensation_remove := num_zero A |}.

(** [add_var]: Welford's update with Kahan summation; NaN is skipped. *)
Definition add_var (val : T) (st : VarState) : VarState :=
  if num_eqb A val val then
    let nobs := (v_nobs st + 1)%Z in
    let prev_mean := num_sub A (v_mean_x st) (v_compensation_add st) in
    let y := num_sub A val (v_compensation_add st) in
    let t := num_sub A y (v_mean_x st) in
    let compensation := num_sub A (num_add A t (v_mean_x st)) y in
    let delta := t in
    let mean_x :=
      if (nobs =? 0)%Z then num_zero A
      else num_add A (v_mean_x st) (num_div A delta (num_of_count A nobs)) in
    {| v_nobs := nobs;
       v_mean_x := mean_x;
       v_ssqdm_x := num_add A (v_ssqdm_x st)
                      (num_mul A (num_sub A val prev_mean) (num_sub A val mean_x));
       v_compensation_add := compensation;
       v_compensation_remove := v_compensation_remove st |}
  else st.

(** [remove_var] *)
Definition remove_var (val : T) (st : VarState) : VarState :=
  if num_eqb A val val then
    let nobs := (v_nobs st - 1)%Z in
    if (nobs =? 0)%Z then
      {| v_nobs := nobs; v_mean_x := num_zero A; v_ssqdm_x := num_zero A;
         v_compensation_add := v_compensation_add st;
         v_compensation_remove := v_compensation_remove st |}
    else
      let prev_mean := num_sub A (v_mean_x st) (v_compensation_remove st) in
      let y := num_sub A val (v_compensation_remove st) in
      let t := num_sub A y (v_mean_x st) in
      let compensation := num_sub A (num_add A t (v_mean_x st)) y in
      let delta := t in
      let mean_x := num_sub A (v_mean_x st) (num_div A delta (num_of_count A nobs)) in
      {| v_nobs := nobs;
         v_mean_x := mean_x;
         v_ssqdm_x := num_sub A (v_ssqdm_x st)
                        (num_mul A (num_sub A val prev_mean) (num_sub A val mean_x));
         v_compensation_add := v_compensation_add st;
         v_compensation_remove := compensation |}
  else st.

(** [calc_var] *)
Definition calc_var (minp ddof : Z) (st : VarState) : T :=
  if (minp <=? v_nobs st)%Z && (ddof <? v_nobs st)%Z then
    if (v_nobs st =? 1)%Z then num_zero A
    else num_div A (v_ssqdm_x st)
           (num_sub A (num_of_count A (v_nobs st)) (num_of_count A ddof))
  else num_nan A.

(** [roll_var(values, start, end, minp, ddof)]; [minp] is raised to 1. *)
Definition roll_var (minp ddof : Z) (w : nat) (values : list T) : list T :=
  sliding A var_setup add_var remove_var (calc_var (Z.max minp 1) ddof) w values.

(** [zsqrt]: the square root, 0 where the argument is negative. *)
Definition zsqrt (x : T) : T :=
  if num_ltb A x (num_zero A) then num_zero A else num_sqrt A x.

(** [column.rolling(window=w).mean()] on a float64 column; [min_periods]
    is the window. *)
Definition rolling_mean (w : nat) (column : list T) : list T :=
  roll_mean (Z.of_nat w) w (prep_values column).

(** [column.rolling(window=w).std()], [ddof = 1]. *)
Definition rolling_std (w : nat) (column : list T) : list T :=
  zsqrt <$> roll_var (Z.of_nat w) 1 w (prep_values column).

(** The two columns [calculate_bollinger_bands] assigns. *)
Definition bollinger_high (w : nat) (num_std_dev : T) (close : list T) : list T :=
  zip_with (num_add A) (rolling_mean w close)
    ((λ s, num_mul A s num_std_dev) <$> rolling_std w close).

Definition bollinger_low (w : nat) (num_std_dev : T) (close : list T) : list T :=
  zip_with (num_sub A) (rolling_mean w close)
    ((λ s, num_mul A s num_std_dev) <$> rolling_std w close).

End Kernels.

(** IEEE 754 binary64, the arithmetic the program runs in. *)
Definition binary64 : Arith PrimFloat.float :=
  {| num_zero := PrimFloat.zero;
     num_nan := PrimFloat.nan;
     num_add := PrimFloat.add;
     num_sub := PrimFloat.sub;
     num_mul := PrimFloat.mul;
     num_div := PrimFloat.div;
     num_opp := PrimFloat.opp;
     num_sqrt := PrimFloat.sqrt;
     num_eqb := PrimFloat.eqb;
     num_ltb := PrimFloat.ltb;
     num_signbit := PrimFloat.get_sign;
     num_is_inf := PrimFloat.is_infinity;
     num_of_count := λ n, PrimFloat.of_uint63 (Uint63.of_Z n) |}.

(** The same operations on exact real numbers; [None] is NaN.  There is no
    rounding, no overflow and no infinity. *)
Definition lift2 (f : R → R → R) (a b : option R) : option R :=
  match a, b with
  | Some x, Some y => Some (f x y)
  | _, _ => None
  end.

Definition exact : Arith (option R) :=
  {| num_zero := Some 0%R;
     num_nan := None;
     num_add := lift2 Rplus;
     num_sub := lift2 Rminus;
     num_mul := lift2 Rmult;
     num_div := λ a b,
       match a, b with
       | Some x, Some y => if Req_dec_T y 0 then None else Some (x / y)%R
       | _, _ => None
       end;
     num_opp := λ a, match a with Some x => Some (- x)%R | None => None end;
     num_sqrt := λ a, match a with Some x => Some (sqrt x) | None => None end;
     num_eqb := λ a b,
       match a, b with
       | Some x, Some y => if Req_dec_T x y then true else false
       | _, _ => false
       end;
     num_ltb := λ a b,
       match a, b with
       | Some x, Some y => if Rlt_dec x y then true else false
       | _, _ => false
       end;
     num_signbit := λ a,
       match a with
       | Some x => if Rlt_dec x 0 then true else false
       | None => false
       end;
     num_is_inf := λ _, false;
     num_of_count := λ n, Some (IZR n) |}.

(** A value that is not NaN, and how many of a column are. *)
Definition is_number {T} (A : Arith T) (v : T) : bool := num_eqb A v v.

Definition numbers {T} (A : Arith T) (column : list T) : list T :=
  filter (λ v, Is_true (is_number A v)) column.

Definition count_numbers {T} (A : Arith T) (column : list T) : nat :=
  length (numbers A column).

(** The running [nobs] of a kernel is the count of numbers among the cells
    of its window. *)
Definition mean_counts {T} (A : Arith T) (cells : list T)
    (st : MeanState (T := T)) : Prop :=
  m_nobs st = Z.of_nat (count_numbers A cells).

Definition var_counts {T} (A : Arith T) (cells : list T)
    (st : VarState (T := T)) : Prop :=
  v_nobs st = Z.of_nat (count_numbers A cells).

(** The state of [roll_mean] also records the run of equal values that ends
    the window: whenever the last cells of the window are all the number
    [c], the previous value is [c] and [num_consecutive_same_value] is at
    least their count. *)
Definition mean_run {T} (A : Arith T) (cells : list T)
    (st : MeanState (T := T)) : Prop :=
  m_nobs st = Z.of_nat (count_numbers A cells) ∧
  (0 ≤ m_num_consecutive_same_value st)%Z ∧
  ∀ suf c, suf `suffix_of` cells → suf ≠ [] → Forall (λ v, v = c) suf →
           num_eqb A c c = true →
           m_prev_value st = c ∧
           (Z.of_nat (length suf) ≤ m_num_consecutive_same_value st)%Z.

End Kernel.

(** Sums used to describe the running state of the kernels. *)
Module Sums.





End Sums.

(** ** Rounding in binary64

    Closed forms of the rounding of [SpecFloat.binary_round], the
    specification of the primitive float operations: the shifts are taken
    at once, and a rounded number is named by its mantissa and exponent.
    They serve to compare two rounded results. *)

Module Shift.
Import SpecFloat.

(** [n >= 1] right shifts of a record at once. *)
Definition shift_by (n : Z) (mrs : shr_record) : shr_record :=
  {| shr_m := shr_m mrs / 2 ^ n;
     shr_r := Z.testbit (shr_m mrs) (n - 1);
     shr_s := shr_r mrs || shr_s mrs || negb (shr_m mrs mod 2 ^ (n - 1) =? 0)%Z |}.

(** The mantissa after [n >= 1] right shifts and rounding to nearest, ties
    to even. *)
Definition round_shift (M n : Z) : Z :=
  let mrs := shift_by n {| shr_m := M; shr_r := false; shr_s := false |} in
  round_nearest_even (shr_m mrs) (loc_of_shr_record mrs).

(** Whether the rounding goes up: the bits shifted out are more than half a
    unit, or exactly half and the quotient is odd. *)
Definition rounds_up (M n : Z) : bool :=
  (2 ^ (n - 1) <? M mod 2 ^ n)%Z
  || ((M mod 2 ^ n =? 2 ^ (n - 1))%Z && Z.odd (M / 2 ^ n)).

Section Keys.
Variable prec emax : Z.

(** Mantissa and exponent of [binary_round] before the overflow test: exact
    when the mantissa is short enough, otherwise shifted right and rounded,
    with one more shift when the rounding carried into a new digit. *)
Definition round_key (p : positive) (e : Z) : Z * Z :=
  let E := fexp prec emax (Z.pos (digits2_pos p) + e) in
  if (E <=? e)%Z then (Z.pos p * 2 ^ (e - E), E)%Z
  else
    let q := round_shift (Z.pos p) (E - e) in
    if (2 ^ prec <=? q)%Z then (q / 2, E + 1)%Z else (q, E).

Definition of_key (sx : bool) (k : Z * Z) : spec_float :=
  match fst k with
  | 0%Z => S754_zero sx
  | Z.pos m =>
      if (snd k <=? emax - prec)%Z then S754_finite sx m (snd k)
      else S754_infinity sx
  | Z.neg _ => S754_nan
  end.

(** The order of the keys of two roundings. *)
Definition key_le (k1 k2 : Z * Z) : Prop :=
  (0 <= fst k1 ∧ 0 <= fst k2)%Z ∧
  (fst k1 = 0%Z ∨
   (0 < fst k2)%Z ∧ (snd k1 < snd k2 ∨ snd k1 = snd k2 ∧ fst k1 <= fst k2)%Z).

End Keys.

End Shift.

(** Signs of a float, as the comparisons of the program see them. *)
Module Sign.
Import SpecFloat.

(** A float that is zero of either sign, positive, or plus infinity. *)
Definition SFnonneg (x : spec_float) : bool :=
  match x with
  | S754_zero _ => true
  | S754_finite s _ _ => negb s
  | S754_infinity s => negb s
  | S754_nan => false
  end.

Definition SFis_nan (x : spec_float) : bool :=
  match x with S754_nan => true | _ => false end.

End Sign.

(** ** Facts about slices and windows *)

Section RollingFacts.
Import Rolling.

Lemma length_roll_mean w xs : length (roll_mean w xs) = length xs.
Proof. unfold roll_mean. by rewrite length_fmap, length_seq. Qed.

Lemma length_roll_std w xs : length (roll_std w xs) = length xs.
Proof. unfold roll_std. by rewrite length_fmap, length_seq. Qed.

Lemma roll_mean_lookup w xs i :
  i < length xs →
  roll_mean w xs !! i = Some (calc_mean w (observations (window_at w i xs))).
Proof.
  intros Hi. unfold roll_mean.
  rewrite list_lookup_fmap, lookup_seq_lt by done. done.
Qed.

Lemma roll_std_lookup w xs i :
  i < length xs →
  roll_std w xs !! i = Some (calc_std w 1 (observations (window_at w i xs))).
Proof.
  intros Hi. unfold roll_std.
  rewrite list_lookup_fmap, lookup_seq_lt by done. done.
Qed.

Lemma observations_Some (ps : list R) : observations (Some <$> ps) = ps.
Proof.
  unfold observations. induction ps as [|p ps IH]; [done|].
  cbn. by rewrite IH.
Qed.

(** On a NaN-free column the window is a slice of the prices. *)
Lemma window_at_Some w i (ps : list R) :
  window_at w i (Some <$> ps) = Some <$> drop (i + 1 - w) (take (i + 1) ps).
Proof. unfold window_at. by rewrite <- fmap_take, <- fmap_drop. Qed.

Lemma slice_closes (ps : list R) lo hi :
  hi ≤ length ps →
  drop lo (take hi ps) = Textbook.closes ps lo (hi - lo).
Proof.
  intros Hhi. unfold Textbook.closes. apply list_eq. intros j.
  rewrite lookup_drop, list_lookup_fmap.
  destruct (decide (j < hi - lo)) as [Hj|Hj].
  - rewrite lookup_take_lt by lia. rewrite lookup_seq_lt by done. cbn.
    destruct (lookup_lt_is_Some_2 ps (lo + j)) as [x Hx]; [lia|].
    rewrite Hx. f_equal. symmetry. by apply nth_lookup_Some with (d := 0%R).
  - rewrite lookup_take_ge by lia.
    rewrite lookup_seq_ge by lia. done.
Qed.

Lemma length_closes ps lo len : length (Textbook.closes ps lo len) = len.
Proof. unfold Textbook.closes. by rewrite length_fmap, length_seq. Qed.

(** Full window: positions [w - 1 ..]. *)
Lemma observations_full w i (ps : list R) :
  1 ≤ w → w - 1 ≤ i → i < length ps →
  observations (window_at w i (Some <$> ps)) = Textbook.closes ps (i + 1 - w) w.
Proof.
  intros Hw Hlo Hi. rewrite window_at_Some, observations_Some.
  rewrite slice_closes by lia. f_equal. lia.
Qed.

(** Short window: positions before [w - 1]. *)
Lemma observations_short w i (ps : list R) :
  i < w - 1 → length (observations (window_at w i (Some <$> ps))) < w.
Proof.
  intros Hi. rewrite window_at_Some, observations_Some.
  rewrite length_drop, length_take. lia.
Qed.

End RollingFacts.

(** ** Running the calculators *)

Section Runs.
Import Rolling Ops Dashboard Effects.

Lemma sma_name_not_close w : sma_name w ≠ "Close".
Proof. unfold sma_name. cbn. discriminate. Qed.

Lemma sma_name_inj a b : sma_name a = sma_name b → a = b.
Proof.
  unfold sma_name. intros H. cbn in H. injection H as H.
  by apply (inj pretty).
Qed.

Lemma calculate_moving_averages_run W data df s xs short long :
  frames W !! data = Some df →
  df_columns df !! "Close" = Some s →
  as_float s = Some xs →
  (0 ≤ short)%Z → (0 ≤ long)%Z →
  calculate_moving_averages data short long W =
    (Ok data,
     after_call W data (with_columns df (sma_columns short long xs (df_columns df)))
       "calculate_moving_averages").
Proof.
  intros Hdf Hclose Hfl Hs Hl.
  unfold calculate_moving_averages, bind, enter, getitem, rolling, setitem,
    rolling_mean, float_values, bind, ret. cbn.
  rewrite Hdf, Hclose.
  destruct (Z.ltb_spec short 0) as [?|_]; [lia|]. cbn. rewrite Hfl. cbn.
  rewrite Hdf. cbn. rewrite lookup_insert_eq. cbn.
  rewrite lookup_insert_ne by apply sma_name_not_close. rewrite Hclose.
  destruct (Z.ltb_spec long 0) as [?|_]; [lia|]. cbn. rewrite Hfl. cbn.
  rewrite lookup_insert_eq. cbn. rewrite insert_insert_eq. done.
Qed.

Lemma calculate_bollinger_bands_run W data df s xs window k :
  frames W !! data = Some df →
  df_columns df !! "Close" = Some s →
  as_float s = Some xs →
  (0 ≤ window)%Z →
  calculate_bollinger_bands data window k W =
    (Ok data,
     after_call W data (with_columns df (bollinger_columns window k xs (df_columns df)))
       "calculate_bollinger_bands").
Proof.
  intros Hdf Hclose Hfl Hw.
  unfold calculate_bollinger_bands, bind, enter, getitem, rolling, setitem,
    rolling_mean, rolling_std, float_values, bind, ret. cbn.
  rewrite Hdf, Hclose.
  destruct (Z.ltb_spec window 0) as [?|_]; [lia|]. cbn. rewrite Hfl. cbn.
  rewrite Hdf, Hclose. cbn.
  destruct (Z.ltb_spec window 0) as [?|_]; [lia|]. cbn. rewrite Hfl. cbn.
  rewrite Hdf. cbn. rewrite lookup_insert_eq. cbn. rewrite insert_insert_eq. done.
Qed.

End Runs.

(** ** The rolling aggregates against the textbook definitions *)

Section Refinement.
Import Rolling Effects.

Lemma calc_mean_sma w (ps : list R) i :
  1 ≤ w → i < length ps →
  calc_mean w (observations (window_at w i (Some <$> ps))) = Textbook.sma w ps i.
Proof.
  intros Hw Hi. unfold calc_mean, Textbook.sma.
  destruct (Nat.ltb_spec i (w - 1)) as [Hlt|Hge].
  - pose proof (observations_short w i ps Hlt) as Hshort.
    destruct (Nat.leb_spec w (length (observations (window_at w i (Some <$> ps)))));
      [lia|done].
  - rewrite observations_full by done.
    rewrite length_closes.
    destruct (Nat.leb_spec w w); [|lia].
    destruct (Nat.ltb_spec 0 w); [|lia]. cbn.
    unfold mean_of, Textbook.trailing_mean. by rewrite length_closes.
Qed.

Lemma calc_std_sample w (ps : list R) i :
  1 ≤ w → i < length ps →
  calc_std w 1 (observations (window_at w i (Some <$> ps))) =
    if std_defined w i then Some (Textbook.trailing_sample_std w ps i) else None.
Proof.
  intros Hw Hi. unfold calc_std, std_defined.
  destruct (Nat.leb_spec (w - 1) i) as [Hge|Hlt].
  - rewrite observations_full by done.
    rewrite length_closes.
    destruct (Nat.leb_spec w w); [|lia]. cbn [andb].
    destruct (Nat.ltb_spec 1 w), (Nat.leb_spec 2 w); try lia; [|done].
    unfold var_of, ssqdm, mean_of, Textbook.trailing_sample_std,
      Textbook.trailing_mean.
    rewrite length_closes. done.
  - pose proof (observations_short w i ps Hlt) as Hshort.
    destruct (Nat.leb_spec w (length (observations (window_at w i (Some <$> ps)))));
      [lia|done].
Qed.

(** The rolling mean of a NaN-free column is the trailing simple moving
    average. *)
Lemma roll_mean_sma w (ps : list R) :
  1 ≤ w →
  roll_mean w (Some <$> ps) = Textbook.sma w ps <$> seq 0 (length ps).
Proof.
  intros Hw. apply list_eq. intros i.
  destruct (decide (i < length ps)) as [Hi|Hi].
  - rewrite roll_mean_lookup by (by rewrite length_fmap).
    rewrite list_lookup_fmap, lookup_seq_lt by done. cbn.
    by rewrite calc_mean_sma.
  - rewrite lookup_ge_None_2 by (rewrite length_roll_mean, length_fmap; lia).
    rewrite lookup_ge_None_2 by (rewrite length_fmap, length_seq; lia). done.
Qed.

Lemma roll_std_sample w (ps : list R) :
  1 ≤ w →
  roll_std w (Some <$> ps) =
    (λ i, if std_defined w i then Some (Textbook.trailing_sample_std w ps i)
          else None) <$> seq 0 (length ps).
Proof.
  intros Hw. apply list_eq. intros i.
  destruct (decide (i < length ps)) as [Hi|Hi].
  - rewrite roll_std_lookup by (by rewrite length_fmap).
    rewrite list_lookup_fmap, lookup_seq_lt by done. cbn.
    by rewrite calc_std_sample.
  - rewrite lookup_ge_None_2 by (rewrite length_roll_std, length_fmap; lia).
    rewrite lookup_ge_None_2 by (rewrite length_fmap, length_seq; lia). done.
Qed.

(** A window of one cell is that cell. *)
Lemma window_at_1 i (xs : list (option R)) c :
  xs !! i = Some c → window_at 1 i xs = [c].
Proof.
  intros Hc. unfold window_at. replace (i + 1 - 1) with i by lia.
  apply list_eq. intros j. rewrite lookup_drop.
  destruct j as [|j].
  - rewrite Nat.add_0_r, lookup_take_lt by lia. done.
  - rewrite lookup_take_ge by lia. done.
Qed.

Lemma roll_mean_1 (xs : list (option R)) : roll_mean 1 xs = xs.
Proof.
  apply list_eq. intros i.
  destruct (decide (i < length xs)) as [Hi|Hi].
  - rewrite roll_mean_lookup by done.
    destruct (lookup_lt_is_Some_2 xs i Hi) as [c Hc].
    rewrite (window_at_1 i xs c Hc), Hc. f_equal.
    destruct c as [x|]; [|done].
    unfold calc_mean, mean_of. cbn. f_equal. field.
  - rewrite !lookup_ge_None_2; [done|lia|rewrite length_roll_mean; lia].
Qed.

Lemma roll_std_1 (xs : list (option R)) :
  roll_std 1 xs = replicate (length xs) None.
Proof.
  apply list_eq. intros i.
  destruct (decide (i < length xs)) as [Hi|Hi].
  - rewrite roll_std_lookup by done.
    rewrite lookup_replicate_2 by done.
    destruct (lookup_lt_is_Some_2 xs i Hi) as [c Hc].
    rewrite (window_at_1 i xs c Hc). by destruct c.
  - rewrite !lookup_ge_None_2; [done|rewrite length_replicate; lia
                               |rewrite length_roll_std; lia].
Qed.

End Refinement.

Section Counting.
Import Rolling Observe.



End Counting.

(** ** Columns of the frame after a call *)

Section Columns.
Import Rolling Ops Dashboard Effects Observe.

Lemma sma_columns_lookup short long xs cols w :
  w = short ∨ w = long →
  sma_columns short long xs cols !! sma_name w =
    Some (FloatSeries (roll_mean (Z.to_nat w) xs)).
Proof.
  unfold sma_columns. intros [->| ->]; [|by rewrite lookup_insert_eq].
  destruct (decide (short = long)) as [->|Hne]; [by rewrite lookup_insert_eq|].
  rewrite lookup_insert_ne by (intros H; apply sma_name_inj in H; congruence).
  by rewrite lookup_insert_eq.
Qed.

Lemma sma_columns_other short long xs cols c :
  c ≠ sma_name short → c ≠ sma_name long →
  sma_columns short long xs cols !! c = cols !! c.
Proof.
  intros H1 H2. unfold sma_columns. by rewrite !lookup_insert_ne.
Qed.

Lemma bollinger_columns_high w k xs cols :
  bollinger_columns w k xs cols !! "Bollinger_High" =
    Some (FloatSeries (bollinger_high (Z.to_nat w) k xs)).
Proof.
  unfold bollinger_columns.
  rewrite lookup_insert_ne by discriminate. by rewrite lookup_insert_eq.
Qed.

Lemma bollinger_columns_low w k xs cols :
  bollinger_columns w k xs cols !! "Bollinger_Low" =
    Some (FloatSeries (bollinger_low (Z.to_nat w) k xs)).
Proof. unfold bollinger_columns. by rewrite lookup_insert_eq. Qed.

Lemma bollinger_columns_other w k xs cols c :
  c ≠ "Bollinger_High" → c ≠ "Bollinger_Low" →
  bollinger_columns w k xs cols !! c = cols !! c.
Proof.
  intros H1 H2. unfold bollinger_columns. by rewrite !lookup_insert_ne.
Qed.

Lemma after_call_frame W data df' fn :
  frames (after_call W data df' fn) !! data = Some df'.
Proof. unfold after_call. cbn. by rewrite lookup_insert_eq. Qed.

Lemma world_of_frame df : frames (world_of df) !! 1%positive = Some df.
Proof. unfold world_of. cbn. by rewrite lookup_singleton_eq. Qed.

Lemma frame_of_closes_close ps :
  df_columns (frame_of_closes ps) !! "Close" = Some (FloatSeries (Some <$> ps)).
Proof. unfold frame_of_closes. cbn. by rewrite lookup_singleton_eq. Qed.

(** The SMA column of a run on the one-frame world of the prices [ps]. *)
Lemma sma_of_closes ps short long w :
  (0 ≤ short)%Z → (0 ≤ long)%Z → w = short ∨ w = long →
  result_column
    (calculate_moving_averages 1 short long (world_of (frame_of_closes ps)))
    (sma_name w) =
  Some (FloatSeries (roll_mean (Z.to_nat w) (Some <$> ps))).
Proof.
  intros Hs Hl Hw.
  rewrite (calculate_moving_averages_run _ _ (frame_of_closes ps)
             (FloatSeries (Some <$> ps)) (Some <$> ps))
    by (done || apply world_of_frame || apply frame_of_closes_close).
  unfold result_column. rewrite after_call_frame. cbn.
  by apply sma_columns_lookup.
Qed.


End Columns.

(** ** The moving average calculator *)

Section MovingAverages.
Import Rolling Ops Dashboard Effects Observe.

(** C5.  A window of 1 reproduces the closing prices: whichever of the two
    windows is 1, the column [SMA_1] the calculator writes is the [Close]
    column itself, position by position (a NaN close stays NaN). *)
Theorem C5_sma_window_one
    (W : World) (data : ref) (df : DataFrame) (xs : list (option R))
    (short long : Z) :
  frames W !! data = Some df →
  df_columns df !! "Close" = Some (FloatSeries xs) →
  (0 ≤ short)%Z → (0 ≤ long)%Z →
  short = 1%Z ∨ long = 1%Z →
  ∃ W' df',
    calculate_moving_averages data short long W = (Ok data, W') ∧
    frames W' !! data = Some df' ∧
    df_columns df' !! sma_name 1 = Some (FloatSeries xs) ∧
    df_columns df' !! "Close" = Some (FloatSeries xs).
Proof.
  intros Hdf Hclose Hs Hl H1.
  eexists _, _. split; [|split; [|split]].
  - by apply (calculate_moving_averages_run W data df (FloatSeries xs) xs).
  - apply after_call_frame.
  - cbn. rewrite (sma_columns_lookup short long xs _ 1)
      by (destruct H1; auto).
    change (Z.to_nat 1) with 1. by rewrite roll_mean_1.
  - cbn. rewrite sma_columns_other by (apply not_eq_sym, sma_name_not_close).
    done.
Qed.

Lemma C5_witness :
  ∃ W' df',
    calculate_moving_averages 1 1 3 (world_of (frame_of_closes [4; 2; 6]%R))
      = (Ok 1%positive, W') ∧
    frames W' !! 1%positive = Some df' ∧
    df_columns df' !! sma_name 1 = Some (FloatSeries (Some <$> [4; 2; 6]%R)) ∧
    df_columns df' !! "Close" = Some (FloatSeries (Some <$> [4; 2; 6]%R)).
Proof.
  apply (C5_sma_window_one
           (world_of (frame_of_closes [4; 2; 6]%R)) 1%positive
           (frame_of_closes [4; 2; 6]%R) (Some <$> [4; 2; 6]%R) 1%Z 3%Z).
  - reflexivity.
  - reflexivity.
  - lia.
  - lia.
  - left. reflexivity.
Defined.

End MovingAverages.

(** ** The Bollinger band calculator *)



Section Bollinger.
Import Rolling Ops Dashboard Effects Observe.

Lemma length_bollinger_high w k xs : length (bollinger_high w k xs) = length xs.
Proof.
  unfold bollinger_high, series_add, series_scale.
  rewrite length_zip_with, length_fmap, length_roll_mean, length_roll_std. lia.
Qed.

Lemma length_bollinger_low w k xs : length (bollinger_low w k xs) = length xs.
Proof.
  unfold bollinger_low, series_sub, series_scale.
  rewrite length_zip_with, length_fmap, length_roll_mean, length_roll_std. lia.
Qed.

Lemma bollinger_high_lookup w k xs i m s :
  roll_mean w xs !! i = Some m → roll_std w xs !! i = Some s →
  bollinger_high w k xs !! i = Some (cell_add m (cell_scale k s)).
Proof.
  intros Hm Hs. unfold bollinger_high, series_add, series_scale.
  rewrite lookup_zip_with, Hm, list_lookup_fmap, Hs. done.
Qed.

Lemma bollinger_low_lookup w k xs i m s :
  roll_mean w xs !! i = Some m → roll_std w xs !! i = Some s →
  bollinger_low w k xs !! i = Some (cell_sub m (cell_scale k s)).
Proof.
  intros Hm Hs. unfold bollinger_low, series_sub, series_scale.
  rewrite lookup_zip_with, Hm, list_lookup_fmap, Hs. done.
Qed.

(** The bands of a NaN-free column, position by position. *)
Lemma bollinger_textbook w k (ps : list R) i :
  1 ≤ w → i < length ps →
  bollinger_high w k (Some <$> ps) !! i =
    Some (if std_defined w i
          then Some (Textbook.trailing_mean w ps i
                     + k * Textbook.trailing_sample_std w ps i)%R
          else None) ∧
  bollinger_low w k (Some <$> ps) !! i =
    Some (if std_defined w i
          then Some (Textbook.trailing_mean w ps i
                     - k * Textbook.trailing_sample_std w ps i)%R
          else None).
Proof.
  intros Hw Hi.
  assert (roll_mean w (Some <$> ps) !! i = Some (Textbook.sma w ps i)) as Hm.
  { rewrite roll_mean_sma by done. by rewrite list_lookup_fmap, lookup_seq_lt. }
  assert (roll_std w (Some <$> ps) !! i =
            Some (if std_defined w i
                  then Some (Textbook.trailing_sample_std w ps i) else None)) as Hs.
  { rewrite roll_std_sample by done. by rewrite list_lookup_fmap, lookup_seq_lt. }
  rewrite (bollinger_high_lookup _ _ _ _ _ _ Hm Hs),
          (bollinger_low_lookup _ _ _ _ _ _ Hm Hs).
  unfold Textbook.sma, std_defined.
  destruct (Nat.ltb_spec i (w - 1)), (Nat.leb_spec (w - 1) i); try lia;
    destruct (2 <=? w); cbn; split; try done; do 2 f_equal; ring.
Qed.

Lemma roll_std_nonneg w xs i (σ : R) :
  roll_std w xs !! i = Some (Some σ) → (0 <= σ)%R.
Proof.
  intros H. pose proof (lookup_lt_Some _ _ _ H) as Hi.
  rewrite length_roll_std in Hi. rewrite roll_std_lookup in H by done.
  injection H as H. unfold calc_std in H.
  destruct (_ && _); [|done]. injection H as <-. apply sqrt_pos.
Qed.

(** Where both bands hold a number, they are the rolling mean plus and minus
    the multiplier times the rolling standard deviation. *)
Lemma bands_inv w k xs i (u l : R) :
  bollinger_high w k xs !! i = Some (Some u) →
  bollinger_low w k xs !! i = Some (Some l) →
  ∃ μ σ : R, roll_mean w xs !! i = Some (Some μ) ∧
         roll_std w xs !! i = Some (Some σ) ∧
         (0 <= σ)%R ∧ u = (μ + σ * k)%R ∧ l = (μ - σ * k)%R.
Proof.
  intros Hu Hl. pose proof (lookup_lt_Some _ _ _ Hu) as Hi.
  rewrite length_bollinger_high in Hi.
  pose proof (roll_mean_lookup w xs i Hi) as Hm.
  pose proof (roll_std_lookup w xs i Hi) as Hs.
  rewrite (bollinger_high_lookup _ _ _ _ _ _ Hm Hs) in Hu.
  rewrite (bollinger_low_lookup _ _ _ _ _ _ Hm Hs) in Hl.
  destruct (calc_mean w _) as [μ|]; [|done].
  destruct (calc_std w 1 _) as [σ|] eqn:Hσ; [|done].
  cbn in Hu, Hl. exists μ, σ. repeat split; try congruence.
  apply (roll_std_nonneg w xs i). by rewrite Hs.
Qed.

(** With a window of 1 both bands are NaN everywhere. *)
Lemma bollinger_window_1 k xs :
  bollinger_high 1 k xs = replicate (length xs) None ∧
  bollinger_low 1 k xs = replicate (length xs) None.
Proof.
  split; apply list_eq; intros i;
    (destruct (decide (i < length xs)) as [Hi|Hi];
     [ rewrite lookup_replicate_2 by done
     | rewrite !lookup_ge_None_2;
         [done | rewrite length_replicate; lia
               | rewrite ?length_bollinger_high, ?length_bollinger_low; lia] ]).
  - rewrite (bollinger_high_lookup 1 k xs i _ None (roll_mean_lookup 1 xs i Hi)).
    + by destruct (calc_mean _ _).
    + rewrite roll_std_1. by apply lookup_replicate_2.
  - rewrite (bollinger_low_lookup 1 k xs i _ None (roll_mean_lookup 1 xs i Hi)).
    + by destruct (calc_mean _ _).
    + rewrite roll_std_1. by apply lookup_replicate_2.
Qed.

Lemma bollinger_textbook_columns w k (ps : list R) :
  1 ≤ w →
  bollinger_high w k (Some <$> ps) =
    (λ i, if std_defined w i
          then Some (Textbook.trailing_mean w ps i
                     + k * Textbook.trailing_sample_std w ps i)%R
          else None) <$> seq 0 (length ps) ∧
  bollinger_low w k (Some <$> ps) =
    (λ i, if std_defined w i
          then Some (Textbook.trailing_mean w ps i
                     - k * Textbook.trailing_sample_std w ps i)%R
          else None) <$> seq 0 (length ps).
Proof.
  intros Hw. split; apply list_eq; intros i;
    (destruct (decide (i < length ps)) as [Hi|Hi];
     [ destruct (bollinger_textbook w k ps i Hw Hi) as [Hu Hl];
       rewrite ?Hu, ?Hl, list_lookup_fmap, lookup_seq_lt by done; done
     | rewrite !lookup_ge_None_2;
         [ done
         | rewrite length_fmap, length_seq; lia
         | rewrite ?length_bollinger_high, ?length_bollinger_low, length_fmap;
           lia ] ]).
Qed.

(** C9.  With a window of 1 both band columns are NaN at every position,
    whatever the closing prices and the multiplier, although the rolling
    mean over the same window is the closing price itself at every
    position. *)
Theorem C9_bands_window_one
    (W : World) (data : ref) (df : DataFrame) (xs : list (option R)) (k : R) :
  frames W !! data = Some df →
  df_columns df !! "Close" = Some (FloatSeries xs) →
  ∃ W' df',
    calculate_bollinger_bands data 1 k W = (Ok data, W') ∧
    frames W' !! data = Some df' ∧
    df_columns df' !! "Bollinger_High" =
      Some (FloatSeries (replicate (length xs) None)) ∧
    df_columns df' !! "Bollinger_Low" =
      Some (FloatSeries (replicate (length xs) None)) ∧
    roll_mean 1 xs = xs ∧
    roll_std 1 xs = replicate (length xs) None.
Proof.
  intros Hdf Hclose.
  destruct (bollinger_window_1 k xs) as [Hu Hl].
  eexists _, _. split; [|split; [|split; [|split; [|split]]]].
  - by apply (calculate_bollinger_bands_run W data df (FloatSeries xs) xs).
  - apply after_call_frame.
  - cbn. rewrite bollinger_columns_high. change (Z.to_nat 1) with 1.
    by rewrite Hu.
  - cbn. rewrite bollinger_columns_low. change (Z.to_nat 1) with 1.
    by rewrite Hl.
  - apply roll_mean_1.
  - apply roll_std_1.
Qed.

Lemma C9_witness :
  ∃ W' df',
    calculate_bollinger_bands 1 1 2 (world_of (frame_of_closes [4; 2; 6]%R))
      = (Ok 1%positive, W') ∧
    frames W' !! 1%positive = Some df' ∧
    df_columns df' !! "Bollinger_High" = Some (FloatSeries (replicate 3 None)) ∧
    df_columns df' !! "Bollinger_Low" = Some (FloatSeries (replicate 3 None)) ∧
    roll_mean 1 (Some <$> [4; 2; 6]%R) = Some <$> [4; 2; 6]%R ∧
    roll_std 1 (Some <$> [4; 2; 6]%R) = replicate 3 None.
Proof.
  assert (frames (world_of (frame_of_closes [4; 2; 6]%R)) !! 1%positive
          = Some (frame_of_closes [4; 2; 6]%R)) as Hdf by reflexivity.
  assert (df_columns (frame_of_closes [4; 2; 6]%R) !! "Close"
          = Some (FloatSeries (Some <$> [4; 2; 6]%R))) as Hclose by reflexivity.
  exact (C9_bands_window_one _ _ _ _ 2%R Hdf Hclose).
Defined.


End Bollinger.

(** ** What the calculators read and what they write *)

Section Frame.
Import Rolling Ops Dashboard Effects Observe.

Lemma sma_name_not_date w : sma_name w ≠ "Date".
Proof. unfold sma_name. cbn. discriminate. Qed.

Lemma sma_columns_idem short long xs cols :
  sma_columns short long xs (sma_columns short long xs cols) =
    sma_columns short long xs cols.
Proof.
  apply map_eq. intros c.
  destruct (decide (c = sma_name long)) as [->|Hl].
  { by rewrite !(sma_columns_lookup short long xs _ long) by auto. }
  destruct (decide (c = sma_name short)) as [->|Hs].
  { by rewrite !(sma_columns_lookup short long xs _ short) by auto. }
  by rewrite !sma_columns_other.
Qed.

Lemma bollinger_columns_idem w k xs cols :
  bollinger_columns w k xs (bollinger_columns w k xs cols) =
    bollinger_columns w k xs cols.
Proof.
  apply map_eq. intros c.
  destruct (decide (c = "Bollinger_High")) as [->|Hh].
  { by rewrite !bollinger_columns_high. }
  destruct (decide (c = "Bollinger_Low")) as [->|Hl].
  { by rewrite !bollinger_columns_low. }
  by rewrite !bollinger_columns_other.
Qed.

(** C6.  Each calculator reads only the [Close] column of the frame it is
    given and leaves the price series alone.  Run on a frame of any world,
    it returns that frame; the [Close] and [Date] columns are what they
    were; the page and every other frame are untouched; and the derived
    columns are the same as those obtained from any other frame, in any
    other world, that has the same [Close] column: nothing but the prices
    and the window parameters enters them.  The derived columns are attached
    to the frame that was passed in. *)
Theorem C6_price_series_read_only
    (W V : World) (data other : ref) (df dg : DataFrame) (s : Series)
    (xs : list (option R)) (short long window : Z) (k : R) :
  frames W !! data = Some df →
  frames V !! other = Some dg →
  df_columns df !! "Close" = Some s →
  df_columns dg !! "Close" = Some s →
  as_float s = Some xs →
  (0 ≤ short)%Z → (0 ≤ long)%Z → (0 ≤ window)%Z →
  ∃ W1 W2,
    calculate_moving_averages data short long W = (Ok data, W1) ∧
    calculate_bollinger_bands data window k W = (Ok data, W2) ∧
    (result_column (Ok data, W1) "Close" = Some s ∧
     result_column (Ok data, W2) "Close" = Some s ∧
     result_column (Ok data, W1) "Date" = df_columns df !! "Date" ∧
     result_column (Ok data, W2) "Date" = df_columns df !! "Date") ∧
    (screen W1 = screen W ∧ screen W2 = screen W ∧
     ∀ r, r ≠ data →
       frames W1 !! r = frames W !! r ∧ frames W2 !! r = frames W !! r) ∧
    (∀ w, w = short ∨ w = long →
       result_column (Ok data, W1) (sma_name w) =
         Some (FloatSeries (roll_mean (Z.to_nat w) xs)) ∧
       result_column (calculate_moving_averages other short long V) (sma_name w) =
         result_column (Ok data, W1) (sma_name w)) ∧
    (∀ c, c = "Bollinger_High" ∨ c = "Bollinger_Low" →
       is_Some (result_column (Ok data, W2) c) ∧
       result_column (calculate_bollinger_bands other window k V) c =
         result_column (Ok data, W2) c).
Proof.
  intros Hdf Hdg Hclose Hclose' Hfl Hs Hl Hw.
  eexists _, _. split; [|split].
  { by apply (calculate_moving_averages_run W data df s xs). }
  { by apply (calculate_bollinger_bands_run W data df s xs). }
  rewrite (calculate_moving_averages_run V other dg s xs) by done.
  rewrite (calculate_bollinger_bands_run V other dg s xs) by done.
  unfold result_column. rewrite !after_call_frame. cbn.
  split; [|split; [|split]].
  - rewrite !sma_columns_other
      by (apply not_eq_sym; (apply sma_name_not_close || apply sma_name_not_date)).
    by rewrite !bollinger_columns_other by discriminate.
  - split; [done|]. split; [done|]. intros r Hr.
    by rewrite !lookup_insert_ne.
  - intros w Hw'. by rewrite !sma_columns_lookup.
  - intros c [->| ->].
    + by rewrite !bollinger_columns_high.
    + by rewrite !bollinger_columns_low.
Qed.

Lemma C6_witness :
  ∃ W1 W2,
    calculate_moving_averages 1 2 3 (world_of (frame_of_closes [4; 2; 6]%R))
      = (Ok 1%positive, W1) ∧
    calculate_bollinger_bands 1 2 2 (world_of (frame_of_closes [4; 2; 6]%R))
      = (Ok 1%positive, W2) ∧
    (result_column (Ok 1%positive, W1) "Close"
       = Some (FloatSeries (Some <$> [4; 2; 6]%R)) ∧
     result_column (Ok 1%positive, W2) "Close"
       = Some (FloatSeries (Some <$> [4; 2; 6]%R)) ∧
     result_column (Ok 1%positive, W1) "Date"
       = df_columns (frame_of_closes [4; 2; 6]%R) !! "Date" ∧
     result_column (Ok 1%positive, W2) "Date"
       = df_columns (frame_of_closes [4; 2; 6]%R) !! "Date") ∧
    (screen W1 = [] ∧ screen W2 = [] ∧
     ∀ r, r ≠ 1%positive →
       frames W1 !! r = frames (world_of (frame_of_closes [4; 2; 6]%R)) !! r ∧
       frames W2 !! r = frames (world_of (frame_of_closes [4; 2; 6]%R)) !! r) ∧
    (∀ w, w = 2%Z ∨ w = 3%Z →
       result_column (Ok 1%positive, W1) (sma_name w) =
         Some (FloatSeries (roll_mean (Z.to_nat w) (Some <$> [4; 2; 6]%R))) ∧
       result_column
         (calculate_moving_averages 1 2 3 (world_of frame_with_stale_prices))
         (sma_name w) =
         result_column (Ok 1%positive, W1) (sma_name w)) ∧
    (∀ c, c = "Bollinger_High" ∨ c = "Bollinger_Low" →
       is_Some (result_column (Ok 1%positive, W2) c) ∧
       result_column
         (calculate_bollinger_bands 1 2 2 (world_of frame_with_stale_prices)) c =
         result_column (Ok 1%positive, W2) c).
Proof.
  apply (C6_price_series_read_only
           (world_of (frame_of_closes [4; 2; 6]%R))
           (world_of frame_with_stale_prices) 1%positive 1%positive
           (frame_of_closes [4; 2; 6]%R) frame_with_stale_prices
           (FloatSeries (Some <$> [4; 2; 6]%R)) (Some <$> [4; 2; 6]%R)
           2%Z 3%Z 2%Z 2%R).
  - reflexivity.
  - reflexivity.
  - reflexivity.
  - reflexivity.
  - reflexivity.
  - lia.
  - lia.
  - lia.
Defined.

(** The C6 claim as first stated fails: the calculator is not free of
    effects on its input.  The frame at reference 1 has no [SMA_20] column
    before the call with the default windows; the call returns reference 1
    again, and the frame found there now has one. *)
Lemma C6_counterexample :
  let df := frame_of_closes [1; 2]%R in
  let run := calculate_moving_averages 1 20 50 (world_of df) in
  frames (world_of df) !! 1%positive = Some df ∧
  df_columns df !! "SMA_20" = None ∧
  run.1 = Ok 1%positive ∧
  result_column run "SMA_20" = Some (FloatSeries [None; None]) ∧
  frames run.2 !! 1%positive ≠ frames (world_of df) !! 1%positive.
Proof.
  cbv zeta.
  assert (result_column
            (calculate_moving_averages 1 20 50 (world_of (frame_of_closes [1; 2]%R)))
            "SMA_20" = Some (FloatSeries [None; None])) as Hcol.
  { change "SMA_20" with (sma_name 20).
    rewrite sma_of_closes by (lia || auto).
    change (Z.to_nat 20) with 20. rewrite roll_mean_sma by lia. done. }
  split; [apply world_of_frame|]. split; [done|].
  rewrite (calculate_moving_averages_run _ _ (frame_of_closes [1; 2]%R)
             (FloatSeries (Some <$> [1; 2]%R)) (Some <$> [1; 2]%R)) in *
    by (done || apply world_of_frame || apply frame_of_closes_close).
  split; [done|]. split; [done|].
  cbn [fst snd]. intros Heq. unfold result_column in Hcol.
  rewrite Heq, world_of_frame in Hcol. done.
Qed.

(** C7.  Running a calculator a second time on the frame the first run
    returned changes nothing: the second run succeeds, returns the same
    frame, and every frame of the world, the derived columns and their NaN
    positions included, is exactly what the first run left.  A run on a
    second frame with the same [Close] column, in whatever world, writes
    the same derived columns as well. *)
Theorem C7_rerun_identical
    (W V : World) (data other : ref) (df dg : DataFrame) (s : Series)
    (xs : list (option R)) (short long window : Z) (k : R) :
  frames W !! data = Some df →
  df_columns df !! "Close" = Some s →
  frames V !! other = Some dg →
  df_columns dg !! "Close" = Some s →
  as_float s = Some xs →
  (0 ≤ short)%Z → (0 ≤ long)%Z → (0 ≤ window)%Z →
  (∃ W1 W2,
     calculate_moving_averages data short long W = (Ok data, W1) ∧
     calculate_moving_averages data short long W1 = (Ok data, W2) ∧
     frames W2 = frames W1 ∧ screen W2 = screen W1 ∧
     ∀ w, w = short ∨ w = long →
       result_column (Ok data, W2) (sma_name w) =
         result_column (Ok data, W1) (sma_name w) ∧
       is_Some (result_column (Ok data, W1) (sma_name w))) ∧
  (∃ W1 W2,
     calculate_bollinger_bands data window k W = (Ok data, W1) ∧
     calculate_bollinger_bands data window k W1 = (Ok data, W2) ∧
     frames W2 = frames W1 ∧ screen W2 = screen W1 ∧
     ∀ c, c = "Bollinger_High" ∨ c = "Bollinger_Low" →
       result_column (Ok data, W2) c = result_column (Ok data, W1) c ∧
       is_Some (result_column (Ok data, W1) c)) ∧
  (∀ w, w = short ∨ w = long →
     result_column (calculate_moving_averages other short long V) (sma_name w) =
       result_column (calculate_moving_averages data short long W) (sma_name w)) ∧
  (∀ c, c = "Bollinger_High" ∨ c = "Bollinger_Low" →
     result_column (calculate_bollinger_bands other window k V) c =
       result_column (calculate_bollinger_bands data window k W) c).
Proof.
  intros Hdf Hclose Hdg Hclose' Hfl Hs Hl Hw. split; [|split; [|split]].
  3:{ intros w Hw'.
      rewrite (calculate_moving_averages_run V other dg s xs),
              (calculate_moving_averages_run W data df s xs) by done.
      unfold result_column. rewrite !after_call_frame. cbn.
      by rewrite !sma_columns_lookup. }
  3:{ rewrite (calculate_bollinger_bands_run V other dg s xs),
              (calculate_bollinger_bands_run W data df s xs) by done.
      unfold result_column. rewrite !after_call_frame. cbn.
      intros c [->| ->].
      - by rewrite !bollinger_columns_high.
      - by rewrite !bollinger_columns_low. }
  - pose proof (calculate_moving_averages_run W data df s xs short long
                  Hdf Hclose Hfl Hs Hl) as H1.
    set (df1 := with_columns df (sma_columns short long xs (df_columns df))) in *.
    set (W1 := after_call W data df1 "calculate_moving_averages") in *.
    assert (frames W1 !! data = Some df1) as Hdf1 by apply after_call_frame.
    assert (df_columns df1 !! "Close" = Some s) as Hclose1.
    { cbn. by rewrite sma_columns_other
        by (apply not_eq_sym, sma_name_not_close). }
    pose proof (calculate_moving_averages_run W1 data df1 s xs short long
                  Hdf1 Hclose1 Hfl Hs Hl) as H2.
    eexists _, _. split; [exact H1|]. split; [exact H2|].
    subst W1 df1. cbn. unfold with_columns. cbn.
    rewrite insert_insert_eq, sma_columns_idem.
    split; [done|]. split; [done|].
    intros w Hw'. rewrite lookup_insert_eq. cbn.
    rewrite sma_columns_lookup by done. eauto.
  - pose proof (calculate_bollinger_bands_run W data df s xs window k
                  Hdf Hclose Hfl Hw) as H1.
    set (df1 := with_columns df (bollinger_columns window k xs (df_columns df))) in *.
    set (W1 := after_call W data df1 "calculate_bollinger_bands") in *.
    assert (frames W1 !! data = Some df1) as Hdf1 by apply after_call_frame.
    assert (df_columns df1 !! "Close" = Some s) as Hclose1.
    { cbn. by rewrite bollinger_columns_other by discriminate. }
    pose proof (calculate_bollinger_bands_run W1 data df1 s xs window k
                  Hdf1 Hclose1 Hfl Hw) as H2.
    eexists _, _. split; [exact H1|]. split; [exact H2|].
    subst W1 df1. cbn. unfold with_columns. cbn.
    rewrite insert_insert_eq, bollinger_columns_idem.
    split; [done|]. split; [done|].
    intros c [->| ->]; rewrite lookup_insert_eq; cbn.
    + rewrite bollinger_columns_high. eauto.
    + rewrite bollinger_columns_low. eauto.
Qed.

Lemma C7_witness :
  (∃ W1 W2,
     calculate_moving_averages 1 2 3 (world_of (frame_of_closes [4; 2; 6]%R))
       = (Ok 1%positive, W1) ∧
     calculate_moving_averages 1 2 3 W1 = (Ok 1%positive, W2) ∧
     frames W2 = frames W1 ∧ screen W2 = screen W1 ∧
     ∀ w, w = 2%Z ∨ w = 3%Z →
       result_column (Ok 1%positive, W2) (sma_name w) =
         result_column (Ok 1%positive, W1) (sma_name w) ∧
       is_Some (result_column (Ok 1%positive, W1) (sma_name w))) ∧
  (∃ W1 W2,
     calculate_bollinger_bands 1 2 2 (world_of (frame_of_closes [4; 2; 6]%R))
       = (Ok 1%positive, W1) ∧
     calculate_bollinger_bands 1 2 2 W1 = (Ok 1%positive, W2) ∧
     frames W2 = frames W1 ∧ screen W2 = screen W1 ∧
     ∀ c, c = "Bollinger_High" ∨ c = "Bollinger_Low" →
       result_column (Ok 1%positive, W2) c = result_column (Ok 1%positive, W1) c ∧
       is_Some (result_column (Ok 1%positive, W1) c)) ∧
  (∀ w, w = 2%Z ∨ w = 3%Z →
     result_column
       (calculate_moving_averages 1 2 3 (world_of frame_with_stale_prices))
       (sma_name w) =
     result_column
       (calculate_moving_averages 1 2 3 (world_of (frame_of_closes [4; 2; 6]%R)))
       (sma_name w)) ∧
  (∀ c, c = "Bollinger_High" ∨ c = "Bollinger_Low" →
     result_column
       (calculate_bollinger_bands 1 2 2 (world_of frame_with_stale_prices)) c =
     result_column
       (calculate_bollinger_bands 1 2 2 (world_of (frame_of_closes [4; 2; 6]%R))) c).
Proof.
  apply (C7_rerun_identical
           (world_of (frame_of_closes [4; 2; 6]%R))
           (world_of frame_with_stale_prices) 1%positive 1%positive
           (frame_of_closes [4; 2; 6]%R) frame_with_stale_prices
           (FloatSeries (Some <$> [4; 2; 6]%R)) (Some <$> [4; 2; 6]%R)
           2%Z 3%Z 2%Z 2%R).
  - reflexivity.
  - reflexivity.
  - reflexivity.
  - reflexivity.
  - reflexivity.
  - lia.
  - lia.
  - lia.
Defined.

(** C10, as amended.  Each calculator keeps the row index and every column
    whose name is not one it writes to: [calculate_moving_averages] leaves
    all columns but [SMA_short] and [SMA_long] as they were,
    [calculate_bollinger_bands] all but [Bollinger_High] and
    [Bollinger_Low]; [Close] and [Date] are always among the columns kept.
    The columns of the frame afterwards are those it had before together
    with the calculator's own. *)
Theorem C10_other_columns_kept
    (W : World) (data : ref) (df : DataFrame) (s : Series)
    (xs : list (option R)) (short long window : Z) (k : R) :
  frames W !! data = Some df →
  df_columns df !! "Close" = Some s →
  as_float s = Some xs →
  (0 ≤ short)%Z → (0 ≤ long)%Z → (0 ≤ window)%Z →
  (∃ W1 df1,
     calculate_moving_averages data short long W = (Ok data, W1) ∧
     frames W1 !! data = Some df1 ∧
     df_index df1 = df_index df ∧
     (∀ c, c ≠ sma_name short → c ≠ sma_name long →
        df_columns df1 !! c = df_columns df !! c) ∧
     df_columns df1 !! "Close" = df_columns df !! "Close" ∧
     df_columns df1 !! "Date" = df_columns df !! "Date" ∧
     dom (df_columns df1) =
       dom (df_columns df) ∪ {[sma_name short; sma_name long]}) ∧
  (∃ W2 df2,
     calculate_bollinger_bands data window k W = (Ok data, W2) ∧
     frames W2 !! data = Some df2 ∧
     df_index df2 = df_index df ∧
     (∀ c, c ≠ "Bollinger_High" → c ≠ "Bollinger_Low" →
        df_columns df2 !! c = df_columns df !! c) ∧
     df_columns df2 !! "Close" = df_columns df !! "Close" ∧
     df_columns df2 !! "Date" = df_columns df !! "Date" ∧
     dom (df_columns df2) =
       dom (df_columns df) ∪ {["Bollinger_High"; "Bollinger_Low"]}).
Proof.
  intros Hdf Hclose Hfl Hs Hl Hw. split.
  - eexists _, _. split; [|split].
    { by apply (calculate_moving_averages_run W data df s xs). }
    { apply after_call_frame. }
    cbn. split; [done|]. split; [|split; [|split]].
    + intros c H1 H2. by apply sma_columns_other.
    + apply sma_columns_other; apply not_eq_sym, sma_name_not_close.
    + apply sma_columns_other; apply not_eq_sym, sma_name_not_date.
    + unfold sma_columns. rewrite !dom_insert_L. apply set_eq. intros c.
      rewrite !elem_of_union, !elem_of_singleton. tauto.
  - eexists _, _. split; [|split].
    { by apply (calculate_bollinger_bands_run W data df s xs). }
    { apply after_call_frame. }
    cbn. split; [done|]. split; [|split; [|split]].
    + intros c H1 H2. by apply bollinger_columns_other.
    + by apply bollinger_columns_other.
    + by apply bollinger_columns_other.
    + unfold bollinger_columns. rewrite !dom_insert_L. apply set_eq. intros c.
      rewrite !elem_of_union, !elem_of_singleton. tauto.
Qed.

Lemma C10_witness :
  (∃ W1 df1,
     calculate_moving_averages 1 20 50 (world_of frame_with_stale_columns)
       = (Ok 1%positive, W1) ∧
     frames W1 !! 1%positive = Some df1 ∧
     df_index df1 = RangeIndex 1 ∧
     (∀ c, c ≠ sma_name 20 → c ≠ sma_name 50 →
        df_columns df1 !! c = df_columns frame_with_stale_columns !! c) ∧
     df_columns df1 !! "Close" = df_columns frame_with_stale_columns !! "Close" ∧
     df_columns df1 !! "Date" = df_columns frame_with_stale_columns !! "Date" ∧
     dom (df_columns df1) =
       dom (df_columns frame_with_stale_columns) ∪ {[sma_name 20; sma_name 50]}) ∧
  (∃ W2 df2,
     calculate_bollinger_bands 1 20 2 (world_of frame_with_stale_columns)
       = (Ok 1%positive, W2) ∧
     frames W2 !! 1%positive = Some df2 ∧
     df_index df2 = RangeIndex 1 ∧
     (∀ c, c ≠ "Bollinger_High" → c ≠ "Bollinger_Low" →
        df_columns df2 !! c = df_columns frame_with_stale_columns !! c) ∧
     df_columns df2 !! "Close" = df_columns frame_with_stale_columns !! "Close" ∧
     df_columns df2 !! "Date" = df_columns frame_with_stale_columns !! "Date" ∧
     dom (df_columns df2) =
       dom (df_columns frame_with_stale_columns)
         ∪ {["Bollinger_High"; "Bollinger_Low"]}).
Proof.
  apply (C10_other_columns_kept
           (world_of frame_with_stale_columns) 1%positive
           frame_with_stale_columns
           (FloatSeries [Some 1%R]) [Some 1%R] 20%Z 50%Z 20%Z 2%R).
  - reflexivity.
  - reflexivity.
  - reflexivity.
  - lia.
  - lia.
  - lia.
Defined.

(** The C10 claim as first stated fails for a column that already bears a
    name the calculator writes to.  The frame has a column [SMA_20] holding
    7 and a column [Bollinger_High] holding 9 before the calls with the
    default parameters; afterwards both hold NaN, the freshly computed
    value for a one-row series. *)
Lemma C10_counterexample :
  let W := world_of frame_with_stale_columns in
  df_columns frame_with_stale_columns !! "SMA_20"
    = Some (FloatSeries [Some 7%R]) ∧
  result_column (calculate_moving_averages 1 20 50 W) "SMA_20"
    = Some (FloatSeries [None]) ∧
  df_columns frame_with_stale_columns !! "Bollinger_High"
    = Some (FloatSeries [Some 9%R]) ∧
  result_column (calculate_bollinger_bands 1 20 2 W) "Bollinger_High"
    = Some (FloatSeries [None]).
Proof.
  cbv zeta.
  assert (df_columns frame_with_stale_columns !! "Close"
          = Some (FloatSeries (Some <$> [1%R]))) as Hclose by reflexivity.
  split; [reflexivity|]. split; [|split; [reflexivity|]].
  - rewrite (calculate_moving_averages_run _ _ frame_with_stale_columns
               (FloatSeries (Some <$> [1%R])) (Some <$> [1%R]))
      by (done || apply world_of_frame).
    unfold result_column. rewrite after_call_frame.
    cbn [df_columns with_columns].
    change "SMA_20" with (sma_name 20).
    rewrite sma_columns_lookup by auto.
    change (Z.to_nat 20) with 20. rewrite roll_mean_sma by lia. done.
  - rewrite (calculate_bollinger_bands_run _ _ frame_with_stale_columns
               (FloatSeries (Some <$> [1%R])) (Some <$> [1%R]))
      by (done || apply world_of_frame).
    unfold result_column. rewrite after_call_frame.
    cbn [df_columns with_columns].
    rewrite bollinger_columns_high. change (Z.to_nat 20) with 20.
    destruct (bollinger_textbook_columns 20 2%R [1%R]) as [-> _]; [lia|].
    done.
Qed.

End Frame.

(** ** Loading: no data available *)

Section Loading.
Import Rolling Ops Dashboard Effects Observe.

Variable yf_download : string → Z → Z → Outcome DataFrame.
Variable to_datetime : Series → Outcome Series.
Variable show_raw_data : bool.

Lemma load_data_provider_error ticker start end_ e W :
  yf_download ticker start end_ = Raise e →
  load_data yf_download ticker start end_ W =
    (Ok None,
     {| frames := frames W;
        screen := screen W ++
          [StError ("Error loading data for " +:+ ticker +:+ ": " +:+ exn_str e)];
        entered := entered W |}).
Proof.
  intros Hp. unfold load_data, try_except, bind, lift. rewrite Hp. done.
Qed.

Lemma load_data_empty_frame ticker start end_ df W :
  yf_download ticker start end_ = Ok df →
  df_empty df = true →
  load_data yf_download ticker start end_ W =
    (Ok None,
     {| frames := <[fresh (dom (frames W)) := df]> (frames W);
        screen := screen W;
        entered := entered W |}).
Proof.
  intros Hp He. unfold load_data, try_except, bind, lift, alloc, is_empty.
  rewrite Hp. cbn. rewrite lookup_insert_eq, He. done.
Qed.

(** C8.  When the provider raises, or returns an empty frame, [load_data]
    returns [None] without raising; the main logic then finishes without
    raising, enters neither calculator, and the last thing it puts on the
    page is the warning that no data could be loaded, preceded only by the
    error message of [load_data] when the provider raised. *)
Theorem C8_no_data_available (ticker : string) (start end_ : Z) (W : World) :
  (∃ e, yf_download ticker start end_ = Raise e) ∨
  (∃ df, yf_download ticker start end_ = Ok df ∧ df_empty df = true) →
  ∃ W1 W2 shown,
    load_data yf_download ticker start end_ W = (Ok None, W1) ∧
    main yf_download to_datetime show_raw_data ticker start end_ W = (Ok (), W2) ∧
    entered W1 = entered W ∧ entered W2 = entered W ∧
    screen W2 = screen W ++ shown ++ [no_data_warning] ∧
    (shown = [] ∨ ∃ msg, shown = [StError msg]).
Proof.
  intros [[e Hp]|(df & Hp & He)].
  - eexists _, _, [_]. split; [by apply load_data_provider_error|].
    unfold main, bind. rewrite (load_data_provider_error _ _ _ e) by done.
    unfold show. cbn. split; [reflexivity|]. cbn.
    rewrite <- (assoc_L (++)). eauto 10.
  - eexists _, _, []. split; [by apply load_data_empty_frame|].
    unfold main, bind. rewrite (load_data_empty_frame _ _ _ df) by done.
    unfold show. cbn. eauto 10.
Qed.

End Loading.

Lemma C8_witness :
  let provider : string → Z → Z → Outcome DataFrame :=
    λ _ _ _, Raise (ProviderError "connection refused") in
  let world := Observe.world_of (Observe.frame_of_closes []) in
  ∃ W1 W2 shown,
    Dashboard.load_data provider "AAPL" 0 730 world = (Ok None, W1) ∧
    Dashboard.main provider (λ s, Ok s) false "AAPL" 0 730 world = (Ok (), W2) ∧
    entered W1 = entered world ∧ entered W2 = entered world ∧
    screen W2 = screen world ++ shown ++ [Dashboard.no_data_warning] ∧
    (shown = [] ∨ ∃ msg, shown = [StError msg]).
Proof.
  cbv zeta.
  apply (C8_no_data_available
           (λ _ _ _, Raise (ProviderError "connection refused"))
           (λ s, Ok s) false "AAPL" 0%Z 730%Z).
  left. exists (ProviderError "connection refused"). reflexivity.
Defined.

(** ** Further properties of the loader *)

Section Loader.
Import Rolling Ops Dashboard Effects Observe Outcomes.

Variable yf_download : string → Z → Z → Outcome DataFrame.

Lemma load_data_frame ticker start end_ df W :
  yf_download ticker start end_ = Ok df →
  df_empty df = false →
  df_columns df !! reset_name df = None →
  load_data yf_download ticker start end_ W =
    (Ok (Some (fresh (dom (frames W)))), with_new_frame W (loaded_frame df)).
Proof.
  intros Hp He Hfree.
  unfold load_data, try_except, bind, lift, alloc, is_empty, reset_index.
  rewrite Hp. cbn. rewrite lookup_insert_eq, He. cbn.
  rewrite lookup_insert_eq, Hfree. cbn.
  unfold with_new_frame, loaded_frame. by rewrite insert_insert_eq.
Qed.

Lemma load_data_name_taken ticker start end_ df W :
  yf_download ticker start end_ = Ok df →
  df_empty df = false →
  is_Some (df_columns df !! reset_name df) →
  load_data yf_download ticker start end_ W =
    (Ok None,
     with_shown (with_new_frame W df)
       [load_error ticker (cannot_insert (reset_name df))]).
Proof.
  intros Hp He [c Hc].
  unfold load_data, try_except, bind, lift, alloc, is_empty, reset_index.
  rewrite Hp. cbn. rewrite lookup_insert_eq, He. cbn.
  rewrite lookup_insert_eq, Hc. done.
Qed.

Lemma with_new_frame_old W df r old :
  frames W !! r = Some old → frames (with_new_frame W df) !! r = Some old.
Proof.
  intros Hr. unfold with_new_frame. cbn.
  rewrite lookup_insert_ne; [done|].
  intros <-. pose proof (is_fresh (dom (frames W))) as Hfresh.
  apply not_elem_of_dom in Hfresh. congruence.
Qed.

(** X1.  Whether the provider returns a frame or raises an exception of
    class [Exception] (the outcomes [Outcome] describes; [KeyboardInterrupt],
    [SystemExit] and the other exceptions [except Exception] lets through
    are not among them), and with [st.error] returning normally, [load_data]
    does not raise: it returns [None] or a reference.  It enters no
    calculator, leaves every frame that existed before as it was, and writes
    at most one thing to the page, an error message, and only when it
    returns [None]. *)
Theorem X1_load_data_catches_exceptions (ticker : string) (start end_ : Z) (W : World) :
  ∃ res W',
    load_data yf_download ticker start end_ W = (Ok res, W') ∧
    entered W' = entered W ∧
    (∀ r old, frames W !! r = Some old → frames W' !! r = Some old) ∧
    (screen W' = screen W ∨
     res = None ∧ ∃ msg, screen W' = screen W ++ [StError msg]).
Proof.
  destruct (yf_download ticker start end_) as [df|e] eqn:Hp.
  - destruct (df_empty df) eqn:He.
    + eexists _, _. split; [by apply load_data_empty_frame|].
      split; [done|]. split; [|by left].
      intros r old Hr. by apply (with_new_frame_old W df).
    + destruct (df_columns df !! reset_name df) as [c|] eqn:Hc.
      * eexists _, _. split; [by apply load_data_name_taken|].
        split; [done|]. split; [|right; cbn; eauto].
        intros r old Hr. cbn. by apply (with_new_frame_old W df).
      * eexists _, _. split; [by apply load_data_frame|].
        split; [done|]. split; [|by left].
        intros r old Hr. by apply (with_new_frame_old W (loaded_frame df)).
  - eexists _, _. split; [by apply load_data_provider_error|].
    split; [done|]. split; [done|]. right. cbn. eauto.
Qed.

(** X2.  [load_data] returns a frame exactly when the provider returned a
    frame that is not empty and has no column under the name its index is
    moved to.  The reference returned is then new, the frame it points to
    has the rows renumbered from 0 and the provider's index as one more
    column, and nothing is written to the page. *)
Theorem X2_load_data_returns_frame (ticker : string) (start end_ : Z) (W : World) :
  (∀ df, yf_download ticker start end_ = Ok df →
         df_empty df = false →
         df_columns df !! reset_name df = None →
         ∃ r, load_data yf_download ticker start end_ W =
                (Ok (Some r),
                 {| frames := <[r := loaded_frame df]> (frames W);
                    screen := screen W;
                    entered := entered W |}) ∧
              frames W !! r = None) ∧
  (∀ r W', load_data yf_download ticker start end_ W = (Ok (Some r), W') →
           ∃ df, yf_download ticker start end_ = Ok df ∧
                 df_empty df = false ∧
                 df_columns df !! reset_name df = None ∧
                 frames W !! r = None ∧
                 frames W' = <[r := loaded_frame df]> (frames W) ∧
                 screen W' = screen W ∧ entered W' = entered W).
Proof.
  split.
  - intros df Hp He Hc. exists (fresh (dom (frames W))).
    split; [by apply load_data_frame|]. apply not_elem_of_dom, is_fresh.
  - intros r W' Hrun.
    destruct (yf_download ticker start end_) as [df|e] eqn:Hp.
    + destruct (df_empty df) eqn:He.
      { rewrite (load_data_empty_frame _ _ _ _ df) in Hrun by done. done. }
      destruct (df_columns df !! reset_name df) as [c|] eqn:Hc.
      { rewrite (load_data_name_taken _ _ _ df) in Hrun by eauto. done. }
      rewrite (load_data_frame _ _ _ df) in Hrun by done.
      injection Hrun as <- <-. exists df.
      split; [done|]. split; [done|]. split; [done|]. split; [|done].
      apply not_elem_of_dom, is_fresh.
    + rewrite (load_data_provider_error _ _ _ _ e) in Hrun by done. done.
Qed.

(** X3.  When the provider's frame already has a column under the name its
    index is moved to, the [ValueError] of [reset_index] is caught:
    [load_data] returns [None] and shows the error message naming that
    column. *)
Theorem X3_load_data_name_taken
    (ticker : string) (start end_ : Z) (df : DataFrame) (W : World) :
  yf_download ticker start end_ = Ok df →
  df_empty df = false →
  is_Some (df_columns df !! reset_name df) →
  ∃ W', load_data yf_download ticker start end_ W = (Ok None, W') ∧
        screen W' =
          screen W ++
            [StError ("Error loading data for " +:+ ticker +:+ ": cannot insert "
                      +:+ reset_name df +:+ ", already exists")] ∧
        entered W' = entered W.
Proof.
  intros Hp He Hc. eexists. split; [by apply load_data_name_taken|]. done.
Qed.

End Loader.

Lemma X2_witness :
  ∃ r, Dashboard.load_data (λ _ _ _, Ok (Outcomes.quotes [1; 2; 3]%Z [4; 2; 6]%R))
         "AAPL" 0 730 (Observe.world_of (Observe.frame_of_closes [])) =
         (Ok (Some r),
          {| frames := <[r := Outcomes.loaded_frame
                                (Outcomes.quotes [1; 2; 3]%Z [4; 2; 6]%R)]>
                         (frames (Observe.world_of (Observe.frame_of_closes [])));
             screen := [];
             entered := [] |}) ∧
       frames (Observe.world_of (Observe.frame_of_closes [])) !! r = None.
Proof.
  apply (proj1 (X2_load_data_returns_frame
                  (λ _ _ _, Ok (Outcomes.quotes [1; 2; 3]%Z [4; 2; 6]%R))
                  "AAPL" 0%Z 730%Z
                  (Observe.world_of (Observe.frame_of_closes [])))
               (Outcomes.quotes [1; 2; 3]%Z [4; 2; 6]%R)).
  - reflexivity.
  - reflexivity.
  - reflexivity.
Defined.

Lemma X3_witness :
  ∃ W', Dashboard.load_data
          (λ _ _ _, Ok (Outcomes.quotes_with_date_column [1; 2; 3]%Z [4; 2; 6]%R))
          "AAPL" 0 730 (Observe.world_of (Observe.frame_of_closes [])) = (Ok None, W') ∧
        screen W' =
          [] ++ [StError ("Error loading data for " +:+ "AAPL" +:+ ": cannot insert "
                          +:+ "Date" +:+ ", already exists")] ∧
        entered W' = [].
Proof.
  apply (X3_load_data_name_taken
           (λ _ _ _, Ok (Outcomes.quotes_with_date_column [1; 2; 3]%Z [4; 2; 6]%R))
           "AAPL" 0%Z 730%Z
           (Outcomes.quotes_with_date_column [1; 2; 3]%Z [4; 2; 6]%R)
           (Observe.world_of (Observe.frame_of_closes []))).
  - reflexivity.
  - reflexivity.
  - exists (DatetimeSeries [1; 2; 3]%Z). reflexivity.
Defined.

(** ** How the calculators fail *)

Section Failures.
Import Rolling Ops Dashboard Effects Observe Outcomes.

Lemma calculate_moving_averages_no_close W data df short long :
  frames W !! data = Some df →
  df_columns df !! "Close" = None →
  calculate_moving_averages data short long W =
    (Raise (KeyError "Close"), with_entered W "calculate_moving_averages").
Proof.
  intros Hdf Hclose.
  unfold calculate_moving_averages, bind, enter, getitem. cbn.
  by rewrite Hdf, Hclose.
Qed.

Lemma calculate_bollinger_bands_no_close W data df window k :
  frames W !! data = Some df →
  df_columns df !! "Close" = None →
  calculate_bollinger_bands data window k W =
    (Raise (KeyError "Close"), with_entered W "calculate_bollinger_bands").
Proof.
  intros Hdf Hclose.
  unfold calculate_bollinger_bands, bind, enter, getitem. cbn.
  by rewrite Hdf, Hclose.
Qed.

(** X4.  On a frame without a [Close] column both calculators raise
    [KeyError('Close')] and write nothing: the frames and the page are as
    before the call. *)
Theorem X4_missing_close
    (W : World) (data : ref) (df : DataFrame) (short long window : Z) (k : R) :
  frames W !! data = Some df →
  df_columns df !! "Close" = None →
  ∃ W1 W2,
    calculate_moving_averages data short long W = (Raise (KeyError "Close"), W1) ∧
    calculate_bollinger_bands data window k W = (Raise (KeyError "Close"), W2) ∧
    frames W1 = frames W ∧ frames W2 = frames W ∧
    screen W1 = screen W ∧ screen W2 = screen W.
Proof.
  intros Hdf Hclose. eexists _, _.
  split; [by apply (calculate_moving_averages_no_close W data df)|].
  split; [by apply (calculate_bollinger_bands_no_close W data df)|]. done.
Qed.

(** X5.  A negative window is refused before anything is written: with a
    negative short window [calculate_moving_averages], and with a negative
    window [calculate_bollinger_bands], raise [ValueError] and leave the
    frames as they were. *)
Theorem X5_negative_window
    (W : World) (data : ref) (df : DataFrame) (s : Series)
    (short long window : Z) (k : R) :
  frames W !! data = Some df →
  df_columns df !! "Close" = Some s →
  (short < 0)%Z → (window < 0)%Z →
  ∃ W1 W2,
    calculate_moving_averages data short long W =
      (Raise (ValueError "window must be an integer 0 or greater"), W1) ∧
    calculate_bollinger_bands data window k W =
      (Raise (ValueError "window must be an integer 0 or greater"), W2) ∧
    frames W1 = frames W ∧ frames W2 = frames W.
Proof.
  intros Hdf Hclose Hs Hw. eexists _, _.
  unfold calculate_moving_averages, calculate_bollinger_bands, bind, enter,
    getitem, rolling, raise. cbn. rewrite Hdf, Hclose.
  destruct (Z.ltb_spec short 0); [|lia].
  destruct (Z.ltb_spec window 0); [|lia]. done.
Qed.

(** X6.  [calculate_moving_averages] is not all-or-nothing.  With a valid
    short window and a negative long window it raises [ValueError] after
    the short average has been written: the frame passed in then has the
    column [SMA_short], and its other columns are as before. *)
Theorem X6_short_average_written_before_failure
    (W : World) (data : ref) (df : DataFrame) (s : Series)
    (xs : list (option R)) (short long : Z) :
  frames W !! data = Some df →
  df_columns df !! "Close" = Some s →
  as_float s = Some xs →
  (0 ≤ short)%Z → (long < 0)%Z →
  ∃ W' df',
    calculate_moving_averages data short long W =
      (Raise (ValueError "window must be an integer 0 or greater"), W') ∧
    frames W' !! data = Some df' ∧
    df_columns df' !! sma_name short =
      Some (FloatSeries (roll_mean (Z.to_nat short) xs)) ∧
    ∀ c, c ≠ sma_name short → df_columns df' !! c = df_columns df !! c.
Proof.
  intros Hdf Hclose Hfl Hs Hl. eexists _, _.
  unfold calculate_moving_averages, bind, enter, getitem, rolling, setitem,
    rolling_mean, float_values, bind, ret, raise. cbn.
  rewrite Hdf, Hclose.
  destruct (Z.ltb_spec short 0) as [?|_]; [lia|]. cbn. rewrite Hfl. cbn.
  rewrite Hdf. cbn. rewrite lookup_insert_eq. cbn.
  rewrite lookup_insert_ne by apply sma_name_not_close. rewrite Hclose.
  destruct (Z.ltb_spec long 0) as [_|?]; [|lia]. cbn.
  split; [reflexivity|]. cbn. rewrite lookup_insert_eq.
  split; [reflexivity|]. cbn. rewrite lookup_insert_eq.
  split; [done|]. intros c Hc. by rewrite lookup_insert_ne.
Qed.

(** X7.  A [Close] column of datetimes is refused by the rolling mean:
    with windows that are not negative both calculators raise [DataError]
    and leave the frames as they were. *)
Theorem X7_close_not_numeric
    (W : World) (data : ref) (df : DataFrame) (s : Series)
    (short long window : Z) (k : R) :
  frames W !! data = Some df →
  df_columns df !! "Close" = Some s →
  as_float s = None →
  (0 ≤ short)%Z → (0 ≤ window)%Z →
  ∃ W1 W2,
    calculate_moving_averages data short long W =
      (Raise (DataError "No numeric types to aggregate"), W1) ∧
    calculate_bollinger_bands data window k W =
      (Raise (DataError "No numeric types to aggregate"), W2) ∧
    frames W1 = frames W ∧ frames W2 = frames W.
Proof.
  intros Hdf Hclose Hfl Hs Hw. eexists _, _.
  unfold calculate_moving_averages, calculate_bollinger_bands, bind, enter,
    getitem, rolling, rolling_mean, float_values, bind, ret, raise. cbn.
  rewrite Hdf, Hclose.
  destruct (Z.ltb_spec short 0); [lia|].
  destruct (Z.ltb_spec window 0); [lia|]. cbn. rewrite Hfl. done.
Qed.

End Failures.

(** ** The calculators one after the other, and the main logic *)

Section Pipeline.
Import Rolling Ops Dashboard Effects Observe Outcomes.

Lemma bind_ok {A B} (c : Py A) (k : A → Py B) W a W1 :
  c W = (Ok a, W1) → bind c k W = k a W1.
Proof. intros H. unfold bind. by rewrite H. Qed.

Lemma bind_raise {A B} (c : Py A) (k : A → Py B) W e W1 :
  c W = (Raise e, W1) → bind c k W = (Raise e, W1).
Proof. intros H. unfold bind. by rewrite H. Qed.

Lemma getitem_ok W data df c s :
  frames W !! data = Some df → df_columns df !! c = Some s →
  getitem data c W = (Ok s, W).
Proof. intros Hdf Hc. unfold getitem. by rewrite Hdf, Hc. Qed.

Lemma getitem_missing W data df c :
  frames W !! data = Some df → df_columns df !! c = None →
  getitem data c W = (Raise (KeyError c), W).
Proof. intros Hdf Hc. unfold getitem. by rewrite Hdf, Hc. Qed.

Lemma scatter_ok W data df x y name xs ys :
  frames W !! data = Some df →
  df_columns df !! x = Some xs → df_columns df !! y = Some ys →
  scatter data x y name W = (Ok {| sc_x := xs; sc_y := ys; sc_name := name |}, W).
Proof.
  intros Hdf Hx Hy. unfold scatter.
  rewrite (bind_ok _ _ _ _ _ (getitem_ok W data df x xs Hdf Hx)).
  rewrite (bind_ok _ _ _ _ _ (getitem_ok W data df y ys Hdf Hy)). done.
Qed.

Lemma sma_name_not_bollinger w :
  sma_name w ≠ "Bollinger_High" ∧ sma_name w ≠ "Bollinger_Low".
Proof. unfold sma_name. cbn. split; discriminate. Qed.

Lemma columns_commute short long window k xs cols :
  bollinger_columns window k xs (sma_columns short long xs cols) =
    sma_columns short long xs (bollinger_columns window k xs cols).
Proof.
  apply map_eq. intros c.
  destruct (decide (c = "Bollinger_High")) as [->|Hh].
  { rewrite bollinger_columns_high.
    rewrite sma_columns_other
      by (intros H; symmetry in H; by apply sma_name_not_bollinger in H).
    by rewrite bollinger_columns_high. }
  destruct (decide (c = "Bollinger_Low")) as [->|Hl].
  { rewrite bollinger_columns_low.
    rewrite sma_columns_other
      by (intros H; symmetry in H; by apply sma_name_not_bollinger in H).
    by rewrite bollinger_columns_low. }
  rewrite bollinger_columns_other by done.
  destruct (decide (c = sma_name long)) as [->|Hlong].
  { by rewrite !(sma_columns_lookup short long xs _ long) by auto. }
  destruct (decide (c = sma_name short)) as [->|Hshort].
  { by rewrite !(sma_columns_lookup short long xs _ short) by auto. }
  rewrite !sma_columns_other by done. by rewrite bollinger_columns_other.
Qed.

(** X8.  The two calculators can be run in either order on a frame: both
    orders succeed, write nothing to the page and touch no other frame, and
    the frame passed in then has the same row index and, under every column
    name, the same values in both orders: the two averages and the two
    bands computed from its [Close] column, and every other column as it
    was.  (In which order the new columns follow the old ones depends on the
    order of the calls; the order of columns is not part of [DataFrame]
    here.) *)
Theorem X8_calculators_in_either_order
    (W : World) (data : ref) (df : DataFrame) (s : Series)
    (xs : list (option R)) (short long window : Z) (k : R) :
  frames W !! data = Some df →
  df_columns df !! "Close" = Some s →
  as_float s = Some xs →
  (0 ≤ short)%Z → (0 ≤ long)%Z → (0 ≤ window)%Z →
  ∃ A B dfA dfB,
    (let! d := calculate_moving_averages data short long in
     calculate_bollinger_bands d window k) W = (Ok data, A) ∧
    (let! d := calculate_bollinger_bands data window k in
     calculate_moving_averages d short long) W = (Ok data, B) ∧
    screen A = screen W ∧ screen B = screen W ∧
    (∀ r, r ≠ data →
          frames A !! r = frames W !! r ∧ frames B !! r = frames W !! r) ∧
    frames A !! data = Some dfA ∧ frames B !! data = Some dfB ∧
    df_index dfA = df_index df ∧ df_index dfB = df_index df ∧
    (∀ c, df_columns dfA !! c = df_columns dfB !! c) ∧
    df_columns dfA !! sma_name short =
      Some (FloatSeries (roll_mean (Z.to_nat short) xs)) ∧
    df_columns dfA !! sma_name long =
      Some (FloatSeries (roll_mean (Z.to_nat long) xs)) ∧
    df_columns dfA !! "Bollinger_High" =
      Some (FloatSeries (bollinger_high (Z.to_nat window) k xs)) ∧
    df_columns dfA !! "Bollinger_Low" =
      Some (FloatSeries (bollinger_low (Z.to_nat window) k xs)) ∧
    (∀ c, c ≠ sma_name short → c ≠ sma_name long →
          c ≠ "Bollinger_High" → c ≠ "Bollinger_Low" →
          df_columns dfA !! c = df_columns df !! c).
Proof.
  intros Hdf Hclose Hfl Hs Hl Hw.
  pose proof (calculate_moving_averages_run W data df s xs short long
                Hdf Hclose Hfl Hs Hl) as Hma.
  pose proof (calculate_bollinger_bands_run W data df s xs window k
                Hdf Hclose Hfl Hw) as Hbb.
  set (dma := with_columns df (sma_columns short long xs (df_columns df))) in *.
  set (dbb := with_columns df (bollinger_columns window k xs (df_columns df))) in *.
  set (Wma := after_call W data dma "calculate_moving_averages") in *.
  set (Wbb := after_call W data dbb "calculate_bollinger_bands") in *.
  assert (df_columns dma !! "Close" = Some s) as Hcma.
  { cbn. by rewrite sma_columns_other by (apply not_eq_sym, sma_name_not_close). }
  assert (df_columns dbb !! "Close" = Some s) as Hcbb.
  { cbn. by rewrite bollinger_columns_other by discriminate. }
  pose proof (calculate_bollinger_bands_run Wma data dma s xs window k
                (after_call_frame _ _ _ _) Hcma Hfl Hw) as Hbb2.
  pose proof (calculate_moving_averages_run Wbb data dbb s xs short long
                (after_call_frame _ _ _ _) Hcbb Hfl Hs Hl) as Hma2.
  eexists _, _, _, _.
  split; [by rewrite (bind_ok _ _ _ _ _ Hma)|].
  split; [by rewrite (bind_ok _ _ _ _ _ Hbb)|].
  subst Wma Wbb dma dbb. unfold after_call, with_columns. cbn.
  rewrite !insert_insert_eq.
  split; [done|]. split; [done|].
  split; [intros r Hr; by rewrite !lookup_insert_ne by done|].
  rewrite !lookup_insert_eq. split; [done|]. split; [done|]. cbn.
  split; [done|]. split; [done|].
  split; [intros c; by rewrite columns_commute|].
  rewrite !bollinger_columns_other
    by (intros H; by apply sma_name_not_bollinger in H).
  rewrite !sma_columns_lookup by auto.
  rewrite bollinger_columns_high, bollinger_columns_low.
  do 4 (split; [done|]).
  intros c Hs' Hl' Hh' Hlo'.
  by rewrite bollinger_columns_other, sma_columns_other by done.
Qed.

End Pipeline.

Section MainLogic.
Import Rolling Ops Dashboard Effects Observe Outcomes.

Variable yf_download : string → Z → Z → Outcome DataFrame.
Variable to_datetime : Series → Outcome Series.
Variable show_raw_data : bool.

Lemma loaded_frame_dated df dates :
  df_index df = LabelIndex (Some "Date") dates →
  loaded_frame df =
    {| df_index := RangeIndex (series_len dates);
       df_columns := <["Date" := dates]> (df_columns df) |}.
Proof. intros Hix. unfold loaded_frame, reset_name. by rewrite Hix. Qed.

Lemma show_run w W : show w W = (Ok (), with_shown W [w]).
Proof. done. Qed.

(** X9.  When the provider returns a frame indexed by [Date] that is not
    empty and has a numeric [Close] column, and the dates parse, the main
    logic finishes without raising.  It enters the moving averages and then
    the bands, once each; it writes to the page the header, the price chart
    with the close and the 20 and 50 day averages, the band chart with the
    close and the two bands (window 20, multiplier 2), and the raw table if
    the box is ticked; the warning is not shown.  The frame it built is
    stored under a new reference. *)
Theorem X9_main_draws_analysis
    (ticker : string) (start end_ : Z) (W : World) (df : DataFrame)
    (dates date s : Series) (xs : list (option R)) :
  yf_download ticker start end_ = Ok df →
  df_index df = LabelIndex (Some "Date") dates →
  df_empty df = false →
  df_columns df !! "Date" = None →
  df_columns df !! "Close" = Some s →
  as_float s = Some xs →
  to_datetime dates = Ok date →
  ∃ r W',
    main yf_download to_datetime show_raw_data ticker start end_ W = (Ok (), W') ∧
    frames W !! r = None ∧
    frames W' = <[r := analysed_frame df date xs]> (frames W) ∧
    entered W' =
      entered W ++ ["calculate_moving_averages"; "calculate_bollinger_bands"] ∧
    screen W' =
      screen W ++ analysis_page ticker date s xs
               ++ raw_data_table show_raw_data (analysed_frame df date xs).
Proof.
  intros Hp Hix He Hdate Hclose Hfl Hparse.
  exists (fresh (dom (frames W))).
  exists {| frames := <[fresh (dom (frames W)) := analysed_frame df date xs]> (frames W);
            screen := screen W ++ analysis_page ticker date s xs
                        ++ raw_data_table show_raw_data (analysed_frame df date xs);
            entered := entered W ++ ["calculate_moving_averages";
                                     "calculate_bollinger_bands"] |}.
  split; [|split; [apply not_elem_of_dom, is_fresh|done]].
  - unfold main.
    rewrite (bind_ok _ _ _ _ _
               (load_data_frame yf_download ticker start end_ df W Hp He
                  ltac:(by unfold reset_name; rewrite Hix))).
    rewrite (loaded_frame_dated df dates Hix).
    set (r := fresh (dom (frames W))).
    unfold with_new_frame. fold r.
    erewrite (bind_ok (getitem r "Date"));
      [|eapply getitem_ok; cbn; [apply lookup_insert_eq|cbn; apply lookup_insert_eq]].
    unfold lift at 1. unfold bind at 1. rewrite Hparse.
    unfold setitem at 1. unfold bind at 1. cbn [frames screen entered].
    rewrite lookup_insert_eq. cbn [df_index df_columns].
    rewrite !insert_insert_eq.
    erewrite (bind_ok (calculate_moving_averages r 20 50));
      [|eapply (calculate_moving_averages_run _ r _ s xs);
        [cbn; apply lookup_insert_eq
        |cbn; by rewrite lookup_insert_ne by discriminate
        |done|lia|lia]].
    erewrite (bind_ok (calculate_bollinger_bands r 20 2));
      [|eapply (calculate_bollinger_bands_run _ r _ s xs);
        [apply after_call_frame
        |cbn; rewrite sma_columns_other
           by (apply not_eq_sym, sma_name_not_close);
         by rewrite lookup_insert_ne by discriminate
        |done|lia]].
    unfold after_call, with_columns. cbn [frames screen entered df_index df_columns].
    rewrite !insert_insert_eq.
    set (final := {| df_index := RangeIndex (series_len dates);
                     df_columns := bollinger_columns 20 2 xs
                       (sma_columns 20 50 xs (<["Date":=date]> (df_columns df))) |}).
    assert (df_columns final !! "Date" = Some date) as Fdate.
    { cbn. rewrite bollinger_columns_other by discriminate.
      rewrite sma_columns_other by (apply not_eq_sym, sma_name_not_date).
      apply lookup_insert_eq. }
    assert (df_columns final !! "Close" = Some s) as Fclose.
    { cbn. rewrite bollinger_columns_other by discriminate.
      rewrite sma_columns_other by (apply not_eq_sym, sma_name_not_close).
      by rewrite lookup_insert_ne by discriminate. }
    assert (df_columns final !! "SMA_20" = Some (FloatSeries (roll_mean 20 xs)))
      as F20.
    { cbn. rewrite bollinger_columns_other by discriminate.
      change "SMA_20" with (sma_name 20).
      by rewrite sma_columns_lookup by auto. }
    assert (df_columns final !! "SMA_50" = Some (FloatSeries (roll_mean 50 xs)))
      as F50.
    { cbn. rewrite bollinger_columns_other by discriminate.
      change "SMA_50" with (sma_name 50).
      by rewrite sma_columns_lookup by auto. }
    assert (df_columns final !! "Bollinger_High" =
              Some (FloatSeries (bollinger_high 20 2 xs))) as Fhigh.
    { cbn. by rewrite bollinger_columns_high. }
    assert (df_columns final !! "Bollinger_Low" =
              Some (FloatSeries (bollinger_low 20 2 xs))) as Flow.
    { cbn. by rewrite bollinger_columns_low. }
    repeat first
      [ rewrite (bind_ok _ _ _ _ _ (show_run _ _));
        unfold with_shown; cbn [frames screen entered]
      | erewrite (bind_ok (scatter r _ _ _));
        [|eapply (scatter_ok _ r final); [apply lookup_insert_eq|eassumption..]] ].
    assert (analysed_frame df date xs = final) as ->.
    { unfold analysed_frame, final. by rewrite Hix. }
    unfold analysis_page, raw_data_table.
    destruct show_raw_data.
    + rewrite (bind_ok _ _ _ _ _ (show_run _ _)).
      unfold with_shown; cbn [frames screen entered].
      unfold tail at 1. unfold bind at 1. cbn [frames]. rewrite lookup_insert_eq.
      rewrite show_run. unfold with_shown. cbn [frames screen entered].
      rewrite <- !(assoc_L (++)). reflexivity.
    + unfold ret. rewrite <- !(assoc_L (++)). reflexivity.
Qed.

(** X10.  The main logic relies on the index being named [Date].  When the
    provider's frame loads but its index goes to a column of another name
    and there is no [Date] column, the main logic raises
    [KeyError('Date')]; nothing has been written to the page and no
    calculator has been entered. *)
Theorem X10_main_needs_date
    (ticker : string) (start end_ : Z) (W : World) (df : DataFrame) :
  yf_download ticker start end_ = Ok df →
  df_empty df = false →
  df_columns df !! reset_name df = None →
  reset_name df ≠ "Date" →
  df_columns df !! "Date" = None →
  ∃ W',
    main yf_download to_datetime show_raw_data ticker start end_ W =
      (Raise (KeyError "Date"), W') ∧
    screen W' = screen W ∧ entered W' = entered W.
Proof.
  intros Hp He Hfree Hname Hdate. eexists. split; [|shelve].
  unfold main.
  rewrite (bind_ok _ _ _ _ _
             (load_data_frame yf_download ticker start end_ df W Hp He Hfree)).
  erewrite (bind_raise (getitem _ "Date")); [reflexivity|].
  eapply getitem_missing; [apply lookup_insert_eq|].
  cbn. by rewrite lookup_insert_ne.
  Unshelve. done.
Qed.

(** X11.  When the dates load and parse but the frame has no [Close]
    column, the main logic raises [KeyError('Close')] from inside the
    moving-average calculator, the only one entered; nothing has been
    written to the page. *)
Theorem X11_main_needs_close
    (ticker : string) (start end_ : Z) (W : World) (df : DataFrame)
    (dates date : Series) :
  yf_download ticker start end_ = Ok df →
  df_index df = LabelIndex (Some "Date") dates →
  df_empty df = false →
  df_columns df !! "Date" = None →
  df_columns df !! "Close" = None →
  to_datetime dates = Ok date →
  ∃ W',
    main yf_download to_datetime show_raw_data ticker start end_ W =
      (Raise (KeyError "Close"), W') ∧
    screen W' = screen W ∧
    entered W' = entered W ++ ["calculate_moving_averages"].
Proof.
  intros Hp Hix He Hdate Hclose Hparse. eexists. split; [|shelve].
  unfold main.
  rewrite (bind_ok _ _ _ _ _
             (load_data_frame yf_download ticker start end_ df W Hp He
                ltac:(by unfold reset_name; rewrite Hix))).
  rewrite (loaded_frame_dated df dates Hix).
  unfold with_new_frame.
  erewrite (bind_ok (getitem _ "Date"));
    [|eapply getitem_ok; cbn; [apply lookup_insert_eq|cbn; apply lookup_insert_eq]].
  unfold lift at 1. unfold bind at 1. rewrite Hparse.
  unfold setitem at 1. unfold bind at 1. cbn [frames screen entered].
  rewrite lookup_insert_eq. cbn [df_index df_columns].
  rewrite !insert_insert_eq.
  erewrite (bind_raise (calculate_moving_averages _ 20 50)); [reflexivity|].
  eapply calculate_moving_averages_no_close; [cbn; apply lookup_insert_eq|].
  cbn. by rewrite lookup_insert_ne by discriminate.
  Unshelve. done.
Qed.

(** X12.  When the dates do not parse, the exception of the parser leaves
    the main logic as it is; nothing has been written to the page and no
    calculator has been entered. *)
Theorem X12_main_date_parse_error
    (ticker : string) (start end_ : Z) (W : World) (df : DataFrame)
    (dates : Series) (e : Exn) :
  yf_download ticker start end_ = Ok df →
  df_index df = LabelIndex (Some "Date") dates →
  df_empty df = false →
  df_columns df !! "Date" = None →
  to_datetime dates = Raise e →
  ∃ W',
    main yf_download to_datetime show_raw_data ticker start end_ W = (Raise e, W') ∧
    screen W' = screen W ∧ entered W' = entered W.
Proof.
  intros Hp Hix He Hdate Hparse. eexists. split; [|shelve].
  unfold main.
  rewrite (bind_ok _ _ _ _ _
             (load_data_frame yf_download ticker start end_ df W Hp He
                ltac:(by unfold reset_name; rewrite Hix))).
  rewrite (loaded_frame_dated df dates Hix).
  unfold with_new_frame.
  erewrite (bind_ok (getitem _ "Date"));
    [|eapply getitem_ok; cbn; [apply lookup_insert_eq|cbn; apply lookup_insert_eq]].
  unfold lift at 1. unfold bind at 1. rewrite Hparse. reflexivity.
  Unshelve. done.
Qed.

End MainLogic.

Section RawTable.
Import Rolling Ops Dashboard Effects Observe Outcomes.

Lemma series_tail_len n s :
  series_len (series_tail n s) = Nat.min n (series_len s).
Proof. destruct s; cbn; rewrite length_drop; lia. Qed.

Lemma series_tail_all n s : series_len s ≤ n → series_tail n s = s.
Proof.
  destruct s; cbn; intros Hn; f_equal;
    match goal with |- drop ?k _ = _ => replace k with 0 by lia end; done.
Qed.

Lemma series_tail_last n s : series_ends_with s (series_tail n s).
Proof.
  destruct s as [xs|ns|ts]; cbn;
    [exists (take (length xs - n) xs)
    |exists (take (length ns - n) ns)
    |exists (take (length ts - n) ts)]; by rewrite take_drop.
Qed.

(** X19.  The raw table is cut from the frame without touching it:
    [data.tail(100)] leaves the frames as they are and returns a frame
    with the same columns, each holding the last 100 rows of the column it
    comes from, in their order (the column is some rows followed by exactly
    the rows returned), or the whole column when that has 100 rows or
    fewer. *)
Theorem X19_raw_table_last_rows (W : World) (data : ref) (df : DataFrame) :
  frames W !! data = Some df →
  ∃ t, tail data 100 W = (Ok t, W) ∧
       dom (df_columns t) = dom (df_columns df) ∧
       ∀ c s, df_columns df !! c = Some s →
         ∃ s', df_columns t !! c = Some s' ∧
               series_len s' = Nat.min 100 (series_len s) ∧
               series_ends_with s s' ∧
               (series_len s ≤ 100 → s' = s).
Proof.
  intros Hdf. exists (df_tail 100 df).
  split; [unfold tail; by rewrite Hdf|].
  split; [cbn; apply dom_fmap_L|].
  intros c s Hc. exists (series_tail 100 s).
  split; [cbn; by rewrite lookup_fmap, Hc|].
  split; [apply series_tail_len|].
  split; [apply series_tail_last|apply series_tail_all].
Qed.

End RawTable.

(** ** More on windows: missing prices, later rows, bounds *)

Section Windows.
Import Rolling Ops Dashboard Effects Observe Outcomes.

Lemma length_observations (l : list (option R)) :
  length (observations l) ≤ length l.
Proof.
  unfold observations. induction l as [|[x|] l IH]; cbn; lia.
Qed.

Lemma observations_drop_nan (l : list (option R)) p :
  l !! p = Some None → length (observations l) < length l.
Proof.
  revert p. induction l as [|c l IH]; intros p Hp; [done|].
  destruct p as [|p]; cbn in Hp.
  - injection Hp as ->. pose proof (length_observations l).
    unfold observations in *. cbn. lia.
  - specialize (IH p Hp). unfold observations in *. destruct c; cbn; lia.
Qed.

Lemma length_window_at w i (xs : list (option R)) :
  length (window_at w i xs) ≤ w.
Proof. unfold window_at. rewrite length_drop, length_take. lia. Qed.

Lemma window_at_lookup w i (xs : list (option R)) j :
  i + 1 - w ≤ j → j ≤ i →
  window_at w i xs !! (j - (i + 1 - w)) = xs !! j.
Proof.
  intros Hlo Hhi. unfold window_at.
  rewrite lookup_drop, lookup_take_lt by lia. f_equal. lia.
Qed.

(** A NaN in the window makes both aggregates NaN. *)
Lemma roll_nan w (xs : list (option R)) i j :
  i < length xs → xs !! j = Some None → i + 1 - w ≤ j → j ≤ i →
  roll_mean w xs !! i = Some None ∧ roll_std w xs !! i = Some None.
Proof.
  intros Hi Hj Hlo Hhi.
  rewrite roll_mean_lookup, roll_std_lookup by done.
  pose proof (window_at_lookup w i xs j Hlo Hhi) as Hwin. rewrite Hj in Hwin.
  pose proof (observations_drop_nan _ _ Hwin) as Hobs.
  pose proof (length_window_at w i xs) as Hlen.
  unfold calc_mean, calc_std.
  destruct (Nat.leb_spec w (length (observations (window_at w i xs)))); [lia|].
  done.
Qed.

(** Rows appended to a column do not change the windows of the rows before
    them. *)
Lemma window_at_app w i (xs more : list (option R)) :
  i < length xs → window_at w i (xs ++ more) = window_at w i xs.
Proof. intros Hi. unfold window_at. by rewrite take_app_le by lia. Qed.

Lemma roll_app w (xs more : list (option R)) i :
  i < length xs →
  roll_mean w (xs ++ more) !! i = roll_mean w xs !! i ∧
  roll_std w (xs ++ more) !! i = roll_std w xs !! i.
Proof.
  intros Hi.
  rewrite !roll_mean_lookup, !roll_std_lookup by (rewrite ?length_app; lia).
  by rewrite window_at_app.
Qed.

End Windows.

(** ** More on the columns the calculators write *)

Section DerivedColumns.
Import Rolling Ops Dashboard Effects Observe Outcomes.

Lemma sma_column_run W data df s xs short long w :
  frames W !! data = Some df →
  df_columns df !! "Close" = Some s →
  as_float s = Some xs →
  (0 ≤ short)%Z → (0 ≤ long)%Z → w = short ∨ w = long →
  result_column (calculate_moving_averages data short long W) (sma_name w) =
    Some (FloatSeries (roll_mean (Z.to_nat w) xs)).
Proof.
  intros Hdf Hclose Hfl Hs Hl Hw.
  rewrite (calculate_moving_averages_run W data df s xs) by done.
  unfold result_column. rewrite after_call_frame. cbn.
  by apply sma_columns_lookup.
Qed.

Lemma band_columns_run W data df s xs window k :
  frames W !! data = Some df →
  df_columns df !! "Close" = Some s →
  as_float s = Some xs →
  (0 ≤ window)%Z →
  result_column (calculate_bollinger_bands data window k W) "Bollinger_High" =
    Some (FloatSeries (bollinger_high (Z.to_nat window) k xs)) ∧
  result_column (calculate_bollinger_bands data window k W) "Bollinger_Low" =
    Some (FloatSeries (bollinger_low (Z.to_nat window) k xs)).
Proof.
  intros Hdf Hclose Hfl Hw.
  rewrite (calculate_bollinger_bands_run W data df s xs) by done.
  unfold result_column. rewrite after_call_frame. cbn.
  by rewrite bollinger_columns_high, bollinger_columns_low.
Qed.

Lemma as_float_length s xs : as_float s = Some xs → length xs = series_len s.
Proof.
  destruct s; cbn; intros [= <-]; [done|]. by rewrite length_fmap.
Qed.

(** X13.  Whatever the [Close] column holds (NaN, integers, fewer rows than
    the window, no rows at all) and whatever windows that are not negative,
    every column a calculator writes is a float column with exactly as many
    rows as [Close]. *)
Theorem X13_derived_columns_aligned
    (W : World) (data : ref) (df : DataFrame) (s : Series)
    (xs : list (option R)) (short long window : Z) (k : R) :
  frames W !! data = Some df →
  df_columns df !! "Close" = Some s →
  as_float s = Some xs →
  (0 ≤ short)%Z → (0 ≤ long)%Z → (0 ≤ window)%Z →
  (∀ w, w = short ∨ w = long →
     ∃ col, result_column (calculate_moving_averages data short long W) (sma_name w)
              = Some (FloatSeries col) ∧
            length col = series_len s) ∧
  (∀ c, c = "Bollinger_High" ∨ c = "Bollinger_Low" →
     ∃ col, result_column (calculate_bollinger_bands data window k W) c
              = Some (FloatSeries col) ∧
            length col = series_len s).
Proof.
  intros Hdf Hclose Hfl Hs Hl Hw.
  pose proof (as_float_length s xs Hfl) as Hlen.
  destruct (band_columns_run W data df s xs window k) as [Hu Hlo]; [done..|].
  split.
  - intros w Hw'. eexists. split; [by apply (sma_column_run W data df s xs)|].
    by rewrite length_roll_mean.
  - intros c [->| ->]; eexists; (split; [eassumption|]).
    + by rewrite length_bollinger_high.
    + by rewrite length_bollinger_low.
Qed.

(** X14.  The bands enclose the moving average of the same window.  At any
    position where both bands hold a number, the average written by
    [calculate_moving_averages] for that window holds a number too, and
    with a multiplier that is not negative it is at least the lower band
    and at most the upper band. *)
Theorem X14_bands_enclose_average
    (W : World) (data : ref) (df : DataFrame) (s : Series)
    (xs : list (option R)) (window : Z) (k : R) :
  frames W !! data = Some df →
  df_columns df !! "Close" = Some s →
  as_float s = Some xs →
  (0 ≤ window)%Z →
  ∃ sma upper lower,
    result_column (calculate_moving_averages data window window W) (sma_name window)
      = Some (FloatSeries sma) ∧
    result_column (calculate_bollinger_bands data window k W) "Bollinger_High"
      = Some (FloatSeries upper) ∧
    result_column (calculate_bollinger_bands data window k W) "Bollinger_Low"
      = Some (FloatSeries lower) ∧
    ∀ i (u l : R), upper !! i = Some (Some u) → lower !! i = Some (Some l) →
      ∃ m : R, sma !! i = Some (Some m) ∧
               ((0 <= k)%R → (l <= m <= u)%R).
Proof.
  intros Hdf Hclose Hfl Hw.
  destruct (band_columns_run W data df s xs window k) as [Hu Hlo]; [done..|].
  eexists _, _, _.
  split; [by apply (sma_column_run W data df s xs); auto|].
  split; [exact Hu|]. split; [exact Hlo|].
  intros i u l Hiu Hil.
  destruct (bands_inv _ _ _ _ _ _ Hiu Hil) as (μ & σ & Hμ & _ & Hσ & -> & ->).
  exists μ. split; [done|]. intros Hk.
  assert (0 <= σ * k)%R by (by apply Rmult_le_pos). lra.
Qed.

(** X15.  One missing price blanks every window it falls in.  If [Close]
    is NaN at row [j], then for a window [w] every row [i] of the SMA
    column and of both band columns with [i - w + 1 <= j <= i] is NaN. *)
Theorem X15_nan_blanks_its_windows
    (W : World) (data : ref) (df : DataFrame) (s : Series)
    (xs : list (option R)) (w long : Z) (k : R) (i j : nat) :
  frames W !! data = Some df →
  df_columns df !! "Close" = Some s →
  as_float s = Some xs →
  (0 ≤ w)%Z → (0 ≤ long)%Z →
  i < length xs →
  xs !! j = Some None →
  (Z.of_nat i - w + 1 ≤ Z.of_nat j)%Z → j ≤ i →
  ∃ sma upper lower,
    result_column (calculate_moving_averages data w long W) (sma_name w)
      = Some (FloatSeries sma) ∧
    result_column (calculate_bollinger_bands data w k W) "Bollinger_High"
      = Some (FloatSeries upper) ∧
    result_column (calculate_bollinger_bands data w k W) "Bollinger_Low"
      = Some (FloatSeries lower) ∧
    sma !! i = Some None ∧ upper !! i = Some None ∧ lower !! i = Some None.
Proof.
  intros Hdf Hclose Hfl Hw Hl Hi Hj Hlo Hhi.
  destruct (band_columns_run W data df s xs w k) as [Hu Hlow]; [done..|].
  destruct (roll_nan (Z.to_nat w) xs i j) as [Hm Hs]; [done|done|lia|done|].
  eexists _, _, _.
  split; [by apply (sma_column_run W data df s xs); auto|].
  split; [exact Hu|]. split; [exact Hlow|].
  split; [done|].
  by rewrite (bollinger_high_lookup _ k _ _ _ _ Hm Hs),
             (bollinger_low_lookup _ k _ _ _ _ Hm Hs).
Qed.

(** X16.  Later rows never change earlier values.  If the [Close] column of
    a second frame is that of the first with rows appended, then on every
    row of the first frame the averages and the bands computed from the
    two frames are the same. *)
Theorem X16_no_look_ahead
    (W V : World) (data other : ref) (df dg : DataFrame)
    (xs more : list (option R)) (short long window : Z) (k : R) (i : nat) :
  frames W !! data = Some df →
  frames V !! other = Some dg →
  df_columns df !! "Close" = Some (FloatSeries xs) →
  df_columns dg !! "Close" = Some (FloatSeries (xs ++ more)) →
  (0 ≤ short)%Z → (0 ≤ long)%Z → (0 ≤ window)%Z →
  i < length xs →
  (∀ w, w = short ∨ w = long →
     ∃ a b,
       result_column (calculate_moving_averages data short long W) (sma_name w)
         = Some (FloatSeries a) ∧
       result_column (calculate_moving_averages other short long V) (sma_name w)
         = Some (FloatSeries b) ∧
       b !! i = a !! i) ∧
  (∀ c, c = "Bollinger_High" ∨ c = "Bollinger_Low" →
     ∃ a b,
       result_column (calculate_bollinger_bands data window k W) c
         = Some (FloatSeries a) ∧
       result_column (calculate_bollinger_bands other window k V) c
         = Some (FloatSeries b) ∧
       b !! i = a !! i).
Proof.
  intros Hdf Hdg Hclose Hclose' Hs Hl Hw Hi.
  destruct (band_columns_run W data df (FloatSeries xs) xs window k)
    as [Hu Hlo]; [done..|].
  destruct (band_columns_run V other dg (FloatSeries (xs ++ more)) (xs ++ more)
              window k) as [Hu' Hlo']; [done..|].
  assert (i < length (xs ++ more)) as Hi' by (rewrite length_app; lia).
  split.
  - intros w Hw'. eexists _, _.
    split; [by apply (sma_column_run W data df (FloatSeries xs) xs)|].
    split; [by apply (sma_column_run V other dg (FloatSeries (xs ++ more)))|].
    by apply roll_app.
  - destruct (roll_app (Z.to_nat window) xs more i Hi) as [Hm Hsd].
    pose proof (roll_mean_lookup (Z.to_nat window) xs i Hi) as Hm0.
    pose proof (roll_std_lookup (Z.to_nat window) xs i Hi) as Hs0.
    rewrite <- Hm in Hm0. rewrite <- Hsd in Hs0.
    intros c [->| ->]; eexists _, _; (split; [eassumption|split; [eassumption|]]).
    + rewrite (bollinger_high_lookup _ k (xs ++ more) i _ _ Hm0 Hs0).
      by rewrite (bollinger_high_lookup _ k xs i _ _
                    (roll_mean_lookup _ xs i Hi) (roll_std_lookup _ xs i Hi)).
    + rewrite (bollinger_low_lookup _ k (xs ++ more) i _ _ Hm0 Hs0).
      by rewrite (bollinger_low_lookup _ k xs i _ _
                    (roll_mean_lookup _ xs i Hi) (roll_std_lookup _ xs i Hi)).
Qed.

End DerivedColumns.

(** ** Instances *)

Section Instances.
Import Rolling Ops Dashboard Effects Observe Outcomes.

Lemma X4_witness :
  ∃ W1 W2,
    calculate_moving_averages 1 20 50
      (world_of (loaded_quotes [1; 2; 3]%Z "Open" (FloatSeries [Some 4%R])))
      = (Raise (KeyError "Close"), W1) ∧
    calculate_bollinger_bands 1 20 2
      (world_of (loaded_quotes [1; 2; 3]%Z "Open" (FloatSeries [Some 4%R])))
      = (Raise (KeyError "Close"), W2) ∧
    frames W1 = frames (world_of (loaded_quotes [1; 2; 3]%Z "Open" (FloatSeries [Some 4%R]))) ∧
    frames W2 = frames (world_of (loaded_quotes [1; 2; 3]%Z "Open" (FloatSeries [Some 4%R]))) ∧
    screen W1 = [] ∧ screen W2 = [].
Proof.
  apply (X4_missing_close
           (world_of (loaded_quotes [1; 2; 3]%Z "Open" (FloatSeries [Some 4%R])))
           1%positive
           (loaded_quotes [1; 2; 3]%Z "Open" (FloatSeries [Some 4%R]))
           20%Z 50%Z 20%Z 2%R).
  - reflexivity.
  - reflexivity.
Defined.

Lemma X5_witness :
  ∃ W1 W2,
    calculate_moving_averages 1 (-1) 50 (world_of (frame_of_closes [4; 2; 6]%R)) =
      (Raise (ValueError "window must be an integer 0 or greater"), W1) ∧
    calculate_bollinger_bands 1 (-3) 2 (world_of (frame_of_closes [4; 2; 6]%R)) =
      (Raise (ValueError "window must be an integer 0 or greater"), W2) ∧
    frames W1 = frames (world_of (frame_of_closes [4; 2; 6]%R)) ∧
    frames W2 = frames (world_of (frame_of_closes [4; 2; 6]%R)).
Proof.
  apply (X5_negative_window
           (world_of (frame_of_closes [4; 2; 6]%R)) 1%positive
           (frame_of_closes [4; 2; 6]%R) (FloatSeries (Some <$> [4; 2; 6]%R))
           (-1)%Z 50%Z (-3)%Z 2%R).
  - reflexivity.
  - reflexivity.
  - lia.
  - lia.
Defined.

Lemma X6_witness :
  ∃ W' df',
    calculate_moving_averages 1 2 (-1) (world_of (frame_of_closes [4; 2; 6]%R)) =
      (Raise (ValueError "window must be an integer 0 or greater"), W') ∧
    frames W' !! 1%positive = Some df' ∧
    df_columns df' !! sma_name 2 =
      Some (FloatSeries (roll_mean (Z.to_nat 2) (Some <$> [4; 2; 6]%R))) ∧
    ∀ c, c ≠ sma_name 2 →
         df_columns df' !! c = df_columns (frame_of_closes [4; 2; 6]%R) !! c.
Proof.
  apply (X6_short_average_written_before_failure
           (world_of (frame_of_closes [4; 2; 6]%R)) 1%positive
           (frame_of_closes [4; 2; 6]%R) (FloatSeries (Some <$> [4; 2; 6]%R))
           (Some <$> [4; 2; 6]%R) 2%Z (-1)%Z).
  - reflexivity.
  - reflexivity.
  - reflexivity.
  - lia.
  - lia.
Defined.

Lemma X7_witness :
  ∃ W1 W2,
    calculate_moving_averages 1 20 50
      (world_of (loaded_quotes [1; 2; 3]%Z "Close" (DatetimeSeries [1; 2; 3]%Z))) =
      (Raise (DataError "No numeric types to aggregate"), W1) ∧
    calculate_bollinger_bands 1 20 2
      (world_of (loaded_quotes [1; 2; 3]%Z "Close" (DatetimeSeries [1; 2; 3]%Z))) =
      (Raise (DataError "No numeric types to aggregate"), W2) ∧
    frames W1 =
      frames (world_of (loaded_quotes [1; 2; 3]%Z "Close" (DatetimeSeries [1; 2; 3]%Z))) ∧
    frames W2 =
      frames (world_of (loaded_quotes [1; 2; 3]%Z "Close" (DatetimeSeries [1; 2; 3]%Z))).
Proof.
  apply (X7_close_not_numeric
           (world_of (loaded_quotes [1; 2; 3]%Z "Close" (DatetimeSeries [1; 2; 3]%Z)))
           1%positive
           (loaded_quotes [1; 2; 3]%Z "Close" (DatetimeSeries [1; 2; 3]%Z))
           (DatetimeSeries [1; 2; 3]%Z) 20%Z 50%Z 20%Z 2%R).
  - reflexivity.
  - reflexivity.
  - reflexivity.
  - lia.
  - lia.
Defined.

Lemma X8_witness :
  ∃ A B dfA dfB,
    (let! d := calculate_moving_averages 1 2 3 in
     calculate_bollinger_bands d 2 2) (world_of (frame_of_closes [4; 2; 6]%R))
      = (Ok 1%positive, A) ∧
    (let! d := calculate_bollinger_bands 1 2 2 in
     calculate_moving_averages d 2 3) (world_of (frame_of_closes [4; 2; 6]%R))
      = (Ok 1%positive, B) ∧
    screen A = [] ∧ screen B = [] ∧
    (∀ r, r ≠ 1%positive →
          frames A !! r = frames (world_of (frame_of_closes [4; 2; 6]%R)) !! r ∧
          frames B !! r = frames (world_of (frame_of_closes [4; 2; 6]%R)) !! r) ∧
    frames A !! 1%positive = Some dfA ∧ frames B !! 1%positive = Some dfB ∧
    df_index dfA = RangeIndex 3 ∧ df_index dfB = RangeIndex 3 ∧
    (∀ c, df_columns dfA !! c = df_columns dfB !! c) ∧
    df_columns dfA !! sma_name 2 =
      Some (FloatSeries (roll_mean (Z.to_nat 2) (Some <$> [4; 2; 6]%R))) ∧
    df_columns dfA !! sma_name 3 =
      Some (FloatSeries (roll_mean (Z.to_nat 3) (Some <$> [4; 2; 6]%R))) ∧
    df_columns dfA !! "Bollinger_High" =
      Some (FloatSeries (bollinger_high (Z.to_nat 2) 2 (Some <$> [4; 2; 6]%R))) ∧
    df_columns dfA !! "Bollinger_Low" =
      Some (FloatSeries (bollinger_low (Z.to_nat 2) 2 (Some <$> [4; 2; 6]%R))) ∧
    (∀ c, c ≠ sma_name 2 → c ≠ sma_name 3 →
          c ≠ "Bollinger_High" → c ≠ "Bollinger_Low" →
          df_columns dfA !! c = df_columns (frame_of_closes [4; 2; 6]%R) !! c).
Proof.
  apply (X8_calculators_in_either_order
           (world_of (frame_of_closes [4; 2; 6]%R)) 1%positive
           (frame_of_closes [4; 2; 6]%R) (FloatSeries (Some <$> [4; 2; 6]%R))
           (Some <$> [4; 2; 6]%R) 2%Z 3%Z 2%Z 2%R).
  - reflexivity.
  - reflexivity.
  - reflexivity.
  - lia.
  - lia.
  - lia.
Defined.

Lemma X9_witness :
  ∃ r W',
    main (λ _ _ _, Ok (quotes [1; 2; 3]%Z [4; 2; 6]%R)) (λ s, Ok s) true
      "AAPL" 0 730 (world_of (frame_of_closes [])) = (Ok (), W') ∧
    frames (world_of (frame_of_closes [])) !! r = None ∧
    frames W' =
      <[r := analysed_frame (quotes [1; 2; 3]%Z [4; 2; 6]%R)
               (DatetimeSeries [1; 2; 3]%Z) (Some <$> [4; 2; 6]%R)]>
        (frames (world_of (frame_of_closes []))) ∧
    entered W' = [] ++ ["calculate_moving_averages"; "calculate_bollinger_bands"] ∧
    screen W' =
      [] ++ analysis_page "AAPL" (DatetimeSeries [1; 2; 3]%Z)
              (FloatSeries (Some <$> [4; 2; 6]%R)) (Some <$> [4; 2; 6]%R)
         ++ raw_data_table true
              (analysed_frame (quotes [1; 2; 3]%Z [4; 2; 6]%R)
                 (DatetimeSeries [1; 2; 3]%Z) (Some <$> [4; 2; 6]%R)).
Proof.
  apply (X9_main_draws_analysis
           (λ _ _ _, Ok (quotes [1; 2; 3]%Z [4; 2; 6]%R)) (λ s, Ok s) true
           "AAPL" 0%Z 730%Z (world_of (frame_of_closes []))
           (quotes [1; 2; 3]%Z [4; 2; 6]%R)
           (DatetimeSeries [1; 2; 3]%Z) (DatetimeSeries [1; 2; 3]%Z)
           (FloatSeries (Some <$> [4; 2; 6]%R)) (Some <$> [4; 2; 6]%R)).
  - reflexivity.
  - reflexivity.
  - reflexivity.
  - reflexivity.
  - reflexivity.
  - reflexivity.
  - reflexivity.
Defined.

Lemma X10_witness :
  ∃ W',
    main (λ _ _ _, Ok (unnamed_quotes [1; 2; 3]%Z [4; 2; 6]%R)) (λ s, Ok s) false
      "AAPL" 0 730 (world_of (frame_of_closes [])) = (Raise (KeyError "Date"), W') ∧
    screen W' = [] ∧ entered W' = [].
Proof.
  apply (X10_main_needs_date
           (λ _ _ _, Ok (unnamed_quotes [1; 2; 3]%Z [4; 2; 6]%R)) (λ s, Ok s) false
           "AAPL" 0%Z 730%Z (world_of (frame_of_closes []))
           (unnamed_quotes [1; 2; 3]%Z [4; 2; 6]%R)).
  - reflexivity.
  - reflexivity.
  - reflexivity.
  - discriminate.
  - reflexivity.
Defined.

Lemma X11_witness :
  ∃ W',
    main (λ _ _ _, Ok (quotes_without_close [1; 2; 3]%Z [4; 2; 6]%R)) (λ s, Ok s) false
      "AAPL" 0 730 (world_of (frame_of_closes [])) = (Raise (KeyError "Close"), W') ∧
    screen W' = [] ∧ entered W' = [] ++ ["calculate_moving_averages"].
Proof.
  apply (X11_main_needs_close
           (λ _ _ _, Ok (quotes_without_close [1; 2; 3]%Z [4; 2; 6]%R)) (λ s, Ok s) false
           "AAPL" 0%Z 730%Z (world_of (frame_of_closes []))
           (quotes_without_close [1; 2; 3]%Z [4; 2; 6]%R)
           (DatetimeSeries [1; 2; 3]%Z) (DatetimeSeries [1; 2; 3]%Z)).
  - reflexivity.
  - reflexivity.
  - reflexivity.
  - reflexivity.
  - reflexivity.
  - reflexivity.
Defined.

Lemma X12_witness :
  ∃ W',
    main (λ _ _ _, Ok (quotes [1; 2; 3]%Z [4; 2; 6]%R))
      (λ _, Raise (ValueError "unknown datetime string format")) false
      "AAPL" 0 730 (world_of (frame_of_closes []))
      = (Raise (ValueError "unknown datetime string format"), W') ∧
    screen W' = [] ∧ entered W' = [].
Proof.
  apply (X12_main_date_parse_error
           (λ _ _ _, Ok (quotes [1; 2; 3]%Z [4; 2; 6]%R))
           (λ _, Raise (ValueError "unknown datetime string format")) false
           "AAPL" 0%Z 730%Z (world_of (frame_of_closes []))
           (quotes [1; 2; 3]%Z [4; 2; 6]%R) (DatetimeSeries [1; 2; 3]%Z)).
  - reflexivity.
  - reflexivity.
  - reflexivity.
  - reflexivity.
  - reflexivity.
Defined.

Lemma X13_witness :
  (∀ w, w = 0%Z ∨ w = 5%Z →
     ∃ col, result_column
              (calculate_moving_averages 1 0 5
                 (world_of (frame_of_cells [Some 4; None; Some 6]%R)))
              (sma_name w) = Some (FloatSeries col) ∧
            length col = series_len (FloatSeries [Some 4; None; Some 6]%R)) ∧
  (∀ c, c = "Bollinger_High" ∨ c = "Bollinger_Low" →
     ∃ col, result_column
              (calculate_bollinger_bands 1 2 2
                 (world_of (frame_of_cells [Some 4; None; Some 6]%R))) c
              = Some (FloatSeries col) ∧
            length col = series_len (FloatSeries [Some 4; None; Some 6]%R)).
Proof.
  apply (X13_derived_columns_aligned
           (world_of (frame_of_cells [Some 4; None; Some 6]%R)) 1%positive
           (frame_of_cells [Some 4; None; Some 6]%R)
           (FloatSeries [Some 4; None; Some 6]%R) [Some 4; None; Some 6]%R
           0%Z 5%Z 2%Z 2%R).
  - reflexivity.
  - reflexivity.
  - reflexivity.
  - lia.
  - lia.
  - lia.
Defined.

Lemma X14_witness :
  ∃ sma upper lower,
    result_column
      (calculate_moving_averages 1 2 2 (world_of (frame_of_closes [4; 2; 6]%R)))
      (sma_name 2) = Some (FloatSeries sma) ∧
    result_column
      (calculate_bollinger_bands 1 2 3 (world_of (frame_of_closes [4; 2; 6]%R)))
      "Bollinger_High" = Some (FloatSeries upper) ∧
    result_column
      (calculate_bollinger_bands 1 2 3 (world_of (frame_of_closes [4; 2; 6]%R)))
      "Bollinger_Low" = Some (FloatSeries lower) ∧
    ∀ i (u l : R), upper !! i = Some (Some u) → lower !! i = Some (Some l) →
      ∃ m : R, sma !! i = Some (Some m) ∧
               ((0 <= 3)%R → (l <= m <= u)%R).
Proof.
  apply (X14_bands_enclose_average
           (world_of (frame_of_closes [4; 2; 6]%R)) 1%positive
           (frame_of_closes [4; 2; 6]%R) (FloatSeries (Some <$> [4; 2; 6]%R))
           (Some <$> [4; 2; 6]%R) 2%Z 3%R).
  - reflexivity.
  - reflexivity.
  - reflexivity.
  - lia.
Defined.

Lemma X15_witness :
  ∃ sma upper lower,
    result_column
      (calculate_moving_averages 1 2 5
         (world_of (frame_of_cells [Some 4; None; Some 6; Some 7]%R)))
      (sma_name 2) = Some (FloatSeries sma) ∧
    result_column
      (calculate_bollinger_bands 1 2 2
         (world_of (frame_of_cells [Some 4; None; Some 6; Some 7]%R)))
      "Bollinger_High" = Some (FloatSeries upper) ∧
    result_column
      (calculate_bollinger_bands 1 2 2
         (world_of (frame_of_cells [Some 4; None; Some 6; Some 7]%R)))
      "Bollinger_Low" = Some (FloatSeries lower) ∧
    sma !! 2 = Some None ∧ upper !! 2 = Some None ∧ lower !! 2 = Some None.
Proof.
  apply (X15_nan_blanks_its_windows
           (world_of (frame_of_cells [Some 4; None; Some 6; Some 7]%R)) 1%positive
           (frame_of_cells [Some 4; None; Some 6; Some 7]%R)
           (FloatSeries [Some 4; None; Some 6; Some 7]%R)
           [Some 4; None; Some 6; Some 7]%R 2%Z 5%Z 2%R 2 1).
  - reflexivity.
  - reflexivity.
  - reflexivity.
  - lia.
  - lia.
  - simpl. lia.
  - reflexivity.
  - lia.
  - lia.
Defined.

Lemma X16_witness :
  (∀ w, w = 2%Z ∨ w = 3%Z →
     ∃ a b,
       result_column
         (calculate_moving_averages 1 2 3 (world_of (frame_of_cells [Some 4; Some 2]%R)))
         (sma_name w) = Some (FloatSeries a) ∧
       result_column
         (calculate_moving_averages 1 2 3
            (world_of (frame_of_cells ([Some 4; Some 2] ++ [Some 6; None])%R)))
         (sma_name w) = Some (FloatSeries b) ∧
       b !! 1 = a !! 1) ∧
  (∀ c, c = "Bollinger_High" ∨ c = "Bollinger_Low" →
     ∃ a b,
       result_column
         (calculate_bollinger_bands 1 2 2 (world_of (frame_of_cells [Some 4; Some 2]%R))) c
         = Some (FloatSeries a) ∧
       result_column
         (calculate_bollinger_bands 1 2 2
            (world_of (frame_of_cells ([Some 4; Some 2] ++ [Some 6; None])%R))) c
         = Some (FloatSeries b) ∧
       b !! 1 = a !! 1).
Proof.
  apply (X16_no_look_ahead
           (world_of (frame_of_cells [Some 4; Some 2]%R))
           (world_of (frame_of_cells ([Some 4; Some 2] ++ [Some 6; None])%R))
           1%positive 1%positive
           (frame_of_cells [Some 4; Some 2]%R)
           (frame_of_cells ([Some 4; Some 2] ++ [Some 6; None])%R)
           [Some 4; Some 2]%R [Some 6; None]%R 2%Z 3%Z 2%Z 2%R 1).
  - reflexivity.
  - reflexivity.
  - reflexivity.
  - reflexivity.
  - lia.
  - lia.
  - lia.
  - simpl. lia.
Defined.

Lemma X19_witness :
  ∃ t, tail 1 100 (world_of (frame_of_closes [4; 2; 6]%R))
         = (Ok t, world_of (frame_of_closes [4; 2; 6]%R)) ∧
       dom (df_columns t) = dom (df_columns (frame_of_closes [4; 2; 6]%R)) ∧
       ∀ c s, df_columns (frame_of_closes [4; 2; 6]%R) !! c = Some s →
         ∃ s', df_columns t !! c = Some s' ∧
               series_len s' = Nat.min 100 (series_len s) ∧
               series_ends_with s s' ∧
               (series_len s ≤ 100 → s' = s).
Proof.
  apply (X19_raw_table_last_rows
           (world_of (frame_of_closes [4; 2; 6]%R)) 1%positive
           (frame_of_closes [4; 2; 6]%R)).
  reflexivity.
Defined.

End Instances.

(** ** The loop of the kernels *)

Section SlidingFacts.
Import Kernel.
Context {T St : Type} (A : Arith T).
Variable setup : T → St.
Variable add remove : T → St → St.
Variable calc : St → T.

(** What the state is to record of the cells of a window. *)
Variable Inv : list T → St → Prop.
Hypothesis Inv_setup : ∀ p, Inv [] (setup p).
Hypothesis Inv_add : ∀ cells v st, Inv cells st → Inv (cells ++ [v]) (add v st).
Hypothesis Inv_remove : ∀ v cells st, Inv (v :: cells) st → Inv cells (remove v st).

Lemma slice_split {X} (a b c : nat) (l : list X) :
  a ≤ b → b ≤ c → slice a c l = slice a b l ++ slice b c l.
Proof.
  intros Hab Hbc. unfold slice.
  replace (c - a) with ((b - a) + (c - b)) by lia.
  rewrite <- take_take_drop, drop_drop. do 3 f_equal. lia.
Qed.

Lemma fold_add cells st l :
  Inv cells st → Inv (cells ++ l) (foldl (λ st v, add v st) st l).
Proof.
  revert cells st. induction l as [|v l IH]; intros cells st HI; cbn.
  - by rewrite app_nil_r.
  - rewrite cons_middle, (assoc_L (++)). apply IH. by apply Inv_add.
Qed.

Lemma fold_remove cells st l :
  Inv (l ++ cells) st → Inv cells (foldl (λ st v, remove v st) st l).
Proof.
  revert st. induction l as [|v l IH]; intros st HI; cbn; [done|].
  apply IH. by apply Inv_remove.
Qed.

Lemma row_inv w values i st :
  (i = 0 ∨ Inv (window_cells w values (i - 1)) st) →
  Inv (window_cells w values i) (row A setup add remove w values i st).
Proof.
  intros Hprev. unfold row, window_cells.
  destruct ((i =? 0) || (i <=? start_of w i)) eqn:Hfresh.
  - apply (fold_add [] _ _), Inv_setup.
  - apply orb_false_iff in Hfresh as [H0 Hs].
    apply Nat.eqb_neq in H0. apply Nat.leb_gt in Hs.
    destruct Hprev as [->|Hprev]; [congruence|].
    unfold window_cells in Hprev. unfold start_of in *.
    replace (i - 1 + 1) with i in * by lia.
    rewrite (slice_split (i + 1 - w) i (i + 1)) by lia.
    apply fold_add, fold_remove.
    rewrite <- slice_split by lia. done.
Qed.

Lemma loop_inv w values len : ∀ a st,
  (a = 0 ∨ Inv (window_cells w values (a - 1)) st) →
  Forall2 (λ i out, ∃ st', Inv (window_cells w values i) st' ∧ out = calc st')
    (seq a len) (loop A setup add remove calc w values (seq a len) st).
Proof.
  induction len as [|len IH]; intros a st Hprev; cbn; [constructor|].
  constructor.
  - eexists. split; [by apply row_inv|done].
  - apply IH. right. replace (S a - 1) with a by lia. by apply row_inv.
Qed.

(** Every row of the output is computed from a state that records the
    window of that row. *)
Lemma sliding_inv w values :
  Forall2 (λ i out, ∃ st', Inv (window_cells w values i) st' ∧ out = calc st')
    (seq 0 (length values)) (sliding A setup add remove calc w values).
Proof. unfold sliding. apply loop_inv. by left. Qed.

Lemma length_sliding w values :
  length (sliding A setup add remove calc w values) = length values.
Proof.
  pose proof (Forall2_length _ _ _ (sliding_inv w values)) as H.
  by rewrite length_seq in H.
Qed.

Lemma sliding_lookup w values i :
  i < length values →
  ∃ st', Inv (window_cells w values i) st' ∧
         sliding A setup add remove calc w values !! i = Some (calc st').
Proof.
  intros Hi.
  destruct (lookup_lt_is_Some_2 (sliding A setup add remove calc w values) i)
    as [out Hout]; [by rewrite length_sliding|].
  destruct (Forall2_lookup_r _ _ _ _ _ (sliding_inv w values) Hout)
    as (j & Hj & st' & HI & ->).
  apply lookup_seq in Hj as [-> _]. eauto.
Qed.

End SlidingFacts.

(** ** What holds of the kernels in any arithmetic *)

Section KernelCounts.
Import Kernel.
Context {T : Type} (A : Arith T).

Lemma count_numbers_app (l k : list T) :
  count_numbers A (l ++ k) = count_numbers A l + count_numbers A k.
Proof. unfold count_numbers, numbers. by rewrite filter_app, length_app. Qed.

Lemma count_numbers_cons v (l : list T) :
  count_numbers A (v :: l) =
    (if is_number A v then 1 else 0) + count_numbers A l.
Proof.
  unfold count_numbers, numbers. rewrite filter_cons.
  destruct (decide (Is_true (is_number A v))) as [H|H];
    destruct (is_number A v); cbn in *; done.
Qed.

Lemma count_numbers_le (l : list T) : count_numbers A l ≤ length l.
Proof. unfold count_numbers, numbers. apply length_filter. Qed.

Lemma length_slice {X} a b (l : list X) : length (slice a b l) ≤ b - a.
Proof. unfold slice. rewrite length_take. lia. Qed.

Lemma length_prep_values (column : list T) :
  length (prep_values A column) = length column.
Proof. unfold prep_values. by rewrite length_fmap. Qed.

Lemma mean_counts_add cells v st :
  mean_counts A cells st → mean_counts A (cells ++ [v]) (add_mean A v st).
Proof.
  unfold mean_counts, add_mean. intros H.
  rewrite count_numbers_app, count_numbers_cons. unfold is_number.
  destruct (num_eqb A v v); cbn; unfold count_numbers, numbers in *; cbn; lia.
Qed.

Lemma mean_counts_remove v cells st :
  mean_counts A (v :: cells) st → mean_counts A cells (remove_mean A v st).
Proof.
  unfold mean_counts, remove_mean. intros H.
  rewrite count_numbers_cons in H. unfold is_number in H.
  destruct (num_eqb A v v); cbn in *; lia.
Qed.

Lemma var_counts_add cells v st :
  var_counts A cells st → var_counts A (cells ++ [v]) (add_var A v st).
Proof.
  unfold var_counts, add_var. intros H.
  rewrite count_numbers_app, count_numbers_cons. unfold is_number.
  destruct (num_eqb A v v); cbn; unfold count_numbers, numbers in *; cbn; lia.
Qed.

Lemma var_counts_remove v cells st :
  var_counts A (v :: cells) st → var_counts A cells (remove_var A v st).
Proof.
  unfold var_counts, remove_var. intros H.
  rewrite count_numbers_cons in H. unfold is_number in H.
  destruct (num_eqb A v v); [|cbn in *; lia].
  destruct (v_nobs st - 1 =? 0)%Z; cbn in *; lia.
Qed.

Lemma length_rolling_mean w column :
  length (rolling_mean A w column) = length column.
Proof.
  unfold rolling_mean, roll_mean.
  rewrite (length_sliding A _ _ _ _ (λ _ _, True)) by done.
  apply length_prep_values.
Qed.

Lemma length_rolling_std w column :
  length (rolling_std A w column) = length column.
Proof.
  unfold rolling_std, roll_var. rewrite length_fmap.
  rewrite (length_sliding A _ _ _ _ (λ _ _, True)) by done.
  apply length_prep_values.
Qed.

(** A row whose window holds fewer numbers than the window size is NaN in
    the rolling mean. *)
Lemma rolling_mean_few w column i :
  i < length column →
  count_numbers A (window_cells w (prep_values A column) i) < w →
  rolling_mean A w column !! i = Some (num_nan A).
Proof.
  intros Hi Hfew. unfold rolling_mean, roll_mean.
  destruct (sliding_lookup A (mean_setup A) (add_mean A) (remove_mean A)
              (calc_mean A (Z.of_nat w)) (mean_counts A)
              ltac:(done) mean_counts_add mean_counts_remove
              w (prep_values A column) i) as (st & Hst & ->);
    [by rewrite length_prep_values|].
  f_equal. unfold calc_mean. unfold mean_counts in Hst. rewrite Hst.
  destruct (Z.leb_spec (Z.of_nat w)
              (Z.of_nat (count_numbers A (window_cells w (prep_values A column) i))));
    [lia|done].
Qed.

Lemma rolling_std_few w column i :
  Kernel.zsqrt A (num_nan A) = num_nan A →
  i < length column →
  count_numbers A (window_cells w (prep_values A column) i) < w →
  rolling_std A w column !! i = Some (num_nan A).
Proof.
  intros Hz Hi Hfew. unfold rolling_std, roll_var.
  destruct (sliding_lookup A (var_setup A) (add_var A) (remove_var A)
              (calc_var A (Z.max (Z.of_nat w) 1) 1) (var_counts A)
              ltac:(done) var_counts_add var_counts_remove
              w (prep_values A column) i) as (st & Hst & Hout);
    [by rewrite length_prep_values|].
  rewrite list_lookup_fmap, Hout. cbn. f_equal.
  unfold calc_var. unfold var_counts in Hst. rewrite Hst.
  destruct (Z.leb_spec (Z.max (Z.of_nat w) 1)
              (Z.of_nat (count_numbers A (window_cells w (prep_values A column) i))));
    [lia|done].
Qed.

Lemma window_cells_short {X} w (values : list X) i :
  i < w - 1 → length (window_cells w values i) < w.
Proof.
  intros Hi. unfold window_cells, start_of.
  pose proof (length_slice (i + 1 - w) (i + 1) values). lia.
Qed.

(** Before row [w - 1] the rolling mean and the rolling deviation are
    NaN. *)
Lemma rolling_mean_prefix w column i :
  i < w - 1 → i < length column →
  rolling_mean A w column !! i = Some (num_nan A).
Proof.
  intros Hpre Hi. apply rolling_mean_few; [done|].
  pose proof (count_numbers_le (window_cells w (prep_values A column) i)).
  pose proof (window_cells_short w (prep_values A column) i Hpre). lia.
Qed.


End KernelCounts.

(** ** The kernels in exact arithmetic *)

Section ExactMean.
Import Kernel Sums Rolling.
















End ExactMean.

Section ExactStd.
Import Kernel Sums Rolling.











End ExactStd.

(** ** The bands and the counts in any arithmetic *)

Section KernelBands.
Import Kernel.
Context {T : Type} (A : Arith T).
Hypothesis nan_not_number : is_number A (num_nan A) = false.





Lemma length_bands w k close :
  length (bollinger_high A w k close) = length close ∧
  length (bollinger_low A w k close) = length close.
Proof.
  unfold bollinger_high, bollinger_low.
  rewrite !length_zip_with, !length_fmap, length_rolling_mean, length_rolling_std.
  lia.
Qed.

(** Row by row the bands are the rolling mean plus and minus the product of
    the rolling deviation and the multiplier. *)
Lemma bands_lookup w k close i :
  i < length close →
  ∃ m s, rolling_mean A w close !! i = Some m ∧
         rolling_std A w close !! i = Some s ∧
         bollinger_high A w k close !! i =
           Some (num_add A m (num_mul A s k)) ∧
         bollinger_low A w k close !! i =
           Some (num_sub A m (num_mul A s k)).
Proof.
  intros Hi.
  destruct (lookup_lt_is_Some_2 (rolling_mean A w close) i) as [m Hm];
    [by rewrite length_rolling_mean|].
  destruct (lookup_lt_is_Some_2 (rolling_std A w close) i) as [s Hs];
    [by rewrite length_rolling_std|].
  exists m, s. unfold bollinger_high, bollinger_low.
  rewrite !lookup_zip_with, Hm, list_lookup_fmap, Hs. done.
Qed.

End KernelBands.

Section Binary64.
Import Kernel.


Lemma binary64_zsqrt_nan : zsqrt binary64 PrimFloat.nan = PrimFloat.nan.
Proof. reflexivity. Qed.

Lemma binary64_mul_nan k : PrimFloat.mul PrimFloat.nan k = PrimFloat.nan.
Proof.
  apply FloatAxioms.Prim2SF_inj. rewrite FloatAxioms.mul_spec. reflexivity.
Qed.

Lemma binary64_add_nan x : PrimFloat.add PrimFloat.nan x = PrimFloat.nan.
Proof.
  apply FloatAxioms.Prim2SF_inj. rewrite FloatAxioms.add_spec. reflexivity.
Qed.

Lemma binary64_sub_nan x : PrimFloat.sub PrimFloat.nan x = PrimFloat.nan.
Proof.
  apply FloatAxioms.Prim2SF_inj. rewrite FloatAxioms.sub_spec. reflexivity.
Qed.

Lemma binary64_bands_prefix w k close i :
  i < w - 1 → i < length close →
  bollinger_high binary64 w k close !! i = Some PrimFloat.nan ∧
  bollinger_low binary64 w k close !! i = Some PrimFloat.nan.
Proof.
  intros Hpre Hi.
  destruct (bands_lookup binary64 w k close i Hi) as (m & s & Hm & Hs & -> & ->).
  rewrite (rolling_mean_prefix binary64) in Hm by done.
  injection Hm as <-. cbn [num_add num_sub binary64 num_nan].
  by rewrite binary64_add_nan, binary64_sub_nan.
Qed.

End Binary64.

Section Binary64Zero.
Import Kernel.



End Binary64Zero.

Section ExactColumns.
Import Kernel Rolling Effects Observe.




End ExactColumns.

(** ** Windows of equal prices *)

Section FlatWindow.
Import Kernel.
Context {T : Type} (A : Arith T).

Lemma mean_run_setup p : mean_run A [] (mean_setup A p).
Proof.
  split; [done|]. split; [done|].
  intros suf c Hsuf Hne. apply suffix_nil_inv in Hsuf. done.
Qed.

Lemma mean_run_add cells v st :
  mean_run A cells st → mean_run A (cells ++ [v]) (add_mean A v st).
Proof.
  intros (Hn & Hpos & Hrun). split; [by apply mean_counts_add|].
  unfold add_mean. destruct (num_eqb A v v) eqn:Hv; cbn.
  - split; [destruct (num_eqb A v (m_prev_value st)); lia|].
    intros suf c Hsuf Hne Hall Hc.
    destruct suf as [|x suf _] using rev_ind; [done|].
    pose proof (suffix_snoc_inv_1 _ _ _ _ Hsuf) as ->.
    apply suffix_snoc_inv_2 in Hsuf.
    apply Forall_app in Hall as [Hall Hlast].
    apply Forall_singleton in Hlast as ->. split; [done|].
    rewrite length_app. cbn [length].
    destruct suf as [|y suf].
    + cbn. destruct (num_eqb A c (m_prev_value st)); lia.
    + destruct (Hrun (y :: suf) c Hsuf ltac:(done) Hall Hc) as [-> Hlen].
      rewrite Hc. lia.
  - split; [done|].
    intros suf c Hsuf Hne Hall Hc.
    destruct suf as [|x suf _] using rev_ind; [done|].
    pose proof (suffix_snoc_inv_1 _ _ _ _ Hsuf) as ->.
    apply Forall_app in Hall as [_ Hlast].
    apply Forall_singleton in Hlast as ->. congruence.
Qed.

Lemma mean_run_remove v cells st :
  mean_run A (v :: cells) st → mean_run A cells (remove_mean A v st).
Proof.
  intros (Hn & Hpos & Hrun). split; [by apply mean_counts_remove|].
  unfold remove_mean. destruct (num_eqb A v v); cbn; (split; [done|]);
    intros suf c Hsuf; apply Hrun; by apply suffix_cons_r.
Qed.

Lemma count_numbers_all (cells : list T) c :
  Forall (λ v, v = c) cells → num_eqb A c c = true →
  count_numbers A cells = length cells.
Proof.
  intros Hall Hc. induction Hall as [|v cells -> _ IH]; [done|].
  rewrite count_numbers_cons. unfold is_number. rewrite Hc, IH. done.
Qed.

(** A full window of one and the same number has that number as its rolling
    mean, whatever the arithmetic does to the running sum. *)
Lemma rolling_mean_flat w column i c :
  1 ≤ w → w - 1 ≤ i → i < length column →
  (∀ j, i + 1 - w ≤ j → j ≤ i → prep_values A column !! j = Some c) →
  num_eqb A c c = true →
  rolling_mean A w column !! i = Some c.
Proof.
  intros Hw Hge Hi Hflat Hc. unfold rolling_mean, roll_mean.
  destruct (sliding_lookup A (mean_setup A) (add_mean A) (remove_mean A)
              (calc_mean A (Z.of_nat w)) (mean_run A)
              mean_run_setup mean_run_add mean_run_remove
              w (prep_values A column) i) as (st & (Hn & Hpos & Hrun) & ->);
    [by rewrite length_prep_values|].
  f_equal.
  assert (length (window_cells w (prep_values A column) i) = w) as Hlen.
  { unfold window_cells, slice, start_of.
    rewrite length_take, length_drop, length_prep_values. lia. }
  assert (Forall (λ v, v = c) (window_cells w (prep_values A column) i)) as Hall.
  { apply Forall_lookup. intros j v Hj.
    unfold window_cells, slice, start_of in Hj.
    apply lookup_take_Some in Hj as [Hj Hlt]. rewrite lookup_drop in Hj.
    rewrite Hflat in Hj by lia. congruence. }
  destruct (Hrun (window_cells w (prep_values A column) i) c) as [Hprev Hcount];
    [done|by destruct (window_cells w (prep_values A column) i); [cbn in Hlen; lia|]
    |done|done|].
  rewrite (count_numbers_all _ c Hall Hc), Hlen in Hn. rewrite Hlen in Hcount.
  unfold calc_mean. rewrite Hn.
  destruct (Z.leb_spec (Z.of_nat w) (Z.of_nat w)); [|lia].
  destruct (Z.ltb_spec 0 (Z.of_nat w)); [|lia]. cbn [andb].
  destruct (Z.leb_spec (Z.of_nat w) (m_num_consecutive_same_value st)); [done|lia].
Qed.

End FlatWindow.

(** ** Single prices and missing prices *)

Section KernelEdges.
Import Kernel.
Context {T : Type} (A : Arith T).

(** A window that holds something that is not a number holds fewer numbers
    than cells. *)
Lemma count_numbers_lt (cells : list T) v :
  v ∈ cells → is_number A v = false → count_numbers A cells < length cells.
Proof.
  intros Hin Hv. induction cells as [|x cells IH]; [by apply elem_of_nil in Hin|].
  rewrite count_numbers_cons. cbn [length].
  pose proof (count_numbers_le A cells).
  apply elem_of_cons in Hin as [<-|Hin].
  - rewrite Hv. lia.
  - specialize (IH Hin). destruct (is_number A x); lia.
Qed.

Lemma window_cells_elem {X} w (values : list X) i j v :
  i + 1 - w ≤ j → j ≤ i → values !! j = Some v →
  v ∈ window_cells w values i.
Proof.
  intros Hlo Hhi Hv. unfold window_cells, slice, start_of.
  apply (list_elem_of_lookup_2 _ (j - (i + 1 - w))).
  rewrite lookup_take_lt by lia. rewrite lookup_drop.
  by replace (i + 1 - w + (j - (i + 1 - w))) with j by lia.
Qed.

Lemma length_window_cells {X} w (values : list X) i :
  length (window_cells w values i) ≤ w.
Proof.
  unfold window_cells, start_of.
  pose proof (length_slice (i + 1 - w) (i + 1) values). 
  unfold slice in *. rewrite length_take, length_drop in *. lia.
Qed.

(** A missing price in the window leaves fewer than [w] numbers in it. *)
Lemma window_with_gap w column i j v :
  i + 1 - w ≤ j → j ≤ i → prep_values A column !! j = Some v →
  is_number A v = false →
  count_numbers A (window_cells w (prep_values A column) i) < w.
Proof.
  intros Hlo Hhi Hv Hnum.
  pose proof (window_cells_elem w _ i j v Hlo Hhi Hv) as Hin.
  pose proof (count_numbers_lt _ v Hin Hnum).
  pose proof (length_window_cells w (prep_values A column) i). lia.
Qed.

(** With a window of 1 the rolling deviation never has the two observations
    it needs. *)
Lemma rolling_std_single column i :
  Kernel.zsqrt A (num_nan A) = num_nan A →
  i < length column →
  rolling_std A 1 column !! i = Some (num_nan A).
Proof.
  intros Hz Hi. unfold rolling_std, roll_var.
  destruct (sliding_lookup A (var_setup A) (add_var A) (remove_var A)
              (calc_var A (Z.max (Z.of_nat 1) 1) 1) (var_counts A)
              ltac:(done) (var_counts_add A) (var_counts_remove A)
              1 (prep_values A column) i) as (st & Hst & Hout);
    [by rewrite length_prep_values|].
  rewrite list_lookup_fmap, Hout. cbn [fmap option_fmap option_map]. f_equal.
  unfold calc_var. unfold var_counts in Hst. rewrite Hst.
  pose proof (count_numbers_le A (window_cells 1 (prep_values A column) i)).
  pose proof (length_window_cells 1 (prep_values A column) i).
  destruct (Z.ltb_spec 1
              (Z.of_nat (count_numbers A (window_cells 1 (prep_values A column) i))));
    [lia|]. by rewrite andb_false_r.
Qed.

End KernelEdges.

Section Binary64Facts.
Import Kernel.

Lemma binary64_add_nan_r x : PrimFloat.add x PrimFloat.nan = PrimFloat.nan.
Proof.
  apply FloatAxioms.Prim2SF_inj. rewrite FloatAxioms.add_spec.
  change (FloatOps.Prim2SF PrimFloat.nan) with SpecFloat.S754_nan.
  unfold FloatAxioms.SF64add. by destruct (FloatOps.Prim2SF x).
Qed.

Lemma binary64_sub_nan_r x : PrimFloat.sub x PrimFloat.nan = PrimFloat.nan.
Proof.
  apply FloatAxioms.Prim2SF_inj. rewrite FloatAxioms.sub_spec.
  change (FloatOps.Prim2SF PrimFloat.nan) with SpecFloat.S754_nan.
  unfold FloatAxioms.SF64sub. by destruct (FloatOps.Prim2SF x).
Qed.

(** What [_prep_values] leaves of a price that is NaN or infinite is not a
    number. *)
Lemma binary64_prep_gap column j v :
  column !! j = Some v →
  (v =? v)%float = false ∨ PrimFloat.is_infinity v = true →
  ∃ v', prep_values binary64 column !! j = Some v' ∧
        is_number binary64 v' = false.
Proof.
  intros Hv Hgap. unfold prep_values. rewrite list_lookup_fmap, Hv.
  cbn [fmap option_fmap option_map num_is_inf binary64 num_nan].
  eexists. split; [done|].
  destruct (PrimFloat.is_infinity v) eqn:Hinf; [done|].
  destruct Hgap as [Hnan|]; [|done]. exact Hnan.
Qed.


End Binary64Facts.

(** ** Rounding to nearest is monotone *)

Section ShiftFacts.
Import SpecFloat Shift.
Local Open Scope Z_scope.

Lemma shr_1_shift mrs : 0 ≤ shr_m mrs → shr_1 mrs = shift_by 1 mrs.
Proof.
  destruct mrs as [m r s]. cbn [shr_m]. intros Hm. unfold shift_by. cbn [shr_m shr_r shr_s].
  change (1 - 1) with 0. change (2 ^ 0) with 1. rewrite Z.mod_1_r. cbn [Z.eqb negb].
  rewrite orb_false_r. change (2 ^ 1) with 2.
  destruct m as [|p|p]; [done| |lia].
  destruct p as [p|p|]; cbn [shr_1]; f_equal; try done.
  - rewrite Pos2Z.inj_xI. apply Z.div_unique with 1; lia.
  - rewrite Pos2Z.inj_xO. apply Z.div_unique with 0; lia.
Qed.

Lemma mod_pow2_split (m a b : Z) :
  0 ≤ a → 0 ≤ b →
  m mod 2 ^ (a + b) = m mod 2 ^ b + 2 ^ b * ((m / 2 ^ b) mod 2 ^ a).
Proof.
  intros Ha Hb. rewrite (Z.add_comm a b), Z.pow_add_r by lia.
  apply Z.rem_mul_r; [apply Z.pow_nonzero; lia|apply Z.pow_pos_nonneg; lia].
Qed.

Lemma testbit_odd_div (m k : Z) : 0 ≤ k → Z.testbit m k = Z.odd (m / 2 ^ k).
Proof.
  intros Hk. rewrite <- Z.bit0_odd, Z.div_pow2_bits by lia. by rewrite Z.add_0_l.
Qed.

Lemma odd_mod2 (q : Z) : q mod 2 = if Z.odd q then 1 else 0.
Proof. rewrite Zmod_odd. done. Qed.

Lemma sticky_split (m a b : Z) :
  0 ≤ a → 0 ≤ b →
  negb (m mod 2 ^ (a + b) =? 0) =
    negb (m mod 2 ^ b =? 0) || negb ((m / 2 ^ b) mod 2 ^ a =? 0).
Proof.
  intros Ha Hb. rewrite mod_pow2_split by done.
  assert (0 < 2 ^ b) by (apply Z.pow_pos_nonneg; lia).
  assert (0 < 2 ^ a) by (apply Z.pow_pos_nonneg; lia).
  pose proof (Z.mod_pos_bound m (2 ^ b) ltac:(lia)).
  pose proof (Z.mod_pos_bound (m / 2 ^ b) (2 ^ a) ltac:(lia)).
  destruct (Z.eqb_spec (m mod 2 ^ b + 2 ^ b * ((m / 2 ^ b) mod 2 ^ a)) 0);
    destruct (Z.eqb_spec (m mod 2 ^ b) 0);
    destruct (Z.eqb_spec ((m / 2 ^ b) mod 2 ^ a) 0); cbn; try done; nia.
Qed.

Lemma shift_by_shift_by a b mrs :
  1 ≤ a → 1 ≤ b → 0 ≤ shr_m mrs →
  shift_by a (shift_by b mrs) = shift_by (a + b) mrs.
Proof.
  intros Ha Hb Hm. destruct mrs as [m r s]. unfold shift_by. cbn [shr_m shr_r shr_s] in *.
  assert (0 < 2 ^ b) by (apply Z.pow_pos_nonneg; lia).
  assert (0 < 2 ^ a) by (apply Z.pow_pos_nonneg; lia).
  f_equal.
  - rewrite Z.div_div by lia. by rewrite <- Z.pow_add_r, (Z.add_comm b a) by lia.
  - rewrite Z.div_pow2_bits by lia. f_equal. lia.
  - replace (a + b - 1) with ((a - 1) + b) by lia.
    rewrite (sticky_split m (a - 1) b) by lia.
    replace b with (1 + (b - 1)) at 4 by lia.
    rewrite (sticky_split m 1 (b - 1)) by lia.
    change (2 ^ 1) with 2. rewrite odd_mod2, <- testbit_odd_div by lia.
    destruct (Z.testbit m (b - 1)), r, s,
      (negb (m mod 2 ^ (b - 1) =? 0)),
      (negb ((m / 2 ^ b) mod 2 ^ (a - 1) =? 0)); done.
Qed.

Lemma shift_by_nonneg n mrs : 0 ≤ n → 0 ≤ shr_m mrs → 0 ≤ shr_m (shift_by n mrs).
Proof.
  intros Hn Hm. cbn. apply Z.div_pos; [done|]. apply Z.pow_pos_nonneg; lia.
Qed.

Lemma iter_pos_shr_1 (n : positive) : ∀ mrs,
  0 ≤ shr_m mrs → iter_pos shr_1 n mrs = shift_by (Z.pos n) mrs.
Proof.
  induction n as [n IH|n IH|]; intros mrs Hm; cbn [iter_pos].
  - rewrite shr_1_shift by done.
    rewrite (IH (shift_by 1 mrs)) by (apply shift_by_nonneg; lia).
    rewrite IH by (apply shift_by_nonneg; [lia|apply shift_by_nonneg; lia]).
    rewrite (shift_by_shift_by _ _ (shift_by 1 mrs));
      [|lia|lia|apply shift_by_nonneg; lia].
    rewrite shift_by_shift_by by lia. f_equal. lia.
  - rewrite (IH mrs) by done.
    rewrite IH by (apply shift_by_nonneg; lia).
    rewrite shift_by_shift_by by lia. f_equal. lia.
  - by apply shr_1_shift.
Qed.

End ShiftFacts.

Section RoundFacts.
Import SpecFloat Shift.
Local Open Scope Z_scope.

Lemma round_shift_eq M n :
  1 ≤ n → round_shift M n = M / 2 ^ n + (if rounds_up M n then 1 else 0).
Proof.
  intros Hn. unfold round_shift, rounds_up, shift_by. cbn [shr_m shr_r shr_s orb].
  assert (0 < 2 ^ (n - 1)) as Hh by (apply Z.pow_pos_nonneg; lia).
  pose proof (Z.mod_pos_bound M (2 ^ (n - 1)) Hh) as Hlow.
  assert (M mod 2 ^ n =
          M mod 2 ^ (n - 1) + 2 ^ (n - 1) * (if Z.testbit M (n - 1) then 1 else 0))
    as Hrem.
  { replace n with (1 + (n - 1)) at 1 by lia.
    rewrite mod_pow2_split by lia. change (2 ^ 1) with 2.
    by rewrite odd_mod2, <- testbit_odd_div by lia. }
  rewrite Hrem.
  destruct (Z.testbit M (n - 1)); destruct (Z.eqb_spec (M mod 2 ^ (n - 1)) 0) as [H0|H0];
    cbn [negb loc_of_shr_record round_nearest_even];
    rewrite <- ?Z.negb_odd;
    repeat match goal with
    | |- context [(?a <? ?b)] => destruct (Z.ltb_spec a b)
    | |- context [(?a =? ?b)] => destruct (Z.eqb_spec a b)
    end; cbn [orb andb]; try lia;
    destruct (Z.odd (M / 2 ^ n)); cbn [negb]; lia.
Qed.

Lemma round_shift_bounds M n :
  1 ≤ n → M / 2 ^ n ≤ round_shift M n ≤ M / 2 ^ n + 1.
Proof. intros Hn. rewrite round_shift_eq by done. destruct (rounds_up M n); lia. Qed.

Lemma round_shift_mono M1 M2 n :
  1 ≤ n → M1 ≤ M2 → round_shift M1 n ≤ round_shift M2 n.
Proof.
  intros Hn HM. rewrite !round_shift_eq by done.
  assert (0 < 2 ^ n) as Hp by (apply Z.pow_pos_nonneg; lia).
  assert (0 < 2 ^ (n - 1)) as Hh by (apply Z.pow_pos_nonneg; lia).
  pose proof (Z.div_le_mono M1 M2 (2 ^ n) Hp HM) as Hq.
  destruct (Z.eq_dec (M1 / 2 ^ n) (M2 / 2 ^ n)) as [Heq|Hne].
  - pose proof (Z.div_mod M1 (2 ^ n) ltac:(lia)) as H1.
    pose proof (Z.div_mod M2 (2 ^ n) ltac:(lia)) as H2.
    assert (M1 mod 2 ^ n ≤ M2 mod 2 ^ n) as Hrem by (rewrite Heq in H1; lia).
    unfold rounds_up. rewrite Heq.
    repeat match goal with
    | |- context [(?a <? ?b)] => destruct (Z.ltb_spec a b)
    | |- context [(?a =? ?b)] => destruct (Z.eqb_spec a b)
    end; cbn [orb andb]; try lia; destruct (Z.odd (M2 / 2 ^ n)); lia.
  - destruct (rounds_up M1 n), (rounds_up M2 n); lia.
Qed.

Lemma round_shift_exact q n : 1 ≤ n → round_shift (q * 2 ^ n) n = q.
Proof.
  intros Hn. rewrite round_shift_eq by done. unfold rounds_up.
  assert (0 < 2 ^ n) as Hp by (apply Z.pow_pos_nonneg; lia).
  assert (0 < 2 ^ (n - 1)) as Hh by (apply Z.pow_pos_nonneg; lia).
  rewrite Z.mod_mul, Z.div_mul by lia.
  destruct (Z.ltb_spec (2 ^ (n - 1)) 0); [lia|].
  destruct (Z.eqb_spec 0 (2 ^ (n - 1))); [lia|]. cbn. lia.
Qed.

Lemma digits2_size p : digits2_pos p = Pos.size p.
Proof. induction p as [p IH|p IH|]; cbn; by rewrite ?IH. Qed.

Lemma digits_bounds p :
  2 ^ (Z.pos (digits2_pos p) - 1) ≤ Z.pos p < 2 ^ Z.pos (digits2_pos p).
Proof.
  rewrite digits2_size. split.
  - pose proof (Pos.size_le p) as Hle.
    assert (Z.pos (2 ^ Pos.size p) ≤ Z.pos p~0) as HZ by lia.
    rewrite Pos2Z.inj_pow in HZ.
    replace (Z.pos (Pos.size p)) with ((Z.pos (Pos.size p) - 1) + 1) in HZ by lia.
    rewrite Z.pow_add_r in HZ by lia. change (2 ^ 1) with 2 in HZ. lia.
  - pose proof (Pos.size_gt p) as Hgt.
    assert (Z.pos p < Z.pos (2 ^ Pos.size p)) as HZ by lia.
    by rewrite Pos2Z.inj_pow in HZ.
Qed.

Lemma digits_unique p d :
  2 ^ (d - 1) ≤ Z.pos p < 2 ^ d → Z.pos (digits2_pos p) = d.
Proof.
  intros [Hlo Hhi]. pose proof (digits_bounds p) as [Hlo' Hhi'].
  destruct (Z.lt_trichotomy (Z.pos (digits2_pos p)) d) as [Hlt|[Heq|Hgt]]; [|done|].
  - assert (2 ^ Z.pos (digits2_pos p) ≤ 2 ^ (d - 1))
      by (apply Z.pow_le_mono_r; lia). lia.
  - assert (0 ≤ d ∨ d < 0) as [Hd|Hd] by lia.
    + assert (2 ^ d ≤ 2 ^ (Z.pos (digits2_pos p) - 1))
        by (apply Z.pow_le_mono_r; lia). lia.
    + rewrite Z.pow_neg_r in Hhi by done. lia.
Qed.

Lemma digits_mono p1 p2 :
  Z.pos p1 ≤ Z.pos p2 → Z.pos (digits2_pos p1) ≤ Z.pos (digits2_pos p2).
Proof.
  intros Hle. pose proof (digits_bounds p1) as [Hlo1 Hhi1].
  pose proof (digits_bounds p2) as [Hlo2 Hhi2].
  destruct (Z.le_gt_cases (Z.pos (digits2_pos p1)) (Z.pos (digits2_pos p2)));
    [done|].
  assert (2 ^ Z.pos (digits2_pos p2) ≤ 2 ^ (Z.pos (digits2_pos p1) - 1))
    by (apply Z.pow_le_mono_r; lia). lia.
Qed.

Lemma iter_xO_mul p d : Z.pos (Pos.iter xO p d) = Z.pos p * 2 ^ Z.pos d.
Proof.
  induction d as [|d IH] using Pos.peano_ind.
  - cbn. lia.
  - rewrite Pos.iter_succ, Pos2Z.inj_xO, IH, Pos2Z.inj_succ, Z.pow_succ_r by lia.
    lia.
Qed.

End RoundFacts.

Section BinaryRound.
Import SpecFloat Shift.
Local Open Scope Z_scope.
Variable prec emax : Z.
Hypothesis prec_pos : 0 < prec.

Lemma digits_iter_xO p d :
  Z.pos (digits2_pos (Pos.iter xO p d)) = Z.pos (digits2_pos p) + Z.pos d.
Proof.
  apply digits_unique. rewrite iter_xO_mul.
  pose proof (digits_bounds p) as [Hlo Hhi].
  replace (Z.pos (digits2_pos p) + Z.pos d - 1)
    with ((Z.pos (digits2_pos p) - 1) + Z.pos d) by lia.
  rewrite !Z.pow_add_r by lia.
  assert (0 < 2 ^ Z.pos d) by (apply Z.pow_pos_nonneg; lia). nia.
Qed.

Lemma fexp_ge_emin e : emin prec emax ≤ fexp prec emax e.
Proof. unfold fexp. lia. Qed.

Lemma fexp_ge e : e - prec ≤ fexp prec emax e.
Proof. unfold fexp. lia. Qed.

(** No shift when the mantissa has at most [prec] digits above a canonical
    exponent. *)
Lemma shr_fexp_fits m E :
  0 ≤ m → emin prec emax ≤ E → Zdigits2 m ≤ prec →
  shr_fexp prec emax m E loc_Exact =
    ({| shr_m := m; shr_r := false; shr_s := false |}, E).
Proof.
  intros Hm HE Hd. unfold shr_fexp, shr. cbn [shr_record_of_loc].
  assert (fexp prec emax (Zdigits2 m + E) - E ≤ 0) as Hle by (unfold fexp; lia).
  destruct (fexp prec emax (Zdigits2 m + E) - E); [done|lia|done].
Qed.

Lemma binary_round_aux_fits sx p E :
  fexp prec emax (Z.pos (digits2_pos p) + E) = E →
  binary_round_aux prec emax sx (Z.pos p) E loc_Exact =
    of_key prec emax sx (Z.pos p, E).
Proof.
  intros HE. unfold binary_round_aux.
  assert (shr_fexp prec emax (Z.pos p) E loc_Exact =
          ({| shr_m := Z.pos p; shr_r := false; shr_s := false |}, E)) as Hshr.
  { unfold shr_fexp, shr. cbn [Zdigits2 shr_record_of_loc].
    rewrite HE, Z.sub_diag. done. }
  rewrite Hshr. cbn [shr_m loc_of_shr_record round_nearest_even].
  rewrite Hshr. done.
Qed.

Lemma binary_round_key sx p e :
  binary_round prec emax sx p e = of_key prec emax sx (round_key prec emax p e).
Proof.
  unfold binary_round, shl_align, round_key. cbv zeta.
  set (d := Z.pos (digits2_pos p)).
  set (E := fexp prec emax (d + e)).
  destruct (E - e) as [|n|n] eqn:Hsub.
  - assert (E = e) as HEe by lia.
    destruct (Z.leb_spec E e); [|lia].
    rewrite binary_round_aux_fits by (fold d; fold E; lia).
    replace (e - E) with 0 by lia. rewrite Z.pow_0_r, Z.mul_1_r. by rewrite HEe.
  - destruct (Z.leb_spec E e); [lia|].
    unfold binary_round_aux.
    assert (shr_fexp prec emax (Z.pos p) e loc_Exact =
            (shift_by (Z.pos n)
               {| shr_m := Z.pos p; shr_r := false; shr_s := false |}, E)) as Hshr.
    { unfold shr_fexp, shr. cbn [Zdigits2 shr_record_of_loc].
      fold d. fold E. rewrite Hsub. rewrite iter_pos_shr_1 by (cbn; lia).
      f_equal. lia. }
    rewrite Hshr.
    change (round_nearest_even _ _) with (round_shift (Z.pos p) (Z.pos n)).
    replace (E - e) with (Z.pos n) by lia.
    set (q := round_shift (Z.pos p) (Z.pos n)).
    pose proof (round_shift_bounds (Z.pos p) (Z.pos n) ltac:(lia)) as [Hqlo Hqhi].
    fold q in Hqlo, Hqhi.
    assert (0 < 2 ^ Z.pos n) as Hpn by (apply Z.pow_pos_nonneg; lia).
    assert (0 < 2 ^ prec) as Hpp by (apply Z.pow_pos_nonneg; lia).
    assert (0 ≤ Z.pos p / 2 ^ Z.pos n) as Hfl0 by (apply Z.div_pos; lia).
    assert (Z.pos p / 2 ^ Z.pos n < 2 ^ prec) as Hfl.
    { apply Z.div_lt_upper_bound; [lia|].
      rewrite <- Z.pow_add_r by lia.
      pose proof (digits_bounds p) as [_ Hhi]. fold d in Hhi.
      pose proof (fexp_ge (d + e)). fold E in H0.
      assert (2 ^ d ≤ 2 ^ (Z.pos n + prec)) by (apply Z.pow_le_mono_r; lia).
      lia. }
    pose proof (fexp_ge_emin (d + e)) as HEmin. fold E in HEmin.
    destruct (Z.leb_spec (2 ^ prec) q) as [Hcarry|Hnocarry].
    + assert (q = 2 ^ prec) as Hq by lia.
      assert (Zdigits2 q = prec + 1) as Hdq.
      { destruct q as [|qp|qp]; [lia| |lia]. cbn [Zdigits2].
        apply digits_unique. rewrite Hq. replace (prec + 1 - 1) with prec by lia.
        split; [lia|]. apply Z.pow_lt_mono_r; lia. }
      assert (shr_fexp prec emax q E loc_Exact =
              (shift_by 1 {| shr_m := q; shr_r := false; shr_s := false |}, E + 1))
        as Hshr2.
      { unfold shr_fexp, shr. cbn [shr_record_of_loc]. rewrite Hdq.
        replace (fexp prec emax (prec + 1 + E) - E) with 1 by (unfold fexp; lia).
        rewrite iter_pos_shr_1 by (cbn; lia). done. }
      rewrite Hshr2. cbn [shift_by shr_m]. done.
    + assert (Zdigits2 q ≤ prec) as Hdq.
      { destruct q as [|qp|qp]; [cbn; lia| |lia]. cbn [Zdigits2].
        pose proof (digits_bounds qp) as [Hlo _].
        destruct (Z.le_gt_cases (Z.pos (digits2_pos qp)) prec); [done|].
        assert (2 ^ prec ≤ 2 ^ (Z.pos (digits2_pos qp) - 1))
          by (apply Z.pow_le_mono_r; lia). lia. }
      rewrite shr_fexp_fits by lia. done.
  - destruct (Z.leb_spec E e); [|lia].
    assert (e - E = Z.pos n) as Hn by lia.
    rewrite binary_round_aux_fits.
    + rewrite iter_xO_mul, Hn. done.
    + rewrite digits_iter_xO. fold d.
      replace (d + Z.pos n + E) with (d + e) by lia. done.
Qed.

End BinaryRound.

Section KeyOrder.
Import SpecFloat Shift.
Local Open Scope Z_scope.
Variable prec emax : Z.
Hypothesis prec_pos : 0 < prec.

Lemma pow2_half : 2 ^ prec / 2 = 2 ^ (prec - 1).
Proof.
  replace prec with (1 + (prec - 1)) at 1 by lia.
  rewrite Z.pow_add_r by lia. change (2 ^ 1) with 2.
  rewrite Z.mul_comm, Z.div_mul by lia. done.
Qed.

(** What is known of one key: its exponent is the canonical one or the next;
    its mantissa is not negative and below [2^prec]; after a carry it is
    [2^(prec-1)]; above the smallest exponent it has all [prec] digits. *)
Lemma round_key_facts p e :
  let d := Z.pos (digits2_pos p) in
  let E := fexp prec emax (d + e) in
  let k := round_key prec emax p e in
  0 ≤ fst k < 2 ^ prec ∧
  (snd k = E ∨ snd k = E + 1 ∧ fst k = 2 ^ (prec - 1)) ∧
  (emin prec emax < E → 2 ^ (prec - 1) ≤ fst k) ∧
  (E ≤ e → 0 < fst k).
Proof.
  cbv zeta. unfold round_key. cbv zeta.
  set (d := Z.pos (digits2_pos p)). set (E := fexp prec emax (d + e)).
  pose proof (digits_bounds p) as [Hlo Hhi]. fold d in Hlo, Hhi.
  assert (0 < 2 ^ prec) as Hpp by (apply Z.pow_pos_nonneg; lia).
  assert (0 < 2 ^ (prec - 1)) as Hph by (apply Z.pow_pos_nonneg; lia).
  assert (2 ^ prec = 2 * 2 ^ (prec - 1)) as Hdouble.
  { replace prec with (1 + (prec - 1)) at 1 by lia.
    rewrite Z.pow_add_r by lia. done. }
  pose proof (fexp_ge prec emax (d + e)) as HEge. fold E in HEge.
  destruct (Z.leb_spec E e) as [Hexact|Hround]; cbn [fst snd].
  - assert (0 < 2 ^ (e - E)) as Hs by (apply Z.pow_pos_nonneg; lia).
    split; [split; [lia|]|split; [by left|split; [|lia]]].
    + assert (Z.pos p * 2 ^ (e - E) < 2 ^ d * 2 ^ (e - E)) by nia.
      rewrite <- Z.pow_add_r in H by lia.
      assert (2 ^ (d + (e - E)) ≤ 2 ^ prec) by (apply Z.pow_le_mono_r; lia).
      lia.
    + intros Hnormal. assert (E = d + e - prec) as HE by (unfold E, fexp in *; lia).
      assert (2 ^ (d - 1) * 2 ^ (e - E) ≤ Z.pos p * 2 ^ (e - E)) by nia.
      rewrite <- Z.pow_add_r in H by lia.
      replace (d - 1 + (e - E)) with (prec - 1) in H by lia. done.
  - set (n := E - e). assert (1 ≤ n) as Hn by (unfold n; lia).
    set (q := round_shift (Z.pos p) n).
    pose proof (round_shift_bounds (Z.pos p) n Hn) as [Hqlo Hqhi].
    fold q in Hqlo, Hqhi.
    assert (0 < 2 ^ n) as Hpn by (apply Z.pow_pos_nonneg; lia).
    assert (0 ≤ Z.pos p / 2 ^ n) as Hfl0 by (apply Z.div_pos; lia).
    assert (Z.pos p / 2 ^ n < 2 ^ prec) as Hfl.
    { apply Z.div_lt_upper_bound; [lia|].
      rewrite <- Z.pow_add_r by lia.
      assert (2 ^ d ≤ 2 ^ (n + prec)) by (apply Z.pow_le_mono_r; lia).
      lia. }
    assert (emin prec emax < E → 2 ^ (prec - 1) ≤ Z.pos p / 2 ^ n) as Hnorm.
    { intros Hnormal.
      assert (E = d + e - prec) as HE by (unfold E, fexp in *; lia).
      apply Z.div_le_lower_bound; [lia|].
      rewrite <- Z.pow_add_r by lia.
      replace (n + (prec - 1)) with (d - 1) by lia. done. }
    destruct (Z.leb_spec (2 ^ prec) q) as [Hcarry|Hnocarry]; cbn [fst snd].
    + assert (q = 2 ^ prec) as -> by lia. rewrite pow2_half.
      split; [lia|]. split; [right; done|]. split; [lia|lia].
    + split; [lia|]. split; [by left|]. split; [|lia].
      intros Hnormal. specialize (Hnorm Hnormal). lia.
Qed.

Lemma round_key_mono p1 p2 e :
  Z.pos p1 ≤ Z.pos p2 →
  key_le (round_key prec emax p1 e) (round_key prec emax p2 e).
Proof.
  intros Hle.
  pose proof (round_key_facts p1 e) as (Hm1 & Hx1 & Hn1 & Hp1).
  pose proof (round_key_facts p2 e) as (Hm2 & Hx2 & Hn2 & Hp2).
  cbv zeta in *.
  pose proof (digits_mono p1 p2 Hle) as Hd.
  set (d1 := Z.pos (digits2_pos p1)) in *. set (d2 := Z.pos (digits2_pos p2)) in *.
  set (E1 := fexp prec emax (d1 + e)) in *. set (E2 := fexp prec emax (d2 + e)) in *.
  assert (E1 ≤ E2) as HE by (unfold E1, E2, fexp; lia).
  pose proof (fexp_ge_emin prec emax (d1 + e)) as Hmin1. fold E1 in Hmin1.
  assert (0 < 2 ^ (prec - 1)) as Hph by (apply Z.pow_pos_nonneg; lia).
  split; [lia|].
  destruct (Z.eq_dec E1 E2) as [Heq|Hne].
  - (* the same canonical exponent: the same shift *)
    clear Hm1 Hx1 Hn1 Hp1 Hm2 Hx2 Hn2 Hp2.
    unfold round_key. cbv zeta. fold d1 d2 E1 E2. rewrite <- Heq.
    destruct (Z.leb_spec E1 e) as [Hexact|Hround]; cbn [fst snd].
    + right. assert (0 < 2 ^ (e - E1)) by (apply Z.pow_pos_nonneg; lia).
      split; [lia|]. right. split; [done|nia].
    + pose proof (round_shift_mono (Z.pos p1) (Z.pos p2) (E1 - e) ltac:(lia) Hle)
        as Hq.
      pose proof (round_shift_bounds (Z.pos p1) (E1 - e) ltac:(lia)) as [Hq1 _].
      assert (0 < 2 ^ (E1 - e)) by (apply Z.pow_pos_nonneg; lia).
      assert (0 ≤ Z.pos p1 / 2 ^ (E1 - e)) by (apply Z.div_pos; lia).
      set (q1 := round_shift (Z.pos p1) (E1 - e)) in *.
      set (q2 := round_shift (Z.pos p2) (E1 - e)) in *.
      assert (2 ≤ 2 ^ prec) as Hpp.
      { change 2 with (2 ^ 1) at 1. apply Z.pow_le_mono_r; lia. }
      assert (q2 / 2 ≤ q2 ∧ (2 ≤ q2 → 0 < q2 / 2) ∧ q1 / 2 ≤ q2 / 2)
        as (Hh1 & Hh2 & Hh3).
      { split; [apply Z.div_le_upper_bound; lia|].
        split; [intros; apply Z.div_str_pos; lia|apply Z.div_le_mono; lia]. }
      destruct (Z.leb_spec (2 ^ prec) q1), (Z.leb_spec (2 ^ prec) q2);
        cbn [fst snd]; lia.
  - (* a larger canonical exponent: the second key is normal *)
    assert (emin prec emax < E2) as Hnormal by lia.
    specialize (Hn2 Hnormal). right. split; [lia|].
    destruct Hx1 as [Hx1|[Hx1 Hc1]], Hx2 as [Hx2|[Hx2 Hc2]]; lia.
Qed.

End KeyOrder.

Section Ordered.
Import SpecFloat Shift.
Local Open Scope Z_scope.
Variable prec emax : Z.
Hypothesis prec_pos : 0 < prec.

Ltac order_cases :=
  repeat match goal with
  | |- context [(?a <=? ?b)] => destruct (Z.leb_spec a b)
  | |- context [(?a ?= ?b)] => destruct (Z.compare_spec a b)
  | |- context [Pos.compare_cont Eq ?a ?b] =>
      change (Pos.compare_cont Eq a b) with (Pos.compare a b);
      destruct (Pos.compare_spec a b)
  end.

Lemma of_key_le_pos k1 k2 :
  key_le k1 k2 →
  SFleb (of_key prec emax false k1) (of_key prec emax false k2) = true.
Proof.
  destruct k1 as [m1 e1], k2 as [m2 e2]. unfold key_le, of_key. cbn [fst snd].
  intros [[H1 H2] Hle]. unfold SFleb, SFcompare.
  destruct m1 as [|m1|m1], m2 as [|m2|m2]; try lia; order_cases; try done; lia.
Qed.

Lemma of_key_le_neg k1 k2 :
  key_le k1 k2 →
  SFleb (of_key prec emax true k2) (of_key prec emax true k1) = true.
Proof.
  destruct k1 as [m1 e1], k2 as [m2 e2]. unfold key_le, of_key. cbn [fst snd].
  intros [[H1 H2] Hle]. unfold SFleb, SFcompare.
  destruct m1 as [|m1|m1], m2 as [|m2|m2]; try lia; order_cases;
    cbn [CompOpp]; try done; lia.
Qed.

Lemma of_key_neg_le_pos k1 k2 :
  0 ≤ fst k1 → 0 ≤ fst k2 →
  SFleb (of_key prec emax true k1) (of_key prec emax false k2) = true.
Proof.
  destruct k1 as [m1 e1], k2 as [m2 e2]. unfold of_key. cbn [fst snd].
  intros H1 H2. unfold SFleb, SFcompare.
  destruct m1 as [|m1|m1], m2 as [|m2|m2]; try lia; order_cases; done.
Qed.

Lemma of_key_neg_le_zero k sz :
  0 ≤ fst k → SFleb (of_key prec emax true k) (S754_zero sz) = true.
Proof.
  destruct k as [m e]. unfold of_key. cbn [fst snd]. intros H1.
  unfold SFleb, SFcompare. destruct m as [|m|m]; try lia; order_cases; done.
Qed.

Lemma zero_le_of_key_pos k sz :
  0 ≤ fst k → SFleb (S754_zero sz) (of_key prec emax false k) = true.
Proof.
  destruct k as [m e]. unfold of_key. cbn [fst snd]. intros H1.
  unfold SFleb, SFcompare. destruct m as [|m|m]; try lia; order_cases; done.
Qed.

Lemma round_key_nonneg p e : 0 ≤ fst (round_key prec emax p e).
Proof. pose proof (round_key_facts prec emax prec_pos p e) as [H _]. cbv zeta in H. lia. Qed.

(** Rounding is monotone: of two integers scaled by the same power of two,
    the smaller rounds to the smaller float. *)
Lemma binary_normalize_mono x1 x2 e :
  x1 ≤ x2 →
  SFleb (binary_normalize prec emax x1 e false)
        (binary_normalize prec emax x2 e false) = true.
Proof.
  intros Hle. unfold binary_normalize.
  destruct x1 as [|p1|p1], x2 as [|p2|p2]; try lia;
    rewrite ?(binary_round_key prec emax prec_pos).
  - done.
  - apply zero_le_of_key_pos, round_key_nonneg.
  - apply of_key_le_pos, round_key_mono; [done|lia].
  - apply of_key_neg_le_zero, round_key_nonneg.
  - apply of_key_neg_le_pos; apply round_key_nonneg.
  - apply of_key_le_neg, round_key_mono; [done|lia].
Qed.

End Ordered.

Section SubAdd.
Import SpecFloat Shift Sign.
Local Open Scope Z_scope.
Variable prec emax : Z.
Hypothesis prec_pos : 0 < prec.

Lemma SFleb_refl x : SFis_nan x = false → SFleb x x = true.
Proof.
  destruct x as [s|s| |s m e]; cbn; try done; intros _.
  - by destruct s.
  - unfold SFleb, SFcompare. rewrite Z.compare_refl, Pos.compare_cont_refl.
    by destruct s.
Qed.


End SubAdd.

Section Signs.
Import SpecFloat Sign.
Local Open Scope Z_scope.
Variable prec emax : Z.

Lemma binary_round_aux_nonneg mx ex lx :
  SFis_nan (binary_round_aux prec emax false mx ex lx) = false →
  SFnonneg (binary_round_aux prec emax false mx ex lx) = true.
Proof.
  unfold binary_round_aux.
  destruct (shr_fexp prec emax mx ex lx) as [mrs' e'].
  destruct (shr_fexp prec emax _ e' loc_Exact) as [mrs'' e''].
  destruct (shr_m mrs''); cbn; try done.
  by destruct (e'' <=? emax - prec).
Qed.

Lemma SFmul_nonneg x y :
  SFnonneg x = true → SFnonneg y = true →
  SFis_nan (SFmul prec emax x y) = false →
  SFnonneg (SFmul prec emax x y) = true.
Proof.
  destruct x as [sx|sx| |sx mx ex], y as [sy|sy| |sy my ey];
    cbn [SFnonneg SFmul]; try done;
    try (destruct sx; [done|]); try (destruct sy; [done|]); cbn; try done.
  intros _ _. apply binary_round_aux_nonneg.
Qed.

Lemma SFsqrt_nonneg x :
  SFis_nan (SFsqrt prec emax x) = false →
  SFnonneg (SFsqrt prec emax x) = true.
Proof.
  destruct x as [sx|sx| |sx mx ex]; cbn [SFsqrt]; try done.
  - by destruct sx.
  - destruct sx; [done|].
    destruct (SFsqrt_core_binary prec emax (Z.pos mx) ex) as [[mz ez] lz].
    apply binary_round_aux_nonneg.
Qed.

End Signs.

Section PrimFloats.
Import SpecFloat Sign.

Lemma leb_zero_nonneg (x : PrimFloat.float) :
  PrimFloat.leb PrimFloat.zero x = SFnonneg (FloatOps.Prim2SF x).
Proof.
  rewrite FloatAxioms.leb_spec.
  change (FloatOps.Prim2SF PrimFloat.zero) with (S754_zero false).
  destruct (FloatOps.Prim2SF x) as [s|s| |s m e]; cbn; try done; by destruct s.
Qed.

Lemma eqb_refl_not_nan (x : PrimFloat.float) :
  PrimFloat.eqb x x = negb (SFis_nan (FloatOps.Prim2SF x)).
Proof.
  rewrite FloatAxioms.eqb_spec.
  destruct (FloatOps.Prim2SF x) as [s|s| |s m e]; cbn; try done.
  - by destruct s.
  - unfold SFeqb, SFcompare. rewrite Z.compare_refl, Pos.compare_cont_refl.
    by destruct s.
Qed.


(** The product of two numbers that are not negative is not negative, when
    it is not NaN. *)
Lemma binary64_mul_nonneg (s k : PrimFloat.float) :
  PrimFloat.leb PrimFloat.zero s = true →
  PrimFloat.leb PrimFloat.zero k = true →
  PrimFloat.eqb (PrimFloat.mul s k) (PrimFloat.mul s k) = true →
  PrimFloat.leb PrimFloat.zero (PrimFloat.mul s k) = true.
Proof.
  rewrite !leb_zero_nonneg, !eqb_refl_not_nan, FloatAxioms.mul_spec.
  unfold FloatAxioms.SF64mul. intros Hs Hk Hn.
  apply SFmul_nonneg; [done|done|by apply negb_true_iff].
Qed.

(** A square root is not negative, when it is not NaN. *)
Lemma binary64_sqrt_nonneg (x : PrimFloat.float) :
  PrimFloat.eqb (PrimFloat.sqrt x) (PrimFloat.sqrt x) = true →
  PrimFloat.leb PrimFloat.zero (PrimFloat.sqrt x) = true.
Proof.
  rewrite leb_zero_nonneg, eqb_refl_not_nan, FloatAxioms.sqrt_spec.
  unfold FloatAxioms.SF64sqrt. intros Hn.
  apply SFsqrt_nonneg. by apply negb_true_iff.
Qed.

End PrimFloats.

Section RoundTrip.
Import SpecFloat Shift Sign.
Local Open Scope Z_scope.
Variable prec emax : Z.
Hypothesis prec_pos : 0 < prec.

Lemma shl_align_mul mx ex e :
  e ≤ ex → Z.pos (fst (shl_align mx ex e)) = Z.pos mx * 2 ^ (ex - e).
Proof.
  intros He. unfold shl_align.
  destruct (e - ex) as [|d|d] eqn:Hd; cbn [fst].
  - replace (ex - e) with 0 by lia. lia.
  - lia.
  - unfold shift_pos. rewrite iter_xO_mul. f_equal. f_equal. lia.
Qed.

(** A float of the format, written with a smaller exponent, rounds to
    itself. *)
Lemma round_key_valid mx ex e p :
  bounded prec emax mx ex = true → e ≤ ex →
  Z.pos p = Z.pos mx * 2 ^ (ex - e) →
  round_key prec emax p e = (Z.pos mx, ex).
Proof.
  unfold bounded, canonical_mantissa. intros Hb He Hp.
  apply andb_true_iff in Hb as [Hc _].
  apply Z.eqb_eq in Hc.
  pose proof (digits_bounds mx) as [Hlo Hhi].
  assert (0 < 2 ^ (ex - e)) as Hpow by (apply Z.pow_pos_nonneg; lia).
  assert (Z.pos (digits2_pos p) = Z.pos (digits2_pos mx) + (ex - e)) as Hd.
  { apply digits_unique. rewrite Hp.
    replace (Z.pos (digits2_pos mx) + (ex - e) - 1)
      with ((Z.pos (digits2_pos mx) - 1) + (ex - e)) by lia.
    rewrite !Z.pow_add_r by lia. nia. }
  assert (Z.pos (digits2_pos mx) ≤ prec) as Hprec.
  { pose proof (fexp_ge prec emax (Z.pos (digits2_pos mx) + ex)). lia. }
  unfold round_key. cbv zeta. rewrite Hd.
  replace (Z.pos (digits2_pos mx) + (ex - e) + e)
    with (Z.pos (digits2_pos mx) + ex) by lia.
  rewrite Hc. destruct (Z.leb_spec ex e) as [Hle|Hlt].
  - replace (ex - e) with 0 in Hp by lia. replace (e - ex) with 0 by lia.
    f_equal; lia.
  - rewrite Hp, round_shift_exact by lia.
    assert (2 ^ Z.pos (digits2_pos mx) ≤ 2 ^ prec)
      by (apply Z.pow_le_mono_r; lia).
    destruct (Z.leb_spec (2 ^ prec) (Z.pos mx)); [lia|done].
Qed.

Lemma binary_normalize_valid sx mx ex e :
  bounded prec emax mx ex = true → e ≤ ex →
  binary_normalize prec emax
    (cond_Zopp sx (Z.pos (fst (shl_align mx ex e)))) e false
  = S754_finite sx mx ex.
Proof.
  intros Hb He.
  pose proof (shl_align_mul mx ex e He) as Hp.
  pose proof (round_key_valid mx ex e _ Hb He Hp) as Hk.
  unfold bounded in Hb. apply andb_true_iff in Hb as [_ Hmax].
  apply Z.leb_le in Hmax.
  destruct sx; cbn [cond_Zopp]; rewrite ?Pos2Z.opp_pos;
    cbn [binary_normalize];
    rewrite (binary_round_key prec emax prec_pos), Hk;
    unfold of_key; cbn [fst snd];
    by destruct (Z.leb_spec ex (emax - prec)); [|lia].
Qed.

(** Adding a float that is not negative to a float of the format gives at
    least that float. *)
Lemma SFadd_ge x y :
  valid_binary prec emax x = true →
  SFnonneg y = true →
  SFis_nan (SFadd prec emax x y) = false →
  SFleb x (SFadd prec emax x y) = true.
Proof.
  destruct x as [sx|sx| |sx mx ex], y as [sy|sy| |sy my ey];
    cbn [SFnonneg negb SFadd SFadd SFopp valid_binary]; try done;
    try (destruct sy; [done|]); intros Hv _ Hn;
    try (by destruct sx); try (by destruct sx, sy);
    try (by apply SFleb_refl).
  cbv zeta.
  rewrite <- (binary_normalize_valid sx mx ex (Z.min ex ey))
    by (done || lia).
  apply (binary_normalize_mono prec emax prec_pos). cbn [cond_Zopp]. lia.
Qed.

(** Subtracting it gives at most that float. *)
Lemma SFsub_le x y :
  valid_binary prec emax x = true →
  SFnonneg y = true →
  SFis_nan (SFsub prec emax x y) = false →
  SFleb (SFsub prec emax x y) x = true.
Proof.
  destruct x as [sx|sx| |sx mx ex], y as [sy|sy| |sy my ey];
    cbn [SFnonneg negb SFsub SFadd SFopp valid_binary]; try done;
    try (destruct sy; [done|]); intros Hv _ Hn;
    try (by destruct sx); try (by destruct sx, sy);
    try (by apply SFleb_refl).
  cbv zeta.
  rewrite <- (binary_normalize_valid sx mx ex (Z.min ex ey))
    by (done || lia).
  apply (binary_normalize_mono prec emax prec_pos). cbn [cond_Zopp]. lia.
Qed.

End RoundTrip.

Section PrimFloatEnclose.
Import SpecFloat Sign.

Lemma binary64_add_ge (m t : PrimFloat.float) :
  PrimFloat.leb PrimFloat.zero t = true →
  PrimFloat.eqb (PrimFloat.add m t) (PrimFloat.add m t) = true →
  PrimFloat.leb m (PrimFloat.add m t) = true.
Proof.
  rewrite leb_zero_nonneg, eqb_refl_not_nan, FloatAxioms.leb_spec.
  rewrite FloatAxioms.add_spec. unfold FloatAxioms.SF64add.
  intros Ht Hu. apply SFadd_ge; [done| |done|].
  - apply FloatAxioms.Prim2SF_valid.
  - by apply negb_true_iff.
Qed.

Lemma binary64_sub_le (m t : PrimFloat.float) :
  PrimFloat.leb PrimFloat.zero t = true →
  PrimFloat.eqb (PrimFloat.sub m t) (PrimFloat.sub m t) = true →
  PrimFloat.leb (PrimFloat.sub m t) m = true.
Proof.
  rewrite leb_zero_nonneg, eqb_refl_not_nan, FloatAxioms.leb_spec.
  rewrite FloatAxioms.sub_spec. unfold FloatAxioms.SF64sub.
  intros Ht Hu. apply SFsub_le; [done| |done|].
  - apply FloatAxioms.Prim2SF_valid.
  - by apply negb_true_iff.
Qed.

End PrimFloatEnclose.

(** ** The order of the two bands in binary64 *)

Section Binary64Order.
Import Kernel.

Lemma binary64_add_number_r (m t : PrimFloat.float) :
  PrimFloat.eqb (PrimFloat.add m t) (PrimFloat.add m t) = true →
  PrimFloat.eqb t t = true.
Proof.
  rewrite !eqb_refl_not_nan, FloatAxioms.add_spec. unfold FloatAxioms.SF64add.
  destruct (FloatOps.Prim2SF t); try done.
  by destruct (FloatOps.Prim2SF m).
Qed.

Lemma binary64_mul_number_l (s k : PrimFloat.float) :
  PrimFloat.eqb (PrimFloat.mul s k) (PrimFloat.mul s k) = true →
  PrimFloat.eqb s s = true.
Proof.
  rewrite !eqb_refl_not_nan, FloatAxioms.mul_spec. unfold FloatAxioms.SF64mul.
  by destruct (FloatOps.Prim2SF s).
Qed.

(** What [zsqrt] returns is not negative, unless it is NaN. *)
Lemma binary64_zsqrt_nonneg (x : PrimFloat.float) :
  is_number binary64 (zsqrt binary64 x) = true →
  PrimFloat.leb PrimFloat.zero (zsqrt binary64 x) = true.
Proof.
  unfold zsqrt, is_number. cbn [num_ltb num_zero num_sqrt num_eqb binary64].
  destruct (PrimFloat.ltb x PrimFloat.zero); [done|].
  apply binary64_sqrt_nonneg.
Qed.


(** The rolling mean lies between the two bands. *)
Lemma binary64_bands_enclose w k close i m u l :
  rolling_mean binary64 w close !! i = Some m →
  bollinger_high binary64 w k close !! i = Some u →
  bollinger_low binary64 w k close !! i = Some l →
  PrimFloat.leb PrimFloat.zero k = true →
  is_number binary64 u = true → is_number binary64 l = true →
  PrimFloat.leb l m = true ∧ PrimFloat.leb m u = true.
Proof.
  intros Hm Hu Hl Hk Hnu Hnl.
  pose proof (lookup_lt_Some _ _ _ Hu) as Hi.
  rewrite (proj1 (length_bands binary64 w k close)) in Hi.
  destruct (bands_lookup binary64 w k close i Hi)
    as (m' & s & Hm' & Hs & Hu' & Hl').
  rewrite Hm in Hm'. injection Hm' as <-.
  rewrite Hu in Hu'. injection Hu' as ->.
  rewrite Hl in Hl'. injection Hl' as ->.
  cbn [num_add num_sub num_mul binary64] in *.
  unfold is_number in Hnu, Hnl. cbn [num_eqb binary64] in Hnu, Hnl.
  pose proof (binary64_add_number_r _ _ Hnu) as Hnt.
  pose proof (binary64_mul_number_l _ _ Hnt) as Hns.
  assert (PrimFloat.leb PrimFloat.zero (PrimFloat.mul s k) = true) as Ht.
  { apply binary64_mul_nonneg; [|done|done].
    unfold rolling_std in Hs. rewrite list_lookup_fmap in Hs.
    destruct (roll_var binary64 (Z.of_nat w) 1 w (prep_values binary64 close) !! i)
      as [x|]; [|done].
    injection Hs as <-. by apply binary64_zsqrt_nonneg. }
  split; [by apply binary64_sub_le|by apply binary64_add_ge].
Qed.

End Binary64Order.

(** ** The moving average in binary64 *)

Section MovingAverageColumns.
Import Kernel.







End MovingAverageColumns.

(** ** The bands in binary64 *)

Section BandColumns.
Import Kernel Rolling Effects Observe.






End BandColumns.

(** ** Further facts of the binary64 run *)

Section Binary64Edges.
Import Kernel.

(** X20.  In binary64, with a window of 1 the moving average is the closing
    price itself at every row whose price is a finite number, with no
    rounding at all.  For the prices 0.1, 0.2, 0.3 the column is 0.1, 0.2,
    0.3. *)
Theorem X20_window_one_binary64
    (close : list PrimFloat.float) (i : nat) (c : PrimFloat.float) :
  close !! i = Some c →
  (c =? c)%float = true → PrimFloat.is_infinity c = false →
  Kernel.rolling_mean binary64 1 close !! i = Some c ∧
  Kernel.rolling_mean binary64 1 [0.1; 0.2; 0.3]%float = [0.1; 0.2; 0.3]%float.
Proof.
  intros Hc Hnum Hfin. split; [|vm_compute; reflexivity].
  apply rolling_mean_flat; [lia|lia|by eapply lookup_lt_Some| |done].
  intros j Hlo Hhi. assert (j = i) as -> by lia.
  unfold prep_values. rewrite list_lookup_fmap, Hc.
  cbn [fmap option_fmap option_map num_is_inf binary64]. by rewrite Hfin.
Qed.

Lemma X20_witness :
  Kernel.rolling_mean binary64 1 [4; 0.7; 6]%float !! 1 = Some 0.7%float ∧
  Kernel.rolling_mean binary64 1 [0.1; 0.2; 0.3]%float = [0.1; 0.2; 0.3]%float.
Proof.
  apply (X20_window_one_binary64 [4; 0.7; 6]%float 1 0.7%float).
  - reflexivity.
  - reflexivity.
  - reflexivity.
Defined.

(** X21.  In binary64, with a window of 1 the rolling standard deviation and
    both band columns are NaN at every row, whatever the closing prices and
    the multiplier. *)
Theorem X21_bands_window_one_binary64
    (k : PrimFloat.float) (close : list PrimFloat.float) :
  Kernel.rolling_std binary64 1 close = replicate (length close) PrimFloat.nan ∧
  Kernel.bollinger_high binary64 1 k close = replicate (length close) PrimFloat.nan ∧
  Kernel.bollinger_low binary64 1 k close = replicate (length close) PrimFloat.nan ∧
  Kernel.bollinger_high binary64 1 2%float [4; 2; 6]%float
    = [PrimFloat.nan; PrimFloat.nan; PrimFloat.nan]%float.
Proof.
  assert (∀ i, i < length close →
            rolling_std binary64 1 close !! i = Some PrimFloat.nan) as Hstd.
  { intros i Hi. by apply (rolling_std_single binary64). }
  split; [|split; [|split]]; [| | |vm_compute; reflexivity];
    apply list_eq; intros i;
    (destruct (decide (i < length close)) as [Hi|Hi];
     [ rewrite lookup_replicate_2 by done
     | rewrite !lookup_ge_None_2;
         [ done
         | rewrite length_replicate; lia
         | rewrite ?length_rolling_std,
             ?(proj1 (length_bands binary64 1 k close)),
             ?(proj2 (length_bands binary64 1 k close)); lia ] ]).
  - by apply Hstd.
  - destruct (bands_lookup binary64 1 k close i Hi) as (m & s & _ & Hs & -> & _).
    rewrite Hstd in Hs by done. injection Hs as <-.
    cbn [num_add num_mul binary64].
    by rewrite binary64_mul_nan, binary64_add_nan_r.
  - destruct (bands_lookup binary64 1 k close i Hi) as (m & s & _ & Hs & _ & ->).
    rewrite Hstd in Hs by done. injection Hs as <-.
    cbn [num_sub num_mul binary64].
    by rewrite binary64_mul_nan, binary64_sub_nan_r.
Qed.

(** X22.  In binary64, a closing price that is NaN or infinite blanks every
    window it falls in: for a window [w >= 1] the moving average, the rolling
    deviation and both bands are NaN at every row [i] with
    [i - w + 1 <= j <= i], where [j] is the row of that price.  For the
    prices 4, NaN, 6, 7 with window 2 the moving average is NaN, NaN, NaN,
    6.5. *)
Theorem X22_gap_blanks_its_windows_binary64
    (w : nat) (k : PrimFloat.float) (close : list PrimFloat.float)
    (i j : nat) (v : PrimFloat.float) :
  1 ≤ w → i < length close →
  i + 1 - w ≤ j → j ≤ i →
  close !! j = Some v →
  (v =? v)%float = false ∨ PrimFloat.is_infinity v = true →
  Kernel.rolling_mean binary64 w close !! i = Some PrimFloat.nan ∧
  Kernel.rolling_std binary64 w close !! i = Some PrimFloat.nan ∧
  Kernel.bollinger_high binary64 w k close !! i = Some PrimFloat.nan ∧
  Kernel.bollinger_low binary64 w k close !! i = Some PrimFloat.nan ∧
  Kernel.rolling_mean binary64 2 [4; PrimFloat.nan; 6; 7]%float
    = [PrimFloat.nan; PrimFloat.nan; PrimFloat.nan; 6.5]%float.
Proof.
  intros Hw Hi Hlo Hhi Hv Hgap.
  destruct (binary64_prep_gap close j v Hv Hgap) as (v' & Hv' & Hnum).
  pose proof (window_with_gap binary64 w close i j v' Hlo Hhi Hv' Hnum) as Hfew.
  pose proof (rolling_mean_few binary64 w close i Hi Hfew) as Hm.
  pose proof (rolling_std_few binary64 w close i binary64_zsqrt_nan Hi Hfew) as Hs.
  destruct (bands_lookup binary64 w k close i Hi) as (m & s & Hm' & Hs' & Hu & Hl).
  rewrite Hm in Hm'. injection Hm' as <-. rewrite Hs in Hs'. injection Hs' as <-.
  cbn [num_add num_sub num_mul num_nan binary64] in *.
  rewrite binary64_add_nan in Hu. rewrite binary64_sub_nan in Hl.
  repeat split; first [done | vm_compute; reflexivity].
Qed.


Lemma X22_witness :
  Kernel.rolling_mean binary64 2 [4; PrimFloat.nan; 6; 7]%float !! 2 = Some PrimFloat.nan ∧
  Kernel.rolling_std binary64 2 [4; PrimFloat.nan; 6; 7]%float !! 2 = Some PrimFloat.nan ∧
  Kernel.bollinger_high binary64 2 2%float [4; PrimFloat.nan; 6; 7]%float !! 2
    = Some PrimFloat.nan ∧
  Kernel.bollinger_low binary64 2 2%float [4; PrimFloat.nan; 6; 7]%float !! 2
    = Some PrimFloat.nan ∧
  Kernel.rolling_mean binary64 2 [4; PrimFloat.nan; 6; 7]%float
    = [PrimFloat.nan; PrimFloat.nan; PrimFloat.nan; 6.5]%float.
Proof.
  apply (X22_gap_blanks_its_windows_binary64 2 2%float
           [4; PrimFloat.nan; 6; 7]%float 2 1 PrimFloat.nan).
  - lia.
  - simpl. lia.
  - lia.
  - lia.
  - reflexivity.
  - left. reflexivity.
Defined.

(** X25.  In binary64, with a multiplier that is not negative, the moving
    average of the window lies between the two bands wherever neither band
    is NaN: it is at least the lower band and at most the upper band.  For
    the prices 1, 3 with window 2 and multiplier 2 the average at row 1 is
    2, between -0.8284271247461903 and 4.82842712474619. *)
Theorem X25_bands_enclose_average_binary64
    (w : nat) (k : PrimFloat.float) (close : list PrimFloat.float)
    (i : nat) (m u l : PrimFloat.float) :
  Kernel.rolling_mean binary64 w close !! i = Some m →
  Kernel.bollinger_high binary64 w k close !! i = Some u →
  Kernel.bollinger_low binary64 w k close !! i = Some l →
  (0 <=? k)%float = true →
  is_number binary64 u = true → is_number binary64 l = true →
  (l <=? m)%float = true ∧ (m <=? u)%float = true.
Proof. apply binary64_bands_enclose. Qed.

Lemma X25_witness :
  (-0.8284271247461903 <=? 2)%float = true ∧
  (2 <=? 4.82842712474619)%float = true.
Proof.
  apply (X25_bands_enclose_average_binary64 2 2%float [1; 3]%float 1
           2%float 4.82842712474619%float (-0.8284271247461903)%float);
    vm_compute; reflexivity.
Defined.

End Binary64Edges.

(** ** The kernels against the textbook definitions, in exact arithmetic *)

Section ExactArithmetic.
Import Kernel Rolling Effects Observe.





End ExactArithmetic.
